(** * cnvlib.export: export of copy number segments to other formats

    A shallow embedding of [cnvlib/export.py] and the properties of its
    encoders (BED, VCF, SEG, THetA), of the probe merge and of the format
    table.

    Conventions of the embedding.
    - The module is written to run under Python 2 and under Python 3 (it
      imports [__future__] and the lazy [map], [range] and [zip] of
      [Bio._py3k]).  Of the built-ins it calls, [round] differs between the
      two: on a tie Python 2 rounds away from zero and Python 3 to the even
      neighbour.  The interpreter is therefore a parameter [py] of the
      encoders that round.
    - A finite float is modelled by the rational it denotes ([Q]); [round]
      is exact on it.  Where the module computes with floats (the THetA
      encoder) a float is a [double]: not a number, an infinity or a finite
      value, and every operation answers the double nearest to the exact
      result (IEEE 754 binary64, ties to even).  The power [2 ** x] and the
      mean of a pandas column are functions of the platform: they are
      parameters of the encoder.
    - Integer columns ([start], [end], [probes]) are [Z].
    - A generator is modelled by the list of the values it yields; the
      generator [merge_samples], whose clean-up matters, is modelled as a
      state machine over the set of open file handles.
    - A raised exception is the [Raise] branch of [Result]. *)

From Stdlib Require Import ZArith QArith Qround Qabs List String Ascii Bool Lia.
From Stdlib Require Import DecimalString.
From Stdlib Require Import Qpower Psatz.
From Stdlib Require SpecFloat.
Import ListNotations.

Open Scope string_scope.
Open Scope Z_scope.

(* ------------------------------------------------------------------ *)
(** ** Exceptions *)

Inductive PyError : Type :=
| ValueError (msg : string)          (* unpacking, int(), float() *)
| ValidationError (title : string)   (* core.check_unique, core.assert_equal *)
| KeyError (key : string)
| UnboundLocalError (name : string)
| IOError (fname : string)
| OverflowError (msg : string).        (* int() of an infinite float *)

Inductive Result (A : Type) : Type :=
| Ok (a : A)
| Raise (e : PyError).
Arguments Ok {A} a.
Arguments Raise {A} e.

Definition bind {A B} (r : Result A) (k : A -> Result B) : Result B :=
  match r with
  | Ok a => k a
  | Raise e => Raise e
  end.

Notation "x <- r ;; k" := (bind r (fun x => k))
  (at level 61, r at next level, right associativity).
Notation "' p <- r ;; k" := (bind r (fun x => let p := x in k))
  (at level 61, p pattern, r at next level, right associativity).

(** [map f xs] forced to the end, stopping at the first exception. *)
Fixpoint mapM {A B} (f : A -> Result B) (xs : list A) : Result (list B) :=
  match xs with
  | [] => Ok []
  | x :: rest =>
      y <- f x ;;
      ys <- mapM f rest ;;
      Ok (y :: ys)
  end.

(* ------------------------------------------------------------------ *)
(** ** Python built-ins used by the module *)

Inductive PyVersion : Type := Python2 | Python3.

Module Py.

(** Nearest integer, a tie going to the even neighbour. *)
Definition round_half_even (x : Q) : Z :=
  let f := Qfloor x in
  match Qcompare (x - inject_Z f) (1 # 2) with
  | Lt => f
  | Gt => f + 1
  | Eq => if Z.even f then f else f + 1
  end.

(** Nearest integer, a tie going away from zero. *)
Definition round_half_away (x : Q) : Z :=
  if Qle_bool 0 x then Qfloor (x + (1 # 2)) else - Qfloor (- x + (1 # 2)).

(** [int(round(x))] for a finite float [x]: Python 2 rounds half away from
    zero (and answers a float, which [int] converts exactly), Python 3
    rounds half to even. *)
Definition round (py : PyVersion) (x : Q) : Z :=
  match py with
  | Python2 => round_half_away x
  | Python3 => round_half_even x
  end.

(** ["%d" % n] *)
Definition fmt_d (n : Z) : string :=
  NilZero.string_of_int (Z.to_int n).

(** [sep.join(parts)] *)
Fixpoint join (sep : string) (parts : list string) : string :=
  match parts with
  | [] => ""
  | [p] => p
  | p :: rest => p ++ sep ++ join sep rest
  end.

(** [max(a, b)] on integers *)
Definition max (a b : Z) : Z := if b >? a then b else a.

(** *** ["%g" % n] for an integer [n] of an int64 column.

    The integer is converted to a float (53 significant bits, ties to
    even) and printed with six significant digits: in positional notation
    when the decimal exponent is below 6, else as mantissa and exponent,
    trailing zeros of the mantissa removed. *)

Definition bit_length (a : Z) : Z := Z.log2 a + 1.

(** nearest integer to [a / d], ties to even ([0 <= a], [0 < d]) *)
Definition div_half_even (a d : Z) : Z :=
  let q := a / d in
  let r := a mod d in
  match 2 * r ?= d with
  | Lt => q
  | Gt => q + 1
  | Eq => if Z.even q then q else q + 1
  end.

Definition to_float53 (a : Z) : Z :=
  let b := bit_length a in
  if b <=? 53 then a
  else let s := b - 53 in div_half_even a (2 ^ s) * 2 ^ s.

Definition digits (a : Z) : string :=
  NilZero.string_of_uint (N.to_uint (Z.to_N a)).

Fixpoint strip_zeros_rev (s : list ascii) : list ascii :=
  match s with
  | "0"%char :: rest => strip_zeros_rev rest
  | _ => s
  end.

Definition strip_trailing_zeros (s : string) : string :=
  string_of_list_ascii
    (rev (strip_zeros_rev (rev (list_ascii_of_string s)))).

Definition fmt_exp (e : Z) : string :=
  if e <? 10 then "e+0" ++ digits e else "e+" ++ digits e.

Definition fmt_g_nonneg (a : Z) : string :=
  let v := to_float53 a in
  let n := Z.of_nat (String.length (digits v)) in
  if n <=? 6 then digits v
  else
    let m := div_half_even v (10 ^ (n - 6)) in
    let '(m, e) := if m =? 10 ^ 6 then (10 ^ 5, n) else (m, n - 1) in
    let ds := digits m in
    let frac := strip_trailing_zeros (substring 1 5 ds) in
    let mant := if (frac =? "")%string then substring 0 1 ds
                else substring 0 1 ds ++ "." ++ frac in
    mant ++ fmt_exp e.

Definition fmt_g (n : Z) : string :=
  if n <? 0 then "-" ++ fmt_g_nonneg (- n) else fmt_g_nonneg n.

End Py.

(* ------------------------------------------------------------------ *)
(** ** Floats *)

(** A float (an IEEE 754 double): not a number, an infinity, or the
    rational a finite double denotes.  The sign of a zero is not kept: the
    module never divides by a zero, and [int(round(x))] is 0 for either
    zero. *)
Inductive double : Type :=
| NaN
| Inf (negative : bool)
| Fin (q : Q).

Module Float64.

(** The exponent of the smallest subnormal. *)
Definition emin : Z := -1074.

(** [floor(log2(q))] for [0 < q]. *)
Definition ilog2 (q : Q) : Z :=
  let k := Z.log2 (Qnum q) - Z.log2 (Zpos (Qden q)) in
  if Qle_bool (2 ^ k) q then k else k - 1.

(** The exponent of the unit in the last place of the doubles around
    [q]: 53 significant bits, subnormals below [2 ^ -1022]. *)
Definition ulp_exponent (q : Q) : Z := Z.max (ilog2 q - 52) emin.

(** The nearest multiple of the unit in the last place, ties to the even
    one, for [0 < q]. *)
Definition round_pos (q : Q) : Q :=
  let e := ulp_exponent q in
  (inject_Z (Py.round_half_even (q / 2 ^ e)) * 2 ^ e)%Q.

Definition overflows (r : Q) : bool := Qle_bool (2 ^ 1024) r.

(** The double an exact result is rounded to (round to nearest, ties to
    even; past the largest double, an infinity). *)
Definition of_Q (q : Q) : double :=
  let q := Qred q in
  match (q ?= 0)%Q with
  | Eq => Fin 0
  | Gt => let r := round_pos q in
          if overflows r then Inf false else Fin (Qred r)
  | Lt => let r := round_pos (- q) in
          if overflows r then Inf true else Fin (Qred (- r))
  end.

(** [float(n)] and the conversion of an integer operand. *)
Definition of_Z (n : Z) : double := of_Q (inject_Z n).

Definition negative (q : Q) : bool := Qnum q <? 0.

Definition is_zero (q : Q) : bool := Qnum q =? 0.

Definition add (x y : double) : double :=
  match x, y with
  | NaN, _ | _, NaN => NaN
  | Inf s, Inf t => if Bool.eqb s t then Inf s else NaN
  | Inf s, Fin _ | Fin _, Inf s => Inf s
  | Fin a, Fin b => of_Q (a + b)
  end.

Definition mul (x y : double) : double :=
  match x, y with
  | NaN, _ | _, NaN => NaN
  | Inf s, Inf t => Inf (xorb s t)
  | Inf s, Fin q | Fin q, Inf s =>
      if is_zero q then NaN else Inf (xorb s (negative q))
  | Fin a, Fin b => of_Q (a * b)
  end.

(** Division.  The module only divides by [read_length]; a zero divisor,
    which is [+0.0] here, gives an infinity or not a number, as numpy's
    float64 does. *)
Definition div (x y : double) : double :=
  match x, y with
  | NaN, _ | _, NaN => NaN
  | Inf _, Inf _ => NaN
  | Inf s, Fin q => Inf (xorb s (negative q))
  | Fin _, Inf _ => Fin 0
  | Fin a, Fin b =>
      if is_zero b then (if is_zero a then NaN else Inf (negative a))
      else of_Q (a / b)
  end.

(** [x <= y]; not a number compares with nothing. *)
Definition le (x y : double) : Prop :=
  match x, y with
  | NaN, _ | _, NaN => False
  | Inf true, _ => True
  | _, Inf false => True
  | Inf false, _ => False
  | _, Inf true => False
  | Fin a, Fin b => (a <= b)%Q
  end.

(** Equality of the values denoted. *)
Definition eq (x y : double) : Prop :=
  match x, y with
  | NaN, NaN => True
  | Inf s, Inf t => s = t
  | Fin a, Fin b => (a == b)%Q
  | _, _ => False
  end.

(** [int(round(x))] *)
Definition int_round (py : PyVersion) (x : double) : Result Z :=
  match x with
  | NaN => Raise (ValueError "cannot convert float NaN to integer")
  | Inf _ => Raise (OverflowError "cannot convert float infinity to integer")
  | Fin q => Ok (Py.round py q)
  end.

End Float64.

(* ------------------------------------------------------------------ *)
(** ** Data model *)

(** One row of a copy number array.  [probes] is read by the VCF and THetA
    encoders unconditionally; those encoders are modelled on arrays that
    carry the column. *)
Record Segment : Type := mkSegment {
  chromosome : string;
  start : Z;
  end_ : Z;
  gene : string;
  log2 : Q;
  probes : Z
}.

(** [CNA.read(fname)]: the rows, the sample id and whether the table has a
    [probes] column (the test ['probes' in segments]). *)
Record CopyNumArray : Type := mkCNA {
  sample_id : string;
  has_probes : bool;
  data : list Segment
}.

(* ------------------------------------------------------------------ *)
(** ** BED *)

Definition BedRow : Type := string * Z * Z * string * Z.

(** The loop of [segments2bed] over [zip(segments, absolutes)]. *)
Fixpoint segments2bed_loop (py : PyVersion) (zipped : list (Segment * Q))
    (label : string) (ploidy : Z) (show_neutral : bool) : list BedRow :=
  match zipped with
  | [] => []
  | (row, abs_val) :: rest =>
      let ncopies := Py.round py abs_val in
      if show_neutral || negb (ncopies =? ploidy)
      then (chromosome row, start row, end_ row, label, ncopies)
             :: segments2bed_loop py rest label ploidy show_neutral
      else segments2bed_loop py rest label ploidy show_neutral
  end.

(* ------------------------------------------------------------------ *)
(** ** VCF *)

Definition VcfRecord : Type := string * Z * string * string * string * string.

(** The body of the loop of [segments2vcf] for one pair of
    [zip(segments, absolutes)]: [None] is the [continue]. *)
Definition vcf_record (py : PyVersion) (row : Segment) (abs_val : Q)
    (ploidy : Z) : option VcfRecord :=
  let ncopies := Py.round py abs_val in
  if ncopies =? ploidy then None
  else
    let svlen := end_ row - start row in
    let '(svtype, svlen, formats, genotype) :=
      if ncopies >? ploidy then
        ("DUP", svlen, "GT:GQ:CN:CNQ",
         "0/1:0:" ++ Py.fmt_d ncopies ++ ":" ++ Py.fmt_g (probes row))
      else (* ncopies < ploidy *)
        let svlen := svlen * -1 in
        let gt := if ncopies =? 0 then "1/1" else "0/1" in
        ("DEL", svlen, "GT:GQ", gt ++ ":" ++ Py.fmt_d (probes row))
    in
    let info := Py.join ";" ["IMPRECISE";
                             "SVTYPE=" ++ svtype;
                             "END=" ++ Py.fmt_d (end_ row);
                             "SVLEN=" ++ Py.fmt_d svlen] in
    Some (chromosome row, Py.max 1 (start row), svtype, info, formats,
          genotype).

Fixpoint segments2vcf_loop (py : PyVersion) (zipped : list (Segment * Q))
    (ploidy : Z) : list VcfRecord :=
  match zipped with
  | [] => []
  | (row, abs_val) :: rest =>
      match vcf_record py row abs_val ploidy with
      | None => segments2vcf_loop py rest ploidy
      | Some rec => rec :: segments2vcf_loop py rest ploidy
      end
  end.

Section Resolver.

Variable py : PyVersion.

(** [call.absolute_pure(segments, ploidy, is_reference_male)]: the
    external resolver, one value per segment. *)
Variable absolute_pure : list Segment -> Z -> bool -> list Q.

Definition segments2bed (segments : list Segment) (label : string)
    (ploidy : Z) (is_reference_male show_neutral : bool) : list BedRow :=
  let absolutes := absolute_pure segments ploidy is_reference_male in
  segments2bed_loop py (combine segments absolutes) label ploidy show_neutral.

Definition segments2vcf (segments : list Segment) (ploidy : Z)
    (is_reference_male : bool) : list VcfRecord :=
  let absolutes := absolute_pure segments ploidy is_reference_male in
  segments2vcf_loop py (combine segments absolutes) ploidy.

(** The rows [export_vcf] hands to the data frame, under [vcf_columns]. *)
Definition VcfRow : Type :=
  string * Z * string * string * string * string * string * string
  * string * string.

Definition export_vcf_rows (segments : CopyNumArray) (ploidy : Z)
    (is_reference_male : bool) : list VcfRow :=
  map (fun '(chrom, posn, alt, info, fmts, gtype) =>
         (chrom, posn, ".", "N", "<" ++ alt ++ ">", ".", ".", info, fmts,
          gtype))
      (segments2vcf (data segments) ploidy is_reference_male).

Definition vcf_columns (segments : CopyNumArray) (sample : option string)
  : list string :=
  ["#CHROM"; "POS"; "ID"; "REF"; "ALT"; "QUAL"; "FILTER"; "INFO"; "FORMAT";
   match sample with
   | Some s => if (s =? "")%string then sample_id segments else s
   | None => sample_id segments
   end].

End Resolver.

(* ------------------------------------------------------------------ *)
(** ** [int(s)] on a string

    The conversion of Python 3.6 and later on ASCII text: surrounding
    whitespace, an optional sign, decimal digits with single underscores
    between them.  (Earlier interpreters reject the underscores.) *)

Module PyInt.

Definition is_space (c : ascii) : bool :=
  let n := nat_of_ascii c in
  ((9 <=? n) && (n <=? 13) || (n =? 32))%nat.

Definition is_digit (c : ascii) : bool :=
  let n := nat_of_ascii c in
  ((48 <=? n) && (n <=? 57))%nat.

Definition digit_val (c : ascii) : Z := Z.of_nat (nat_of_ascii c) - 48.

Fixpoint lstrip (s : list ascii) : list ascii :=
  match s with
  | c :: rest => if is_space c then lstrip rest else s
  | [] => []
  end.

Definition strip (s : list ascii) : list ascii :=
  rev (lstrip (rev (lstrip s))).

(** decimal digits, single underscores allowed between two digits *)
Fixpoint digits_val (s : list ascii) (acc : Z) (after_digit : bool)
  : option Z :=
  match s with
  | [] => if after_digit then Some acc else None
  | c :: rest =>
      if is_digit c then digits_val rest (10 * acc + digit_val c) true
      else if Ascii.eqb c "_"
           then if after_digit then digits_val rest acc false else None
           else None
  end.

Definition int_of_str (s : string) : option Z :=
  match strip (list_ascii_of_string s) with
  | "-"%char :: body => option_map Z.opp (digits_val body 0 false)
  | "+"%char :: body => digits_val body 0 false
  | body => digits_val body 0 false
  end.

End PyInt.

(* ------------------------------------------------------------------ *)
(** ** Merging the probes of several samples *)

Record ProbeInfo : Type := mkProbeInfo {
  label : string;
  chrom : string;
  pstart : Z;
  pend : Z;
  pgene : string
}.

(** A row of [core.parse_tsv]: the fields of one line. *)
Definition RawRow : Type := list string.

(** Modelled from the spec: [core.check_unique(items, title)] is not among
    the sources.  It verifies that every ProbeInfo has an identical [label]
    and returns the shared item; if not, it fails with a validation error
    that identifies the mismatched field by [title]. *)
Definition check_unique (items : list ProbeInfo) (title : string)
  : Result ProbeInfo :=
  match items with
  | [] => Raise (ValidationError title)
  | it :: others =>
      if forallb (fun o => (label o =? label it)%string) others
      then Ok it
      else Raise (ValidationError title)
  end.

Section Merge.

(** The float type of the interpreter and its conversions [int(s)] and
    [float(s)] of a string. *)
Variable F : Type.
Variable int_of_str : string -> option Z.
Variable float_of_str : string -> option F.

Definition int (s : string) : Result Z :=
  match int_of_str s with
  | Some n => Ok n
  | None => Raise (ValueError "invalid literal for int()")
  end.

Definition float (s : string) : Result F :=
  match float_of_str s with
  | Some x => Ok x
  | None => Raise (ValueError "could not convert string to float")
  end.

Definition row_to_probe_coverage (row : RawRow) : Result (ProbeInfo * F) :=
  match firstn 5 row with
  | [chrom; start; end_; gene; coverage] =>
      let label := chrom ++ ":" ++ start ++ "-" ++ end_ ++ ":" ++ gene in
      s <- int start ;;
      e <- int end_ ;;
      let probe_info := mkProbeInfo label chrom s e gene in
      c <- float coverage ;;
      Ok (probe_info, c)
  | _ => Raise (ValueError "wrong number of values to unpack")
  end.

(** The merged row: the common probe, then the coverages. *)
Definition MergedRow : Type := ProbeInfo * list F.

Definition merge_rows (rows : list RawRow) : Result MergedRow :=
  pairs <- mapM row_to_probe_coverage rows ;;
  match pairs with
  | [] => Raise (ValueError "not enough values to unpack")
  | _ :: _ =>
      let '(probe_infos, coverages) := List.split pairs in
      probe_info <- check_unique probe_infos "probe Name" ;;
      Ok (probe_info, coverages)
  end.

(** *** The generator [merge_samples]

    The file system maps a name to the rows [core.parse_tsv] reads from
    it, or to nothing when [open] fails.  A handle is the position of its
    name in [filenames].  [live] is the set of handles opened and not yet
    closed by a call of [close]; what the garbage collector does to a
    dropped file object is not part of the model. *)

Definition FileSystem : Type := string -> option (list RawRow).
Definition Handle : Type := nat.

Inductive GenState : Type :=
| Created (filenames : list string)
| Suspended (handles : list Handle) (datastreams : list (list RawRow))
| Finished.

Record Machine : Type := mkMachine {
  gen : GenState;
  live : list Handle
}.

Inductive Outcome : Type :=
| Yielded (row : MergedRow)
| StopIteration
| Raised (e : PyError).

(** The first loop: open and parse each file. *)
Fixpoint open_all (fs : FileSystem) (filenames : list string) (next : Handle)
    (handles : list Handle) (datastreams : list (list RawRow))
    (live : list Handle)
  : Result (list Handle * list (list RawRow)) * list Handle :=
  match filenames with
  | [] => (Ok (handles, datastreams), live)
  | fname :: rest =>
      match fs fname with
      | None => (Raise (IOError fname), live)
      | Some data =>
          open_all fs rest (S next) (handles ++ [next])%list
                   (datastreams ++ [data])%list (live ++ [next])%list
      end
  end.

(** One step of [zip] over the unpacked [datastreams]: the next tuple of
    rows and the rest
    of the streams, or nothing when a stream is exhausted or there is no
    stream. *)
Fixpoint zip_heads (datastreams : list (list RawRow))
  : option (list RawRow * list (list RawRow)) :=
  match datastreams with
  | [] => Some ([], [])
  | [] :: _ => None
  | (r :: rs) :: others =>
      match zip_heads others with
      | Some (heads, tails) => Some (r :: heads, rs :: tails)
      | None => None
      end
  end.

Definition zip_next (datastreams : list (list RawRow))
  : option (list RawRow * list (list RawRow)) :=
  match datastreams with
  | [] => None
  | _ => zip_heads datastreams
  end.

(** [handle.close()] for each handle *)
Definition close_all (handles live : list Handle) : list Handle :=
  filter (fun h => negb (existsb (Nat.eqb h) handles)) live.

(** The second loop, entered or resumed, up to the next [yield], the end
    of the body or an exception. *)
Definition resume (handles : list Handle) (datastreams : list (list RawRow))
    (live : list Handle) : Outcome * Machine :=
  match zip_next datastreams with
  | Some (rows, rest) =>
      match merge_rows rows with
      | Ok merged => (Yielded merged, mkMachine (Suspended handles rest) live)
      | Raise e => (Raised e, mkMachine Finished live)
      end
  | None => (StopIteration, mkMachine Finished (close_all handles live))
  end.

(** [next(g)] *)
Definition gen_next (fs : FileSystem) (m : Machine) : Outcome * Machine :=
  match gen m with
  | Created filenames =>
      match open_all fs filenames 0%nat [] [] (live m) with
      | (Ok (handles, datastreams), live') => resume handles datastreams live'
      | (Raise e, live') => (Raised e, mkMachine Finished live')
      end
  | Suspended handles datastreams => resume handles datastreams (live m)
  | Finished => (StopIteration, m)
  end.

(** [g.close()], or the generator dropped by its consumer: GeneratorExit
    is raised at the [yield]; the body has no handler, so nothing of it
    runs. *)
Definition gen_close (m : Machine) : Machine :=
  mkMachine Finished (live m).

(** [merge_samples(filenames)]: the generator object, nothing run yet. *)
Definition merge_samples (filenames : list string) : Machine :=
  mkMachine (Created filenames) [].

(** The consumer [for row in g] taking at most [fuel] rows. *)
Fixpoint drain (fs : FileSystem) (fuel : nat) (m : Machine)
  : list MergedRow * option Outcome * Machine :=
  match fuel with
  | O => ([], None, m)
  | S fuel' =>
      match gen_next fs m with
      | (Yielded row, m') =>
          let '(rows, last, m'') := drain fs fuel' m' in
          (row :: rows, last, m'')
      | (out, m') => ([], Some out, m')
      end
  end.

End Merge.

(* ------------------------------------------------------------------ *)
(** ** Clustering tables and the format table *)

(** A cell of an output table. *)
Inductive Cell (F : Type) : Type :=
| CStr (s : string)
| CInt (n : Z)
| CNum (x : F).
Arguments CStr {F} s.
Arguments CInt {F} n.
Arguments CNum {F} x.

(** What a formatter returns: a header and rows, or the [NotImplemented]
    object. *)
Inductive FmtResult (F : Type) : Type :=
| Table (outheader : list (Cell F)) (outrows : list (list (Cell F)))
| NotImplemented.
Arguments Table {F} outheader outrows.
Arguments NotImplemented {F}.

Section Formats.

Variable F : Type.

(** [s.zfill(3)] for the digits of a natural number *)
Definition zfill3 (s : string) : string :=
  match String.length s with
  | 0%nat => "000" ++ s
  | 1%nat => "00" ++ s
  | 2%nat => "0" ++ s
  | _ => s
  end.

Definition str_nat (i : nat) : string := Py.fmt_d (Z.of_nat i).

Fixpoint cdt_rows (i : nat) (rows : list (MergedRow F))
  : list (list (Cell F)) :=
  match rows with
  | [] => []
  | (probe, values) :: rest =>
      ([CStr ("GENE" ++ str_nat i ++ "X"); CStr ("IMAGE:" ++ str_nat i);
        CStr (label probe); CInt 1] ++ map CNum values)%list
        :: cdt_rows (S i) rest
  end.

Definition fmt_cdt (sample_ids : list string) (rows : list (MergedRow F))
  : FmtResult F :=
  let outheader :=
    (map CStr ["GID"; "CLID"; "NAME"; "GWEIGHT"] ++ map CStr sample_ids)%list in
  let header2 :=
    (map CStr ["AID"; ""; ""; ""]
     ++ map (fun i => CStr ("ARRY" ++ zfill3 (str_nat i) ++ "X"))
            (seq 0 (List.length sample_ids)))%list in
  Table outheader (header2 :: cdt_rows 0 rows).

Definition fmt_gct (sample_ids : list string) (rows : list (MergedRow F))
  : FmtResult F :=
  NotImplemented.

Definition fmt_jtv (sample_ids : list string) (rows : list (MergedRow F))
  : FmtResult F :=
  let outheader := (map CStr ["CloneID"; "Name"] ++ map CStr sample_ids)%list in
  let outrows :=
    map (fun row : MergedRow F =>
           ([CStr "IMAGE:"; CStr (label (fst row))] ++ map CNum (snd row))%list)
        rows in
  Table outheader outrows.

Definition fmt_multi (sample_ids : list string) (rows : list (MergedRow F))
  : FmtResult F :=
  NotImplemented.

End Formats.

(** The functions of the module that a format name can select. *)
Inductive ExportFunction : Type :=
| Fmt_cdt | Fmt_gct | Fmt_jtv | Fmt_multi
| Export_nexus_basic | Export_seg | Export_theta | Export_vcf.

(** The dict [EXPORT_FORMATS]; the entries for ['gct'] and
    ['nexus-multi1'] are commented out in the source. *)
Definition EXPORT_FORMATS : list (string * ExportFunction) :=
  [("cdt", Fmt_cdt);
   ("jtv", Fmt_jtv);
   ("nexus-basic", Export_nexus_basic);
   ("seg", Export_seg);
   ("theta", Export_theta);
   ("vcf", Export_vcf)].

Fixpoint dict_get {V} (d : list (string * V)) (key : string) : option V :=
  match d with
  | [] => None
  | (k, v) :: rest => if (k =? key)%string then Some v else dict_get rest key
  end.

(** [d[key]] *)
Definition dict_getitem {V} (d : list (string * V)) (key : string)
  : Result V :=
  match dict_get d key with
  | Some v => Ok v
  | None => Raise (KeyError key)
  end.

(* ------------------------------------------------------------------ *)
(** ** SEG *)

(** An [OrderedDict] from chromosome name to id: the items in insertion
    order, each key once. *)
Definition ChromIds : Type := list (string * Z).

Definition dict_contains {V} (d : list (string * V)) (key : string) : bool :=
  existsb (fun kv => (fst kv =? key)%string) d.

Fixpoint create_chrom_ids_loop (chroms : list string) (mapping : ChromIds)
    (curr_idx : Z) : ChromIds :=
  match chroms with
  | [] => mapping
  | chrom :: rest =>
      if negb (dict_contains mapping chrom)
      then create_chrom_ids_loop rest (mapping ++ [(chrom, curr_idx)])%list
                                 (curr_idx + 1)
      else create_chrom_ids_loop rest mapping curr_idx
  end.

Definition create_chrom_ids (segments : CopyNumArray) : ChromIds :=
  create_chrom_ids_loop (map chromosome (data segments)) [] 1.

(** [d.keys()] *)
Definition keys {V} (d : list (string * V)) : list string := map fst d.

(** Every name of [a] is a name of [b]. *)
Definition keys_subset (a b : list string) : bool :=
  forallb (fun k => existsb (String.eqb k) b) a.

(** Modelled from the spec: [core.assert_equal(msg, previous=a, current=b)]
    is not among the sources.  Of the two collections of chromosome names
    only the set is re-validated: the set of [current] must equal the set of
    [previous], or the run fails; the order of the names is not compared. *)
Definition assert_equal (msg : string) (previous current : list string)
  : Result unit :=
  if keys_subset previous current && keys_subset current previous
  then Ok tt
  else Raise (ValidationError msg).

Definition SegRow : Type := list (Cell Q).

Definition seg_header_probes : list string :=
  ["ID"; "Chromosome"; "Start"; "End"; "NumProbes"; "Mean"].

Definition seg_header_plain : list string :=
  ["ID"; "Chromosome"; "Start"; "End"; "Mean"].

(** The function [row2out] that [export_seg] defines for [segments]. *)
Definition row2out (segments : CopyNumArray) (chrom_ids : ChromIds)
    (row : Segment) : Result SegRow :=
  chrom_id <- dict_getitem chrom_ids (chromosome row) ;;
  if has_probes segments
  then Ok [CStr (sample_id segments); CInt chrom_id; CInt (start row);
           CInt (end_ row); CInt (probes row); CNum (log2 row)]
  else Ok [CStr (sample_id segments); CInt chrom_id; CInt (start row);
           CInt (end_ row); CNum (log2 row)].

(** The loop of [export_seg] over the arrays read from [sample_fnames],
    with the local variables [outrows], [chrom_ids] and [outheader] (unbound
    until the first pass). *)
Fixpoint export_seg_loop (samples : list CopyNumArray) (outrows : list SegRow)
    (chrom_ids : option ChromIds) (outheader : option (list string))
  : Result (list string * list SegRow) :=
  match samples with
  | [] =>
      match outheader with
      | Some h => Ok (h, outrows)
      | None => Raise (UnboundLocalError "outheader")
      end
  | segments :: rest =>
      ids <- match chrom_ids with
             | None => Ok (create_chrom_ids segments)
             | Some ids =>
                 _ <- assert_equal "Segment chromosome names differ"
                        (keys ids) (keys (create_chrom_ids segments)) ;;
                 Ok ids
             end ;;
      let outheader' :=
        if has_probes segments then seg_header_probes else seg_header_plain in
      rows <- mapM (row2out segments ids) (data segments) ;;
      export_seg_loop rest (outrows ++ rows)%list (Some ids) (Some outheader')
  end.

Definition export_seg (samples : list CopyNumArray)
  : Result (list string * list SegRow) :=
  export_seg_loop samples [] None None.

(* ------------------------------------------------------------------ *)
(** ** THetA *)

Section Theta.

Variable py : PyVersion.

(** [2 ** x] on a float: the power function of the platform. *)
Variable pow2 : double -> double.

(** [ref_rows["log2"].mean()]: the mean pandas takes of a column. *)
Variable mean : list Q -> double.

Section Count.

Variables expect_depth read_length segment_size : Z.

(** The local function of [calculate_theta_fields]; it closes over the
    three scaling variables, which are integers: each is converted to a
    float by the operation it meets (exactly below [2 ^ 53], to the nearest
    double above; the integers of an int64 column are in the range of the
    doubles). *)
Definition logratio2count (log2_ratio : double) : Result Z :=
  let read_depth :=
    Float64.mul (pow2 log2_ratio) (Float64.of_Z expect_depth) in
  let read_count :=
    Float64.div (Float64.mul (Float64.of_Z segment_size) read_depth)
                (Float64.of_Z read_length) in
  Float64.int_round py read_count.

End Count.

Definition ThetaRow : Type := string * Z * Z * Z * Z * Z.

Definition calculate_theta_fields (seg : Segment) (ref_log2 : list Q)
    (chrom_id : Z) : Result ThetaRow :=
  let expect_depth := 100 in
  let read_length := 100 in
  let segment_size := 1000 * probes seg in
  tumor_count <-
    logratio2count expect_depth read_length segment_size (Fin (log2 seg)) ;;
  ref_count <-
    logratio2count expect_depth read_length segment_size (mean ref_log2) ;;
  let row_id :=
    "start_" ++ Py.fmt_d chrom_id ++ "_" ++ Py.fmt_d (start seg)
    ++ ":end_" ++ Py.fmt_d chrom_id ++ "_" ++ Py.fmt_d (end_ seg) in
  Ok (row_id, chrom_id, start seg, end_ seg, tumor_count, ref_count).

(** The loop of [export_theta] over [ref_vals.by_segment(tumor_segs)]: each
    group is a tumor segment and the [log2] column of the reference rows
    within it. *)
Fixpoint export_theta_loop (groups : list (Segment * list Q))
    (prev_chrom : option string) (chrom_id : Z) : Result (list ThetaRow) :=
  match groups with
  | [] => Ok []
  | (seg, ref_rows) :: rest =>
      let changed :=
        match prev_chrom with
        | Some c => negb (chromosome seg =? c)%string
        | None => true
        end in
      let chrom_id := if changed then chrom_id + 1 else chrom_id in
      fields <- calculate_theta_fields seg ref_rows chrom_id ;;
      outrows <- export_theta_loop rest (Some (chromosome seg)) chrom_id ;;
      Ok (fields :: outrows)
  end.

Definition export_theta (groups : list (Segment * list Q))
  : Result (list string * list ThetaRow) :=
  outrows <- export_theta_loop groups None 0 ;;
  Ok (["#ID"; "chrm"; "start"; "end"; "tumorCount"; "normalCount"], outrows).

End Theta.

(* ------------------------------------------------------------------ *)
(** ** Projections and sample data used in the statements below *)

Definition record_pos (r : VcfRecord) : Z :=
  let '(_, posn, _, _, _, _) := r in posn.

Definition row_pos (r : VcfRow) : Z :=
  let '(_, posn, _, _, _, _, _, _, _, _) := r in posn.

Definition bed_ncopies (r : BedRow) : Z := snd r.

(** What one pair of [zip(segments, absolutes)] contributes to the VCF. *)
Definition vcf_emitted (py : PyVersion) (ploidy : Z) (pair : Segment * Q)
  : list VcfRecord :=
  match vcf_record py (fst pair) (snd pair) ploidy with
  | Some r => [r]
  | None => []
  end.

(** The segment [(chr1, 0, 100, probes=5, log2=0)]. *)
Definition seg_chr1 : Segment := mkSegment "chr1" 0 100 "" 0 5.

(** A resolver that answers the same values whatever the segments. *)
Definition const_resolver (absolutes : list Q)
  : list Segment -> Z -> bool -> list Q :=
  fun _ _ _ => absolutes.

(** The label [row_to_probe_coverage] derives from a row, and the field it
    converts to the coverage. *)
Definition derived_label (row : RawRow) : string :=
  match firstn 5 row with
  | [chrom; start; end_; gene; _] =>
      chrom ++ ":" ++ start ++ "-" ++ end_ ++ ":" ++ gene
  | _ => ""
  end.

Definition coverage_field (row : RawRow) : string := nth 4 row "".

(** [float(s)] on the integer literals, enough for the sample rows. *)
Definition float_of_int_literal (s : string) : option Q :=
  option_map inject_Z (PyInt.int_of_str s).

Definition sample_a : list RawRow :=
  [["chr1"; "100"; "200"; "TP53"; "1"]; ["chr1"; "200"; "300"; "TP53"; "2"]].

Definition sample_b : list RawRow :=
  [["chr1"; "100"; "200"; "TP53"; "3"]; ["chr1"; "200"; "350"; "TP53"; "4"]].

(** Two coverage files; any other name cannot be opened. *)
Definition two_files : string -> option (list RawRow) :=
  fun fname =>
    if (fname =? "a.cnr")%string then Some sample_a
    else if (fname =? "b.cnr")%string then Some sample_b
    else None.

(** The generator accounts for its handles: before it starts it has opened
    none, and while it is suspended the live handles are its own. *)
Definition handles_tracked (m : Machine) : Prop :=
  match gen m with
  | Created _ => live m = []
  | Suspended handles _ => live m = handles
  | Finished => live m = []
  end.

(** The chromosome column of an array, and equality of two lists of names
    as sets. *)
Definition chroms (segments : CopyNumArray) : list string :=
  map chromosome (data segments).

Definition same_set (a b : list string) : Prop :=
  forall c, In c a <-> In c b.

(** The header [export_seg] assigns while it processes [segments]. *)
Definition header_for (segments : CopyNumArray) : list string :=
  if has_probes segments then seg_header_probes else seg_header_plain.

(** Two samples with the same chromosomes in a different order of first
    appearance; the first has a [probes] column, the second has none. *)
Definition cna_a : CopyNumArray :=
  mkCNA "A" true
        [mkSegment "chr1" 0 100 "" 0 5; mkSegment "chr2" 0 50 "" (1 # 2) 3].

Definition cna_b : CopyNumArray :=
  mkCNA "B" false
        [mkSegment "chr2" 10 60 "" 0 0; mkSegment "chr1" 0 100 "" (1 # 4) 0].

(** A sample on one chromosome only. *)
Definition cna_c : CopyNumArray :=
  mkCNA "C" true [mkSegment "chr1" 0 100 "" 0 5].

Definition no_sample : CopyNumArray := mkCNA "" false [].

(** The output row of [row] in the array [segments]: it has a NumProbes
    cell exactly when the array has a [probes] column. *)
Definition seg_row_of (ids : ChromIds) (segments : CopyNumArray)
    (row : Segment) (r : SegRow) : Prop :=
  exists chrom_id,
    dict_get ids (chromosome row) = Some chrom_id
    /\ r = if has_probes segments
           then [CStr (sample_id segments); CInt chrom_id; CInt (start row);
                 CInt (end_ row); CInt (probes row); CNum (log2 row)]
           else [CStr (sample_id segments); CInt chrom_id; CInt (start row);
                 CInt (end_ row); CNum (log2 row)].

(** The rows of one sample. *)
Definition sample_rows (ids : ChromIds) (segments : CopyNumArray)
    (rows : list SegRow) : Prop :=
  Forall2 (seg_row_of ids segments) (data segments) rows.

Definition theta_tumor_count (r : ThetaRow) : Z :=
  let '(_, _, _, _, tumor_count, _) := r in tumor_count.

Definition theta_normal_count (r : ThetaRow) : Z :=
  let '(_, _, _, _, _, ref_count) := r in ref_count.

(* ------------------------------------------------------------------ *)
(** ** BED, the caller *)

(** The fields of [args] that [export_bed] reads. *)
Record BedArgs : Type := mkBedArgs {
  arg_sample_id : option string;
  arg_ploidy : Z;
  arg_male_reference : bool;
  arg_show_neutral : bool
}.

(** [a or b] for an optional string [a]: [None] and the empty string are
    false. *)
Definition or_else (a : option string) (b : string) : string :=
  match a with
  | Some s => if (s =? "")%string then b else s
  | None => b
  end.

(** The loop of [export_bed] over the arrays read from [sample_fnames],
    with the local variable [bed_rows]. *)
Fixpoint export_bed_loop (py : PyVersion)
    (absolute_pure : list Segment -> Z -> bool -> list Q)
    (samples : list CopyNumArray) (args : BedArgs) (bed_rows : list BedRow)
  : list BedRow :=
  match samples with
  | [] => bed_rows
  | segs :: rest =>
      let rows :=
        segments2bed py absolute_pure (data segs)
                     (or_else (arg_sample_id args) (sample_id segs))
                     (arg_ploidy args) (arg_male_reference args)
                     (arg_show_neutral args) in
      export_bed_loop py absolute_pure rest args (bed_rows ++ rows)%list
  end.

(** [export_bed]: no header ([None]) and the rows. *)
Definition export_bed (py : PyVersion)
    (absolute_pure : list Segment -> Z -> bool -> list Q)
    (samples : list CopyNumArray) (args : BedArgs)
  : option (list string) * list BedRow :=
  (None, export_bed_loop py absolute_pure samples args []).

(* ------------------------------------------------------------------ *)
(** ** Further projections *)

Definition bed_chrom (r : BedRow) : string :=
  let '(chrom, _, _, _, _) := r in chrom.

Definition bed_start (r : BedRow) : Z :=
  let '(_, start, _, _, _) := r in start.

Definition bed_end (r : BedRow) : Z :=
  let '(_, _, end_, _, _) := r in end_.

Definition bed_label (r : BedRow) : string :=
  let '(_, _, _, label, _) := r in label.

Definition record_chrom (r : VcfRecord) : string :=
  let '(chrom, _, _, _, _, _) := r in chrom.

Definition record_svtype (r : VcfRecord) : string :=
  let '(_, _, svtype, _, _, _) := r in svtype.

Definition record_formats (r : VcfRecord) : string :=
  let '(_, _, _, _, formats, _) := r in formats.

Definition record_genotype (r : VcfRecord) : string :=
  let '(_, _, _, _, _, genotype) := r in genotype.

Definition theta_chrom_id (r : ThetaRow) : Z :=
  let '(_, chrom_id, _, _, _, _) := r in chrom_id.

Definition theta_start (r : ThetaRow) : Z :=
  let '(_, _, start, _, _, _) := r in start.

Definition theta_end (r : ThetaRow) : Z :=
  let '(_, _, _, end_, _, _) := r in end_.

(** The length of the shortest of several streams; 0 when there is none. *)
Definition shortest (datastreams : list (list RawRow)) : nat :=
  match datastreams with
  | [] => 0%nat
  | d :: others =>
      fold_right (fun s n => Nat.min (List.length s) n) (List.length d)
                 others
  end.

(** Every chromosome occupies one run of consecutive rows: a name that
    differs from the previous one has not been met before. *)
Fixpoint grouped_from (seen : list string) (prev : option string)
    (names : list string) : Prop :=
  match names with
  | [] => True
  | c :: rest =>
      (prev = Some c \/ ~ In c seen)
      /\ grouped_from (c :: seen) (Some c) rest
  end.

Definition grouped (names : list string) : Prop :=
  grouped_from [] None names.

(** The number of streams the generator holds: the number of files. *)
Definition streams_width (width : nat) (m : Machine) : Prop :=
  match gen m with
  | Created filenames => List.length filenames = width
  | Suspended _ datastreams => List.length datastreams = width
  | Finished => True
  end.

(** The least length among [base] and the lengths of the streams. *)
Definition min_length (base : nat) (datastreams : list (list RawRow)) : nat :=
  fold_right (fun s n => Nat.min (List.length s) n) base datastreams.

(** The constant columns of a row of [export_vcf], and the agreement of
    its ALT and FORMAT columns. *)
Definition vcf_row_fixed (r : VcfRow) : Prop :=
  let '(_, _, id, ref, alt, qual, filter, _, fmts, _) := r in
  id = "." /\ ref = "N" /\ qual = "." /\ filter = "."
  /\ ((alt = "<DUP>" /\ fmts = "GT:GQ:CN:CNQ")
      \/ (alt = "<DEL>" /\ fmts = "GT:GQ")).

(** The call of [segments2bed] that [export_bed] makes for one array. *)
Definition bed_rows_of (py : PyVersion)
    (absolute_pure : list Segment -> Z -> bool -> list Q) (args : BedArgs)
    (segs : CopyNumArray) : list BedRow :=
  segments2bed py absolute_pure (data segs)
               (or_else (arg_sample_id args) (sample_id segs))
               (arg_ploidy args) (arg_male_reference args)
               (arg_show_neutral args).

(** ["%g" % n] and ["%d" % n] print the same text for the [fuel] integers
    from [n] on. *)
Fixpoint g_is_d_from (fuel : nat) (n : Z) : bool :=
  match fuel with
  | O => true
  | S fuel' =>
      (Py.fmt_g n =? Py.fmt_d n)%string && g_is_d_from fuel' (n + 1)
  end.

(** What C9 asks of the selection of a format that is declared but not
    implemented: a failure of its own, not the [KeyError] that the lookup of
    any name missing from the table raises. *)
Definition explicit_unsupported (name : string) : Prop :=
  exists e, dict_getitem EXPORT_FORMATS name = Raise e /\ e <> KeyError name.

(* ------------------------------------------------------------------ *)
(** ** Stand-ins for the platform, and the Standard Library's floats *)

(** Two stand-ins for the platform in the examples.  [pow2_step] is
    [2 ** floor(x)]: what C's [pow] answers at an integral exponent (the
    examples use no other), and a function that keeps the order of the
    exponents.  [pow2_measured] adds the value CPython 3.11 computes at the
    exponent of the counterexample, [2 ** -0.9615638183438919 = 0.5135]. *)
Definition pow2_step (x : double) : double :=
  match x with
  | NaN => NaN
  | Inf true => Fin 0
  | Inf false => Inf false
  | Fin q => Float64.of_Q (2 ^ Qfloor q)
  end.

Definition pow2_measured (x : double) : double :=
  match x with
  | Fin q =>
      if Qeq_bool q (-4330498453986503 # 4503599627370496)
      then Fin (4625196817309499 # 9007199254740992)
      else pow2_step x
  | _ => pow2_step x
  end.

(** The mean of a column as the sum of its values in order, divided by
    their number; of no value it is not a number. *)
Definition mean_in_order (xs : list Q) : double :=
  Float64.div (fold_left (fun s x => Float64.add s (Fin x)) xs (Fin 0))
              (Float64.of_Z (Z.of_nat (List.length xs))).

(** The value of a float of the Standard Library's specification of
    IEEE 754 ([SpecFloat], binary64). *)
Definition of_spec_float (f : SpecFloat.spec_float) : double :=
  match f with
  | SpecFloat.S754_nan => NaN
  | SpecFloat.S754_infinity s => Inf s
  | SpecFloat.S754_zero _ => Fin 0
  | SpecFloat.S754_finite s m e =>
      Fin (Qred (inject_Z (if s then Z.neg m else Z.pos m) * 2 ^ e))
  end.

(** The float nearest to [m * 2 ^ e]. *)
Definition binary64 (m e : Z) : SpecFloat.spec_float :=
  SpecFloat.binary_normalize 53 1024 m e false.

(** Sample values [m * 2 ^ e], and whether an operation of [Float64]
    answers on two of them what the operation of [SpecFloat] answers. *)
Definition samples64 : list (Z * Z) :=
  [(4625196817309499, -53); (100, 0); (1000, 0); (1806717506761523, -45);
   (3602879701896397, -55); (-7, -3); (1, -1074); (3, -1060); (1, 1023);
   (9007199254740991, 971); (0, 0); (123456789, -20); (-987654321, 900)].

Definition agree (op : double -> double -> double)
    (sf : SpecFloat.spec_float -> SpecFloat.spec_float -> SpecFloat.spec_float)
    (a b : Z * Z) : bool :=
  let x := binary64 (fst a) (snd a) in
  let y := binary64 (fst b) (snd b) in
  match op (of_spec_float x) (of_spec_float y), of_spec_float (sf x y) with
  | NaN, NaN => true
  | Inf s, Inf t => Bool.eqb s t
  | Fin p, Fin q => Qeq_bool p q
  | _, _ => false
  end.

Definition all_pairs {A} (f : A -> A -> bool) (l : list A) : bool :=
  forallb (fun a => forallb (f a) l) l.

(** Three tumor segments on two chromosomes, each with the [log2] of the
    reference rows within it. *)
Definition theta_sample : list (Segment * list Q) :=
  [(mkSegment "chr1" 0 100 "" 0 5, [0%Q]);
   (mkSegment "chr1" 100 200 "" 1 3, [0%Q; 2%Q]);
   (mkSegment "chr2" 0 50 "" (-1) 4, [1%Q])].

(* ------------------------------------------------------------------ *)
(** * Properties *)

(** ** Rounding *)

Lemma floor_frac (x : Q) : (0 <= x - inject_Z (Qfloor x) < 1)%Q.
Proof.
  pose proof (Qfloor_le x) as Hlo. pose proof (Qlt_floor x) as Hhi.
  rewrite inject_Z_plus in Hhi. change (inject_Z 1) with 1%Q in Hhi.
  split; lra.
Qed.

Lemma inject_Z_succ (z : Z) : (inject_Z (z + 1) == inject_Z z + 1)%Q.
Proof. rewrite inject_Z_plus. reflexivity. Qed.

Lemma Qfloor_unique (x : Q) (z : Z) :
  (inject_Z z <= x)%Q -> (x < inject_Z z + 1)%Q -> Qfloor x = z.
Proof.
  intros Hlo Hhi.
  pose proof (Qfloor_le x) as Fl. pose proof (Qlt_floor x) as Fh.
  rewrite inject_Z_succ in Fh.
  assert (A : (inject_Z (Qfloor x) < inject_Z (z + 1))%Q)
    by (rewrite inject_Z_succ; lra).
  assert (B : (inject_Z z < inject_Z (Qfloor x + 1))%Q)
    by (rewrite inject_Z_succ; lra).
  rewrite <- Zlt_Qlt in A, B. lia.
Qed.

Lemma half_even_cases (x : Q) :
  let f := Qfloor x in
  ((x - inject_Z f < 1 # 2)%Q /\ Py.round_half_even x = f) \/
  ((1 # 2 < x - inject_Z f)%Q /\ Py.round_half_even x = f + 1) \/
  ((x - inject_Z f == 1 # 2)%Q /\
   Py.round_half_even x = if Z.even f then f else f + 1).
Proof.
  unfold Py.round_half_even. cbv zeta.
  destruct (Qcompare_spec (x - inject_Z (Qfloor x)) (1 # 2)); auto.
Qed.

Lemma half_away_cases (x : Q) :
  let f := Qfloor x in
  ((x - inject_Z f < 1 # 2)%Q /\ Py.round_half_away x = f) \/
  ((1 # 2 < x - inject_Z f)%Q /\ Py.round_half_away x = f + 1) \/
  ((x - inject_Z f == 1 # 2)%Q /\
   Py.round_half_away x = if Qle_bool 0 x then f + 1 else f).
Proof.
  cbv zeta. pose proof (floor_frac x) as Hf. unfold Py.round_half_away.
  destruct (Qcompare_spec (x - inject_Z (Qfloor x)) (1 # 2)) as [E|L|G].
  - right. right. split; [exact E|].
    destruct (Qle_bool 0 x).
    + apply Qfloor_unique; rewrite inject_Z_succ; lra.
    + rewrite (Qfloor_unique (- x + (1 # 2)) (- Qfloor x)); [lia| |];
        rewrite inject_Z_opp; lra.
  - left. split; [exact L|].
    destruct (Qle_bool 0 x).
    + apply Qfloor_unique; lra.
    + rewrite (Qfloor_unique (- x + (1 # 2)) (- Qfloor x)); [lia| |];
        rewrite inject_Z_opp; lra.
  - right. left. split; [exact G|].
    destruct (Qle_bool 0 x).
    + apply Qfloor_unique; rewrite inject_Z_succ; lra.
    + rewrite (Qfloor_unique (- x + (1 # 2)) (- (Qfloor x + 1))); [lia| |];
        rewrite inject_Z_opp, inject_Z_succ; lra.
Qed.

(** Under either interpreter [round] answers an integer at distance at
    most one half. *)
Lemma round_bounds (py : PyVersion) (x : Q) :
  (inject_Z (Py.round py x) - (1 # 2) <= x
   <= inject_Z (Py.round py x) + (1 # 2))%Q.
Proof.
  pose proof (floor_frac x) as Hf.
  destruct py; unfold Py.round.
  - destruct (half_away_cases x) as [[H E]|[[H E]|[H E]]]; rewrite E.
    + split; lra.
    + rewrite inject_Z_succ. split; lra.
    + destruct (Qle_bool 0 x); [rewrite inject_Z_succ|]; split; lra.
  - destruct (half_even_cases x) as [[H E]|[[H E]|[H E]]]; rewrite E.
    + split; lra.
    + rewrite inject_Z_succ. split; lra.
    + destruct (Z.even (Qfloor x)); [|rewrite inject_Z_succ]; split; lra.
Qed.

Lemma round_nearest (py : PyVersion) (x : Q) :
  (Qabs (x - inject_Z (Py.round py x)) <= 1 # 2)%Q.
Proof.
  pose proof (round_bounds py x) as H.
  apply Qabs_Qle_condition. split; lra.
Qed.

(** Away from a tie the two interpreters agree. *)
Lemma round_off_tie (py : PyVersion) (x : Q) :
  ~ (x - inject_Z (Qfloor x) == 1 # 2)%Q ->
  Py.round py x = Py.round_half_away x.
Proof.
  intros Hnt. destruct py; [reflexivity|]. unfold Py.round.
  destruct (half_away_cases x) as [[H E]|[[H E]|[H E]]];
    destruct (half_even_cases x) as [[H' E']|[[H' E']|[H' E']]];
    try contradiction; rewrite E, E'; try reflexivity; lra.
Qed.

(** On a tie Python 2 moves away from zero and Python 3 to the even
    neighbour. *)
Lemma round_on_tie (x : Q) :
  (x - inject_Z (Qfloor x) == 1 # 2)%Q ->
  Py.round Python2 x = (if Qle_bool 0 x then Qfloor x + 1 else Qfloor x)
  /\ Py.round Python3 x
     = (if Z.even (Qfloor x) then Qfloor x else Qfloor x + 1).
Proof.
  intros Ht. unfold Py.round. split.
  - destruct (half_away_cases x) as [[H E]|[[H E]|[H E]]];
      [lra|lra|exact E].
  - destruct (half_even_cases x) as [[H E]|[[H E]|[H E]]];
      [lra|lra|exact E].
Qed.

(** An integer is its own rounding. *)
Lemma round_inject_Z (py : PyVersion) (z : Z) :
  Py.round py (inject_Z z) = z.
Proof.
  pose proof (round_bounds py (inject_Z z)) as [Hlo Hhi].
  assert (A : (inject_Z (Py.round py (inject_Z z)) < inject_Z (z + 1))%Q)
    by (rewrite inject_Z_succ; lra).
  assert (B : (inject_Z z < inject_Z (Py.round py (inject_Z z) + 1))%Q)
    by (rewrite inject_Z_succ; lra).
  rewrite <- Zlt_Qlt in A, B. lia.
Qed.

(** [round] sees the value of a rational, not its fraction. *)
Lemma round_comp (py : PyVersion) (x y : Q) :
  (x == y)%Q -> Py.round py x = Py.round py y.
Proof.
  intros E. destruct py; unfold Py.round.
  - unfold Py.round_half_away.
    assert (B : Qle_bool 0 x = Qle_bool 0 y).
    { destruct (Qle_bool 0 x) eqn:Hx, (Qle_bool 0 y) eqn:Hy;
        try reflexivity.
      - apply Qle_bool_iff in Hx. rewrite E in Hx.
        apply Qle_bool_iff in Hx. congruence.
      - apply Qle_bool_iff in Hy. rewrite <- E in Hy.
        apply Qle_bool_iff in Hy. congruence. }
    rewrite B. destruct (Qle_bool 0 y).
    + apply Qfloor_comp. rewrite E. reflexivity.
    + f_equal. apply Qfloor_comp. rewrite E. reflexivity.
  - unfold Py.round_half_even.
    rewrite (Qfloor_comp x y E).
    assert (C : ((x - inject_Z (Qfloor y)) ?= (1 # 2))%Q
                = ((y - inject_Z (Qfloor y)) ?= (1 # 2))%Q).
    { apply Qcompare_comp; [rewrite E|]; reflexivity. }
    rewrite C. reflexivity.
Qed.

Lemma round_monotone (py : PyVersion) (x y : Q) :
  (x <= y)%Q -> Py.round py x <= Py.round py y.
Proof.
  intros Hxy.
  destruct (Z_le_gt_dec (Py.round py x) (Py.round py y)) as [L|G];
    [exact L|exfalso].
  pose proof (round_bounds py x) as Bx.
  pose proof (round_bounds py y) as By.
  assert (H1 : (inject_Z (Py.round py y) + 1 <= inject_Z (Py.round py x))%Q).
  { rewrite <- inject_Z_succ. rewrite <- Zle_Qle. lia. }
  assert (E : (x == y)%Q) by lra.
  rewrite (round_comp py x y E) in G. lia.
Qed.

(** ** BED *)

Lemma segments2bed_loop_filter (py : PyVersion)
    (zipped : list (Segment * Q)) (label : string) (ploidy : Z)
    (show_neutral : bool) :
  segments2bed_loop py zipped label ploidy show_neutral
  = map (fun pair : Segment * Q =>
           (chromosome (fst pair), start (fst pair), end_ (fst pair), label,
            Py.round py (snd pair)))
        (filter (fun pair : Segment * Q =>
                   show_neutral || negb (Py.round py (snd pair) =? ploidy))
                zipped).
Proof.
  induction zipped as [|[row abs_val] rest IH]; [reflexivity|].
  cbn [segments2bed_loop filter fst snd].
  destruct (show_neutral || negb (Py.round py abs_val =? ploidy));
    cbn [map fst snd]; rewrite IH; reflexivity.
Qed.

(** C8. The BED encoder emits, in order, the row
    [(chromosome, start, end, label, round(v))] of exactly those segments
    for which [show_neutral] holds or [round(v) != ploidy]: the row of a
    segment with resolved value [v] is emitted if and only if [show_neutral]
    is true or [round(v)] differs from the ploidy. *)
Theorem segments2bed_emits_iff :
  forall (py : PyVersion)
         (absolute_pure : list Segment -> Z -> bool -> list Q)
         (segments : list Segment) (label : string) (ploidy : Z)
         (is_reference_male show_neutral : bool),
    let zipped :=
      combine segments (absolute_pure segments ploidy is_reference_male) in
    let out :=
      segments2bed py absolute_pure segments label ploidy is_reference_male
                   show_neutral in
    out = map (fun pair : Segment * Q =>
                 (chromosome (fst pair), start (fst pair), end_ (fst pair),
                  label, Py.round py (snd pair)))
              (filter (fun pair : Segment * Q =>
                         show_neutral
                         || negb (Py.round py (snd pair) =? ploidy))
                      zipped)
    /\ forall row v,
        In (row, v) zipped ->
        (In (chromosome row, start row, end_ row, label, Py.round py v) out
         <-> show_neutral = true \/ Py.round py v <> ploidy).
Proof.
  intros py absolute_pure segments label ploidy male show zipped out.
  assert (Hout : out = map (fun pair : Segment * Q =>
                 (chromosome (fst pair), start (fst pair), end_ (fst pair),
                  label, Py.round py (snd pair)))
              (filter (fun pair : Segment * Q =>
                         show || negb (Py.round py (snd pair) =? ploidy))
                      zipped))
    by apply segments2bed_loop_filter.
  split; [exact Hout|].
  intros row v Hin. rewrite Hout, in_map_iff. split.
  - intros [[row' v'] [Heq Hf]]. apply filter_In in Hf as [_ Hc].
    cbn [fst snd] in *. injection Heq as _ _ _ Hn. rewrite Hn in Hc.
    apply orb_true_iff in Hc as [Hs|Hne]; [left; exact Hs|right].
    apply negb_true_iff, Z.eqb_neq in Hne. exact Hne.
  - intros Hc. exists (row, v). split; [reflexivity|].
    apply filter_In. split; [exact Hin|]. cbn [snd].
    apply orb_true_iff. destruct Hc as [Hs|Hne]; [left; exact Hs|right].
    apply negb_true_iff, Z.eqb_neq. exact Hne.
Qed.

Lemma segments2bed_emits_iff_witness :
  In (seg_chr1, 1%Q)
     (combine [seg_chr1] (const_resolver [1%Q] [seg_chr1] 2 false))
  /\ (In ("chr1", 0, 100, "tumor", 1)
         (segments2bed Python3 (const_resolver [1%Q]) [seg_chr1]
                       "tumor" 2 false false)
      <-> false = true \/ Py.round Python3 1 <> 2).
Proof.
  split.
  - simpl. left. reflexivity.
  - apply (proj2 (segments2bed_emits_iff Python3 (const_resolver [1%Q])
                    [seg_chr1]
                    "tumor" 2 false false) seg_chr1 1%Q).
    simpl. left. reflexivity.
Defined.

(** ** VCF *)

Lemma py_max_Zmax (a b : Z) : Py.max a b = Z.max a b.
Proof.
  unfold Py.max. destruct (Z.gtb_spec b a); lia.
Qed.

Lemma segments2vcf_loop_flat_map (py : PyVersion)
    (zipped : list (Segment * Q)) (ploidy : Z) :
  segments2vcf_loop py zipped ploidy = flat_map (vcf_emitted py ploidy) zipped.
Proof.
  induction zipped as [|[row abs_val] rest IH]; [reflexivity|].
  cbn [segments2vcf_loop flat_map]. unfold vcf_emitted at 1. cbn [fst snd].
  destruct (vcf_record py row abs_val ploidy); rewrite IH; reflexivity.
Qed.

Lemma vcf_record_neutral (py : PyVersion) (row : Segment) (v : Q) (p : Z) :
  Py.round py v = p -> vcf_record py row v p = None.
Proof.
  intros E. unfold vcf_record. rewrite E, Z.eqb_refl. reflexivity.
Qed.

Lemma vcf_record_dup (py : PyVersion) (row : Segment) (v : Q) (p : Z) :
  Py.round py v > p ->
  vcf_record py row v p
  = Some (chromosome row, Py.max 1 (start row), "DUP",
          "IMPRECISE;SVTYPE=DUP;END=" ++ Py.fmt_d (end_ row)
          ++ ";SVLEN=" ++ Py.fmt_d (end_ row - start row),
          "GT:GQ:CN:CNQ",
          "0/1:0:" ++ Py.fmt_d (Py.round py v) ++ ":" ++ Py.fmt_g (probes row)).
Proof.
  intros H. unfold vcf_record.
  destruct (Z.eqb_spec (Py.round py v) p) as [E|_]; [lia|].
  destruct (Z.gtb_spec (Py.round py v) p) as [_|N]; [|lia].
  reflexivity.
Qed.

Lemma vcf_record_del (py : PyVersion) (row : Segment) (v : Q) (p : Z) :
  Py.round py v < p ->
  vcf_record py row v p
  = Some (chromosome row, Py.max 1 (start row), "DEL",
          "IMPRECISE;SVTYPE=DEL;END=" ++ Py.fmt_d (end_ row)
          ++ ";SVLEN=" ++ Py.fmt_d (- (end_ row - start row)),
          "GT:GQ",
          (if Py.round py v =? 0 then "1/1" else "0/1")
          ++ ":" ++ Py.fmt_d (probes row)).
Proof.
  intros H. unfold vcf_record.
  destruct (Z.eqb_spec (Py.round py v) p) as [E|_]; [lia|].
  destruct (Z.gtb_spec (Py.round py v) p) as [G|_]; [lia|].
  replace ((end_ row - start row) * -1) with (- (end_ row - start row)) by lia.
  reflexivity.
Qed.

(** C1. With [n = round(v)] for a segment of resolved value [v] and a ploidy
    [p], the VCF encoder emits nothing when [n = p]; when [n > p] it emits
    exactly one record, a DUP with [SVLEN = end - start], FORMAT
    [GT:GQ:CN:CNQ] and genotype [0/1:0:{ncopies}:{probes}]; when [n < p] it
    emits exactly one record, a DEL with [SVLEN = -(end - start)], FORMAT
    [GT:GQ] and genotype [1/1:{probes}] if [n = 0], [0/1:{probes}]
    otherwise.  The output of [segments2vcf] is the concatenation of these
    contributions in segment order. *)
Theorem segments2vcf_classification :
  forall (py : PyVersion) (row : Segment) (v : Q) (p : Z),
    let n := Py.round py v in
    let len := end_ row - start row in
    (n = p -> vcf_emitted py p (row, v) = [])
    /\ (n > p ->
        vcf_emitted py p (row, v)
        = [(chromosome row, Py.max 1 (start row), "DUP",
            "IMPRECISE;SVTYPE=DUP;END=" ++ Py.fmt_d (end_ row)
            ++ ";SVLEN=" ++ Py.fmt_d len,
            "GT:GQ:CN:CNQ",
            "0/1:0:" ++ Py.fmt_d n ++ ":" ++ Py.fmt_g (probes row))])
    /\ (n < p ->
        vcf_emitted py p (row, v)
        = [(chromosome row, Py.max 1 (start row), "DEL",
            "IMPRECISE;SVTYPE=DEL;END=" ++ Py.fmt_d (end_ row)
            ++ ";SVLEN=" ++ Py.fmt_d (- len),
            "GT:GQ",
            (if n =? 0 then "1/1" else "0/1")
            ++ ":" ++ Py.fmt_d (probes row))])
    /\ forall absolute_pure segments male,
        segments2vcf py absolute_pure segments p male
        = flat_map (vcf_emitted py p)
                   (combine segments (absolute_pure segments p male)).
Proof.
  intros py row v p n len. unfold vcf_emitted. cbn [fst snd].
  repeat split.
  - intros E. rewrite (vcf_record_neutral py row v p E). reflexivity.
  - intros G. rewrite (vcf_record_dup py row v p G). reflexivity.
  - intros L. rewrite (vcf_record_del py row v p L). reflexivity.
  - intros. apply segments2vcf_loop_flat_map.
Qed.

Lemma segments2vcf_classification_witness :
  vcf_emitted Python3 2 (seg_chr1, 1%Q)
  = [("chr1", 1, "DEL", "IMPRECISE;SVTYPE=DEL;END=100;SVLEN=-100", "GT:GQ",
      "0/1:5")].
Proof.
  apply (proj1 (proj2 (proj2
           (segments2vcf_classification Python3 seg_chr1 1%Q 2)))).
  vm_compute. reflexivity.
Defined.

(** C6. Every record the VCF encoder emits for a segment has
    [POS = max(1, start)], which is at least 1 whatever the sign of [start];
    [export_vcf] carries that position unchanged into the POS column. *)
Theorem vcf_pos_floored_at_one :
  forall (py : PyVersion)
         (absolute_pure : list Segment -> Z -> bool -> list Q)
         (segments : CopyNumArray) (ploidy : Z) (is_reference_male : bool),
    (forall row v rec,
        vcf_record py row v ploidy = Some rec ->
        record_pos rec = Z.max 1 (start row) /\ 1 <= record_pos rec)
    /\ map row_pos (export_vcf_rows py absolute_pure segments ploidy
                                    is_reference_male)
       = map record_pos (segments2vcf py absolute_pure (data segments) ploidy
                                      is_reference_male)
    /\ forall r,
        In r (export_vcf_rows py absolute_pure segments ploidy
                              is_reference_male) ->
        1 <= row_pos r
        /\ exists row v,
            In (row, v) (combine (data segments)
                           (absolute_pure (data segments) ploidy
                                          is_reference_male))
            /\ Py.round py v <> ploidy
            /\ row_pos r = Z.max 1 (start row).
Proof.
  intros py absolute_pure segments ploidy male.
  assert (Hrec : forall row v rec,
             vcf_record py row v ploidy = Some rec ->
             record_pos rec = Z.max 1 (start row) /\ 1 <= record_pos rec).
  { intros row v rec H.
    destruct (Z.lt_trichotomy (Py.round py v) ploidy) as [L|[E|G]].
    - rewrite (vcf_record_del py row v ploidy L) in H. injection H as <-.
      cbn [record_pos]. rewrite py_max_Zmax. lia.
    - rewrite (vcf_record_neutral py row v ploidy E) in H. discriminate.
    - rewrite (vcf_record_dup py row v ploidy) in H by lia. injection H as <-.
      cbn [record_pos]. rewrite py_max_Zmax. lia. }
  assert (Hmap : map row_pos
                     (export_vcf_rows py absolute_pure segments ploidy male)
                 = map record_pos (segments2vcf py absolute_pure (data segments)
                                                ploidy male)).
  { unfold export_vcf_rows. rewrite map_map. apply map_ext.
    intros [[[[[c q] a] i] f] g]. reflexivity. }
  split; [exact Hrec|]. split; [exact Hmap|].
  intros r Hin.
  apply (in_map row_pos) in Hin. rewrite Hmap in Hin.
  apply in_map_iff in Hin as [rec [Hpos Hin]].
  unfold segments2vcf in Hin. rewrite segments2vcf_loop_flat_map in Hin.
  apply in_flat_map in Hin as [[row v] [Hz Hem]].
  unfold vcf_emitted in Hem. cbn [fst snd] in Hem.
  destruct (vcf_record py row v ploidy) as [rec'|] eqn:Hr; [|contradiction].
  destruct Hem as [->|[]].
  destruct (Hrec row v rec Hr) as [Hp H1]. rewrite <- Hpos.
  split; [exact H1|]. exists row, v. repeat split; [exact Hz| |exact Hp].
  intros E. rewrite (vcf_record_neutral py row v ploidy E) in Hr. discriminate.
Qed.

Lemma vcf_pos_floored_at_one_witness :
  row_pos ("chr1", 1, ".", "N", "<DEL>", ".", ".",
           "IMPRECISE;SVTYPE=DEL;END=100;SVLEN=-100", "GT:GQ", "0/1:5") >= 1.
Proof.
  apply Z.le_ge.
  apply (proj2 (proj2 (vcf_pos_floored_at_one Python3 (const_resolver [1%Q])
                         (mkCNA "tumor" true [seg_chr1]) 2 false))).
  vm_compute. left. reflexivity.
Defined.

(** ** The rounding rule of [ncopies] *)

Lemma vcf_record_none_iff (py : PyVersion) (row : Segment) (v : Q) (p : Z) :
  vcf_record py row v p = None <-> Py.round py v = p.
Proof.
  split; [|apply vcf_record_neutral].
  intros H. destruct (Z.lt_trichotomy (Py.round py v) p) as [L|[E|G]];
    [|exact E|].
  - rewrite (vcf_record_del py row v p L) in H. discriminate.
  - rewrite (vcf_record_dup py row v p) in H by lia. discriminate.
Qed.

(** C2, as stated, fails under Python 3: at the tie [v = 2.5] the
    half-away-from-zero rule gives 3, while the BED encoder writes
    [ncopies = 2] and the VCF encoder, at ploidy 2, takes the segment for
    neutral and emits nothing. *)
Lemma ncopies_half_away_counterexample :
  Py.round_half_away (5 # 2) = 3
  /\ segments2bed Python3 (const_resolver [5 # 2]) [seg_chr1] "tumor" 2
                  false true
     = [("chr1", 0, 100, "tumor", 2)]
  /\ segments2vcf Python3 (const_resolver [5 # 2]) [seg_chr1] 2 false = []
  /\ Py.round Python3 (5 # 2) <> Py.round_half_away (5 # 2).
Proof.
  repeat split; try reflexivity. vm_compute. discriminate.
Qed.

(** C2, amended. Both encoders compute [ncopies = int(round(v))] with the
    built-in [round] of the interpreter: the BED row carries it, and the VCF
    encoder skips the segment exactly when it equals the ploidy.  It is an
    integer nearest to [v]; for a [v] that is not halfway between two
    integers it is the result of rounding half away from zero under either
    interpreter; on a tie Python 2 rounds away from zero and Python 3 to the
    even neighbour.  [v = 2.5] yields 3 under Python 2 and 2 under
    Python 3; [v = 1.5] yields 2 under both. *)
Theorem ncopies_rounds_as_interpreter :
  forall (py : PyVersion) (v : Q),
    (forall row label p,
        map bed_ncopies (segments2bed_loop py [(row, v)] label p true)
        = [Py.round py v])
    /\ (forall row p, vcf_record py row v p = None <-> Py.round py v = p)
    /\ (Qabs (v - inject_Z (Py.round py v)) <= 1 # 2)%Q
    /\ (~ (v - inject_Z (Qfloor v) == 1 # 2)%Q ->
        Py.round py v = Py.round_half_away v)
    /\ ((v - inject_Z (Qfloor v) == 1 # 2)%Q ->
        Py.round Python2 v = Py.round_half_away v
        /\ Py.round Python2 v
           = (if Qle_bool 0 v then Qfloor v + 1 else Qfloor v)
        /\ Py.round Python3 v
           = (if Z.even (Qfloor v) then Qfloor v else Qfloor v + 1))
    /\ Py.round Python2 (5 # 2) = 3
    /\ Py.round Python3 (5 # 2) = 2
    /\ Py.round py (3 # 2) = 2.
Proof.
  intros py v.
  split; [reflexivity|]. split; [intros; apply vcf_record_none_iff|].
  split; [apply round_nearest|]. split; [apply round_off_tie|].
  split.
  - intros Ht. destruct (round_on_tie v Ht) as [H2 H3].
    split; [reflexivity|]. split; assumption.
  - repeat split. destruct py; reflexivity.
Qed.

Lemma ncopies_rounds_as_interpreter_witness :
  Py.round Python3 (12 # 5) = Py.round_half_away (12 # 5)
  /\ Py.round Python3 (7 # 2) = 4.
Proof.
  split.
  - apply (proj1 (proj2 (proj2 (proj2
             (ncopies_rounds_as_interpreter Python3 (12 # 5)))))).
    vm_compute. discriminate.
  - apply (proj1 (proj2 (proj2 (proj2 (proj2
             (ncopies_rounds_as_interpreter Python3 (7 # 2))))))).
    vm_compute. reflexivity.
Defined.
(** ** Merging rows *)

Section MergeFacts.

Variable F : Type.
Variable int_of_str : string -> option Z.
Variable float_of_str : string -> option F.

Lemma row_to_probe_coverage_ok (row : RawRow) (p : ProbeInfo) (c : F) :
  row_to_probe_coverage F int_of_str float_of_str row = Ok (p, c) ->
  label p = derived_label row /\ float_of_str (coverage_field row) = Some c.
Proof.
  unfold row_to_probe_coverage, derived_label, coverage_field.
  destruct row as [|f1 [|f2 [|f3 [|f4 [|f5 rest]]]]];
    cbn [firstn nth]; try discriminate.
  unfold int, float.
  destruct (int_of_str f2); cbn [bind]; [|discriminate].
  destruct (int_of_str f3); cbn [bind]; [|discriminate].
  destruct (float_of_str f5); cbn [bind]; [|discriminate].
  intros H. injection H as <- <-. split; reflexivity.
Qed.

Lemma mapM_parse_ok (rows : list RawRow) :
  (forall r, In r rows ->
             exists pc,
               row_to_probe_coverage F int_of_str float_of_str r = Ok pc) ->
  exists pairs,
    mapM (row_to_probe_coverage F int_of_str float_of_str) rows = Ok pairs
    /\ Forall2 (fun r pc =>
        row_to_probe_coverage F int_of_str float_of_str r = Ok pc)
               rows pairs.
Proof.
  induction rows as [|r rows IH]; intros Hall.
  - exists []. split; [reflexivity|constructor].
  - destruct (Hall r (or_introl eq_refl)) as [pc Hpc].
    destruct IH as [pairs [Hm Hf]].
    { intros r' Hr'. apply Hall. right. exact Hr'. }
    exists (pc :: pairs). split.
    + cbn [mapM]. rewrite Hpc. cbn [bind]. rewrite Hm. reflexivity.
    + constructor; assumption.
Qed.

Lemma split_maps {A B} (l : list (A * B)) :
  List.split l = (map fst l, map snd l).
Proof.
  induction l as [|[a b] l IH]; [reflexivity|].
  cbn [List.split map fst snd]. rewrite IH. reflexivity.
Qed.

Lemma parsed_labels (rows : list RawRow) (pairs : list (ProbeInfo * F)) :
  Forall2 (fun r pc =>
      row_to_probe_coverage F int_of_str float_of_str r = Ok pc)
          rows pairs ->
  map label (map fst pairs) = map derived_label rows
  /\ map (fun r => float_of_str (coverage_field r)) rows
     = map Some (map snd pairs).
Proof.
  induction 1 as [|r [p c] rows pairs Hr _ [IHl IHc]];
    [split; reflexivity|].
  destruct (row_to_probe_coverage_ok r p c Hr) as [Hl Hc].
  cbn [map fst snd]. rewrite IHl, IHc, Hl, Hc. split; reflexivity.
Qed.

Lemma check_unique_cases (it : ProbeInfo) (others : list ProbeInfo)
    (title : string) :
  (check_unique (it :: others) title = Ok it
   /\ forall o, In o others -> label o = label it)
  \/ (check_unique (it :: others) title = Raise (ValidationError title)
      /\ exists o, In o others /\ label o <> label it).
Proof.
  cbn [check_unique].
  destruct (forallb (fun o => (label o =? label it)%string) others) eqn:E.
  - left. split; [reflexivity|]. intros o Ho.
    rewrite forallb_forall in E. apply String.eqb_eq, E, Ho.
  - right. split; [reflexivity|].
    induction others as [|o others IH]; [discriminate|].
    cbn [forallb] in E. apply andb_false_iff in E as [E|E].
    + exists o. split; [left; reflexivity|].
      apply String.eqb_neq. exact E.
    + destruct (IH E) as [o' [Ho' Hne]]. exists o'.
      split; [right; exact Ho'|exact Hne].
Qed.

(** C4. For a tuple of rows of the aligned streams (at least one stream,
    every row well-formed), [merge_rows] raises the validation error that
    names "probe Name" if and only if two rows have different derived
    labels [{chrom}:{start}-{end}:{gene}]; when all the labels are equal
    it returns the probe of the first row, which carries the shared label,
    followed by the coverage of each row in the order of the streams. *)
Theorem merge_rows_label_check :
  forall rows : list RawRow,
    rows <> [] ->
    (forall r, In r rows ->
             exists pc,
               row_to_probe_coverage F int_of_str float_of_str r = Ok pc) ->
    (merge_rows F int_of_str float_of_str rows
     = Raise (ValidationError "probe Name")
     <-> exists r1 r2,
           In r1 rows /\ In r2 rows /\ derived_label r1 <> derived_label r2)
    /\ ((forall r1 r2,
            In r1 rows -> In r2 rows -> derived_label r1 = derived_label r2) ->
        exists probe coverages,
          merge_rows F int_of_str float_of_str rows = Ok (probe, coverages)
          /\ (exists c,
                 row_to_probe_coverage F int_of_str float_of_str (hd [] rows)
                 = Ok (probe, c))
          /\ (forall r, In r rows -> label probe = derived_label r)
          /\ map (fun r => float_of_str (coverage_field r)) rows
             = map Some coverages).
Proof.
  intros rows Hne Hall.
  destruct (mapM_parse_ok rows Hall) as [pairs [Hm Hf]].
  destruct (parsed_labels rows pairs Hf) as [Hlab Hcov].
  destruct Hf as [|r0 [p0 c0] rows' pairs' Hr0 Hf']; [congruence|].
  assert (Hmerge : merge_rows F int_of_str float_of_str (r0 :: rows')
                   = (probe_info <- check_unique (p0 :: map fst pairs')
                                                 "probe Name" ;;
                      Ok (probe_info, c0 :: map snd pairs'))).
  { unfold merge_rows. rewrite Hm. cbn [bind].
    rewrite split_maps. reflexivity. }
  cbn [map fst snd] in Hlab, Hcov. injection Hlab as Hl0 Hlab.
  assert (Hin : forall r, In r rows' ->
                exists o, In o (map fst pairs') /\ label o = derived_label r).
  { intros r Hr. apply (in_map derived_label) in Hr. rewrite <- Hlab in Hr.
    apply in_map_iff in Hr as [o [Ho Hi]]. exists o. split; assumption. }
  assert (Hback : forall o, In o (map fst pairs') ->
                  exists r, In r rows' /\ label o = derived_label r).
  { intros o Ho. apply (in_map label) in Ho. rewrite Hlab in Ho.
    apply in_map_iff in Ho as [r [Hr Hi]]. exists r.
    split; [exact Hi|symmetry; exact Hr]. }
  destruct (check_unique_cases p0 (map fst pairs') "probe Name")
    as [[Hcu Hsame]|[Hcu [o [Ho Hdiff]]]].
  - (* all labels equal *)
    assert (Hrows : forall r, In r (r0 :: rows') ->
                    label p0 = derived_label r).
    { intros r [<-|Hr]; [exact Hl0|].
      destruct (Hin r Hr) as [o [Ho Hlo]]. rewrite <- Hlo.
      symmetry. apply Hsame, Ho. }
    split.
    + split.
      * rewrite Hmerge, Hcu. cbn [bind]. discriminate.
      * intros [r1 [r2 [H1 [H2 Hd]]]]. exfalso. apply Hd.
        rewrite <- (Hrows r1 H1), <- (Hrows r2 H2). reflexivity.
    + intros _. exists p0, (c0 :: map snd pairs').
      rewrite Hmerge, Hcu. cbn [bind hd].
      repeat split; [exists c0; exact Hr0|exact Hrows|exact Hcov].
  - (* some label differs from the first *)
    destruct (Hback o Ho) as [r [Hr Hlo]].
    assert (Hex : exists r1 r2, In r1 (r0 :: rows') /\ In r2 (r0 :: rows')
                                /\ derived_label r1 <> derived_label r2).
    { exists r, r0. repeat split; [right; exact Hr|left; reflexivity|].
      rewrite <- Hlo, <- Hl0. exact Hdiff. }
    split.
    + split; [intros _; exact Hex|].
      intros _. rewrite Hmerge, Hcu. reflexivity.
    + intros Hsame. exfalso. destruct Hex as [r1 [r2 [H1 [H2 Hd]]]].
      apply Hd, Hsame; assumption.
Qed.

End MergeFacts.

Lemma merge_rows_label_check_witness :
  exists probe coverages,
    merge_rows Q PyInt.int_of_str float_of_int_literal
               [["chr1"; "100"; "200"; "TP53"; "1"];
                ["chr1"; "100"; "200"; "TP53"; "3"]]
    = Ok (probe, coverages)
    /\ (exists c,
           row_to_probe_coverage Q PyInt.int_of_str float_of_int_literal
             (hd [] [["chr1"; "100"; "200"; "TP53"; "1"];
                     ["chr1"; "100"; "200"; "TP53"; "3"]])
           = Ok (probe, c))
    /\ (forall r,
           In r [["chr1"; "100"; "200"; "TP53"; "1"];
                 ["chr1"; "100"; "200"; "TP53"; "3"]] ->
           label probe = derived_label r)
    /\ map (fun r => float_of_int_literal (coverage_field r))
           [["chr1"; "100"; "200"; "TP53"; "1"];
            ["chr1"; "100"; "200"; "TP53"; "3"]]
       = map Some coverages.
Proof.
  apply (proj2 (merge_rows_label_check Q PyInt.int_of_str float_of_int_literal
                  [["chr1"; "100"; "200"; "TP53"; "1"];
                   ["chr1"; "100"; "200"; "TP53"; "3"]]
                  ltac:(discriminate)
                  ltac:(intros r [<-|[<-|[]]]; eexists; vm_compute;
                        reflexivity))).
  intros r1 r2 [<-|[<-|[]]] [<-|[<-|[]]]; reflexivity.
Defined.

(** ** The handles of [merge_samples] *)

Section GeneratorFacts.

Variable F : Type.
Variable int_of_str : string -> option Z.
Variable float_of_str : string -> option F.
Variable fs : FileSystem.

Lemma close_all_self (handles : list Handle) : close_all handles handles = [].
Proof.
  unfold close_all.
  assert (G : forall l, incl l handles ->
              filter (fun h => negb (existsb (Nat.eqb h) handles)) l = []).
  { induction l as [|h l IH]; intros Hi; [reflexivity|].
    cbn [filter].
    assert (E : existsb (Nat.eqb h) handles = true).
    { apply existsb_exists. exists h.
      split; [apply Hi; left; reflexivity|apply Nat.eqb_refl]. }
    rewrite E. cbn [negb]. apply IH.
    intros x Hx. apply Hi. right. exact Hx. }
  apply G, incl_refl.
Qed.

Lemma open_all_appends (filenames : list string) :
  forall next handles datastreams live0 handles' datastreams' live',
    open_all fs filenames next handles datastreams live0
    = (Ok (handles', datastreams'), live') ->
    exists added,
      handles' = (handles ++ added)%list /\ live' = (live0 ++ added)%list.
Proof.
  induction filenames as [|fname rest IH];
    intros next handles datastreams live0 handles' datastreams' live' H.
  - cbn [open_all] in H. injection H as <- _ <-.
    exists []. rewrite !app_nil_r. split; reflexivity.
  - cbn [open_all] in H. destruct (fs fname) as [data|]; [|discriminate].
    apply IH in H as [added [-> ->]].
    exists (next :: added). rewrite <- !app_assoc. split; reflexivity.
Qed.

Lemma resume_tracked (handles : list Handle)
    (datastreams : list (list RawRow)) (out : Outcome F) (m' : Machine) :
  resume F int_of_str float_of_str handles datastreams handles = (out, m') ->
  match out with
  | Yielded _ _ => handles_tracked m'
  | StopIteration _ => live m' = []
  | Raised _ _ => live m' = handles
  end.
Proof.
  unfold resume. destruct (zip_next datastreams) as [[rows rest]|].
  - destruct (merge_rows F int_of_str float_of_str rows); intros H;
      injection H as <- <-; reflexivity.
  - intros H. injection H as <- <-. apply close_all_self.
Qed.

Lemma gen_next_tracked (m : Machine) (out : Outcome F) (m' : Machine) :
  handles_tracked m ->
  gen_next F int_of_str float_of_str fs m = (out, m') ->
  match out with
  | Yielded _ _ => handles_tracked m'
  | StopIteration _ => live m' = []
  | Raised _ _ => True
  end.
Proof.
  unfold handles_tracked, gen_next. destruct m as [g lv]. cbn [gen live].
  destruct g as [filenames|handles datastreams|]; intros Ht H.
  - subst lv.
    destruct (open_all fs filenames 0%nat [] [] [])
      as [[[handles datastreams]|e] live'] eqn:Ho.
    + apply open_all_appends in Ho as [added [-> ->]]. cbn [app] in H.
      apply resume_tracked in H. destruct out; auto.
    + injection H as <- _. exact I.
  - subst lv. apply resume_tracked in H. destruct out; auto.
  - injection H as <- <-. exact Ht.
Qed.

(** A consumer that runs the generator to its end leaves no handle
    open. *)
Lemma drain_to_end_closes (fuel : nat) :
  forall (m : Machine) rows m',
    handles_tracked m ->
    drain F int_of_str float_of_str fs fuel m
    = (rows, Some (StopIteration F), m') ->
    live m' = [].
Proof.
  induction fuel as [|fuel IH]; intros m rows m' Ht H;
    cbn [drain] in H; [discriminate|].
  destruct (gen_next F int_of_str float_of_str fs m) as [out m1] eqn:Hn.
  pose proof (gen_next_tracked m out m1 Ht Hn) as Hout.
  destruct out as [row| |e].
  - destruct (drain F int_of_str float_of_str fs fuel m1)
      as [[rows1 last1] m2] eqn:Hd.
    injection H as _ -> ->. apply (IH m1 rows1 m' Hout Hd).
  - injection H as _ <-. exact Hout.
  - discriminate.
Qed.

End GeneratorFacts.

(** C7 fails on the code. The handles are closed by a loop after the last
    [yield] and nowhere else: on exhaustion no handle stays open, but after
    an identity mismatch (second rows of [a.cnr] and [b.cnr]), after the
    consumer closes the generator at its first [yield], and after a failed
    [open] of a later file, the handles opened so far are still open. *)
Theorem merge_samples_leaves_handles_open :
  let run fuel names :=
    drain Q PyInt.int_of_str float_of_int_literal two_files fuel
          (merge_samples names) in
  (* exhaustion *)
  (snd (fst (run 5%nat ["a.cnr"; "a.cnr"])) = Some (StopIteration Q)
   /\ live (snd (run 5%nat ["a.cnr"; "a.cnr"])) = [])
  (* identity mismatch *)
  /\ (snd (fst (run 5%nat ["a.cnr"; "b.cnr"]))
      = Some (Raised Q (ValidationError "probe Name"))
      /\ live (snd (run 5%nat ["a.cnr"; "b.cnr"])) = [0%nat; 1%nat])
  (* the consumer stops after one row *)
  /\ (List.length (fst (fst (run 1%nat ["a.cnr"; "a.cnr"]))) = 1%nat
      /\ live (gen_close (snd (run 1%nat ["a.cnr"; "a.cnr"])))
         = [0%nat; 1%nat])
  (* the second file cannot be opened *)
  /\ (snd (fst (run 5%nat ["a.cnr"; "missing.cnr"]))
      = Some (Raised Q (IOError "missing.cnr"))
      /\ live (snd (run 5%nat ["a.cnr"; "missing.cnr"])) = [0%nat]).
Proof.
  vm_compute. repeat split; reflexivity.
Qed.

(** ** The format table *)

(** C9 fails on the code.  Selecting [gct] or [nexus-multi1] gives no
    result that says the format is declared but not implemented: the two
    entries of [EXPORT_FORMATS] are commented out, so the lookup raises the
    [KeyError] of a missing key, the very error of a name the module never
    declared ([bed]); and the two stubs, called directly, raise nothing:
    they return the value [NotImplemented]. *)
Lemma unsupported_format_counterexample :
  ~ explicit_unsupported "gct"
  /\ ~ explicit_unsupported "nexus-multi1"
  /\ dict_getitem EXPORT_FORMATS "gct" = Raise (KeyError "gct")
  /\ dict_getitem EXPORT_FORMATS "nexus-multi1"
     = Raise (KeyError "nexus-multi1")
  /\ dict_getitem EXPORT_FORMATS "bed" = Raise (KeyError "bed")
  /\ fmt_gct Q [] [] = NotImplemented
  /\ fmt_multi Q [] [] = NotImplemented.
Proof.
  split; [|split]; [| |repeat split];
    intros [e [H Hne]]; vm_compute in H; injection H as <-;
    apply Hne; reflexivity.
Qed.

Lemma dict_get_some_key {V} (d : list (string * V)) (key : string) (v : V) :
  dict_get d key = Some v -> In key (keys d).
Proof.
  induction d as [|[k w] d IH]; [discriminate|].
  cbn [dict_get keys map fst]. destruct (String.eqb_spec k key) as [->|N].
  - intros _. left. reflexivity.
  - intros H. right. apply IH, H.
Qed.

(** C9, amended.  A format that is declared but not implemented cannot be
    selected: [gct] and [nexus-multi1] are not keys of [EXPORT_FORMATS], so
    the lookup of either raises [KeyError], as the lookup of any name that
    is not a key does, before any encoder runs; no key of the table selects
    [fmt_gct] or [fmt_multi]; and the two stubs answer [NotImplemented] for
    every input, never a header and rows. *)
Theorem unimplemented_formats_not_selectable :
  (forall name,
      In name ["gct"; "nexus-multi1"] ->
      dict_getitem EXPORT_FORMATS name = Raise (KeyError name))
  /\ (forall name,
         ~ In name (keys EXPORT_FORMATS) ->
         dict_getitem EXPORT_FORMATS name = Raise (KeyError name))
  /\ (forall name,
         In name (keys EXPORT_FORMATS) ->
         exists f,
           dict_getitem EXPORT_FORMATS name = Ok f
           /\ f <> Fmt_gct /\ f <> Fmt_multi)
  /\ forall (F : Type) sample_ids rows,
      fmt_gct F sample_ids rows = NotImplemented
      /\ fmt_multi F sample_ids rows = NotImplemented
      /\ (forall h r, fmt_gct F sample_ids rows <> Table h r)
      /\ (forall h r, fmt_multi F sample_ids rows <> Table h r).
Proof.
  split; [|split; [|split]].
  - intros name [<-|[<-|[]]]; reflexivity.
  - intros name Hnot. unfold dict_getitem.
    destruct (dict_get EXPORT_FORMATS name) as [f|] eqn:E; [|reflexivity].
    exfalso. apply Hnot. apply (dict_get_some_key _ _ _ E).
  - intros name Hin. cbn in Hin.
    destruct Hin as [<-|[<-|[<-|[<-|[<-|[<-|[]]]]]]];
      eexists; (split; [reflexivity|split; discriminate]).
  - intros F sample_ids rows. repeat split; discriminate.
Qed.

Lemma unimplemented_formats_not_selectable_witness :
  dict_getitem EXPORT_FORMATS "gct" = Raise (KeyError "gct")
  /\ exists f,
      dict_getitem EXPORT_FORMATS "seg" = Ok f
      /\ f <> Fmt_gct /\ f <> Fmt_multi.
Proof.
  split.
  - apply (proj1 unimplemented_formats_not_selectable "gct").
    left. reflexivity.
  - apply (proj1 (proj2 (proj2 unimplemented_formats_not_selectable)) "seg").
    simpl. right. right. right. left. reflexivity.
Defined.

(** ** SEG *)

Lemma dict_contains_keys {V} (d : list (string * V)) (key : string) :
  dict_contains d key = true <-> In key (keys d).
Proof.
  unfold dict_contains, keys. rewrite existsb_exists, in_map_iff.
  split; intros [kv [H1 H2]]; exists kv.
  - apply String.eqb_eq in H2. split; [exact H2|exact H1].
  - split; [exact H2|]. apply String.eqb_eq. exact H1.
Qed.

Lemma keys_app {V} (d1 d2 : list (string * V)) :
  keys (d1 ++ d2) = (keys d1 ++ keys d2)%list.
Proof. apply map_app. Qed.

Lemma create_chrom_ids_loop_keys (names : list string) :
  forall (mapping : ChromIds) (curr_idx : Z) (c : string),
    In c (keys (create_chrom_ids_loop names mapping curr_idx))
    <-> In c (keys mapping) \/ In c names.
Proof.
  induction names as [|name rest IH]; intros mapping curr_idx c.
  - cbn [create_chrom_ids_loop In]. tauto.
  - cbn [create_chrom_ids_loop].
    destruct (dict_contains mapping name) eqn:Hc; cbn [negb]; rewrite IH.
    + apply dict_contains_keys in Hc. cbn [In]. split; [tauto|].
      intros [H|[<-|H]]; tauto.
    + rewrite keys_app, in_app_iff. cbn [keys map fst In]. tauto.
Qed.

(** The ids of an array are keyed by exactly its chromosome names. *)
Lemma create_chrom_ids_keys (segments : CopyNumArray) :
  same_set (keys (create_chrom_ids segments)) (chroms segments).
Proof.
  intros c. unfold create_chrom_ids.
  rewrite create_chrom_ids_loop_keys. cbn [keys map In]. tauto.
Qed.

Lemma keys_subset_incl (a b : list string) :
  keys_subset a b = true <-> incl a b.
Proof.
  unfold keys_subset. rewrite forallb_forall. split; intros H x Hx.
  - specialize (H x Hx). apply existsb_exists in H as [y [Hy E]].
    apply String.eqb_eq in E. subst y. exact Hy.
  - apply existsb_exists. exists x.
    split; [apply H, Hx|apply String.eqb_refl].
Qed.

(** The re-validation passes exactly when the two collections hold the
    same names. *)
Lemma assert_equal_same_set (msg : string) (a b : list string) :
  (assert_equal msg a b = Ok tt <-> same_set a b)
  /\ (assert_equal msg a b = Raise (ValidationError msg) <-> ~ same_set a b).
Proof.
  unfold assert_equal.
  destruct (keys_subset a b && keys_subset b a) eqn:E.
  - apply andb_true_iff in E as [Hab Hba].
    apply keys_subset_incl in Hab, Hba.
    assert (Hs : same_set a b) by (intros c; split; [apply Hab|apply Hba]).
    split; split; intros H; try reflexivity; try exact Hs;
      [discriminate|contradiction].
  - assert (Hn : ~ same_set a b).
    { intros Hs. apply andb_false_iff in E as [E|E];
        apply Bool.not_true_iff_false in E; apply E, keys_subset_incl;
        intros x Hx; apply Hs, Hx. }
    split; split; intros H; try reflexivity; try exact Hn;
      [discriminate|contradiction].
Qed.

Lemma dict_get_in_keys {V} (d : list (string * V)) (key : string) :
  In key (keys d) -> exists v, dict_get d key = Some v.
Proof.
  induction d as [|[k v] d IH]; intros Hin; [destruct Hin|].
  cbn [dict_get]. destruct (String.eqb_spec k key) as [E|N].
  - exists v. reflexivity.
  - apply IH. destruct Hin as [E|Hin]; [contradiction|exact Hin].
Qed.

Lemma row2out_all (segments : CopyNumArray) (ids : ChromIds)
    (rows : list Segment) :
  (forall row, In row rows -> In (chromosome row) (keys ids)) ->
  exists out,
    mapM (row2out segments ids) rows = Ok out
    /\ Forall2 (seg_row_of ids segments) rows out.
Proof.
  induction rows as [|row rows IH]; intros Hin.
  - exists []. split; [reflexivity|constructor].
  - destruct IH as [out [Hm Hf]].
    { intros r Hr. apply Hin. right. exact Hr. }
    destruct (dict_get_in_keys ids (chromosome row)) as [cid Hg].
    { apply Hin. left. reflexivity. }
    cbn [mapM]. unfold row2out at 1, dict_getitem. rewrite Hg. cbn [bind].
    assert (Hrow : forall r, seg_row_of ids segments row r ->
                   exists out', Ok (r :: out) = Ok out'
                                /\ Forall2 (seg_row_of ids segments)
                                           (row :: rows) out').
    { intros r Hr. exists (r :: out). split; [reflexivity|].
      constructor; assumption. }
    destruct (has_probes segments) eqn:Hp; cbn [bind]; rewrite Hm; cbn [bind];
      apply Hrow; exists cid; rewrite Hp; (split; [exact Hg|reflexivity]).
Qed.

Lemma same_set_sym (a b : list string) : same_set a b -> same_set b a.
Proof. intros H c. symmetry. apply H. Qed.

Lemma same_set_trans (a b c : list string) :
  same_set a b -> same_set b c -> same_set a c.
Proof. intros H1 H2 x. rewrite (H1 x). apply H2. Qed.

(** The check of one later sample against the stored ids. *)
Lemma sample_check (msg : string) (ids : ChromIds) (segments : CopyNumArray) :
  (assert_equal msg (keys ids) (keys (create_chrom_ids segments)) = Ok tt
   <-> same_set (chroms segments) (keys ids))
  /\ (assert_equal msg (keys ids) (keys (create_chrom_ids segments))
      = Raise (ValidationError msg)
      <-> ~ same_set (chroms segments) (keys ids)).
Proof.
  pose proof (create_chrom_ids_keys segments) as Hs.
  destruct (assert_equal_same_set msg (keys ids)
              (keys (create_chrom_ids segments))) as [Hok Hno].
  assert (Heq : same_set (keys ids) (keys (create_chrom_ids segments))
                <-> same_set (chroms segments) (keys ids)).
  { split; intros H.
    - apply same_set_sym, (same_set_trans _ _ _ H Hs).
    - apply (same_set_trans _ (chroms segments));
        [apply same_set_sym, H|apply same_set_sym, Hs]. }
  rewrite Hok, Hno, Heq. split; reflexivity.
Qed.

(** Whether a sample agrees with the stored ids is decided by the check. *)
Lemma sample_agrees_dec (ids : ChromIds) (segments : CopyNumArray) :
  same_set (chroms segments) (keys ids)
  \/ ~ same_set (chroms segments) (keys ids).
Proof.
  destruct (sample_check "" ids segments) as [Hok Hno].
  destruct (assert_equal "" (keys ids) (keys (create_chrom_ids segments)))
    as [[]|e] eqn:E.
  - left. apply Hok. reflexivity.
  - right. apply Hno. unfold assert_equal in *.
    destruct (keys_subset _ _ && keys_subset _ _);
      [discriminate|symmetry; exact E].
Qed.

Lemma export_seg_loop_step (segments : CopyNumArray)
    (rest : list CopyNumArray) (outrows : list SegRow) (ids : ChromIds)
    (h : list string) :
  export_seg_loop (segments :: rest) outrows (Some ids) (Some h)
  = (_ <- assert_equal "Segment chromosome names differ" (keys ids)
            (keys (create_chrom_ids segments)) ;;
     rows <- mapM (row2out segments ids) (data segments) ;;
     export_seg_loop rest (outrows ++ rows)%list (Some ids)
                     (Some (header_for segments))).
Proof.
  cbn [export_seg_loop].
  destruct (assert_equal "Segment chromosome names differ" (keys ids)
              (keys (create_chrom_ids segments))); reflexivity.
Qed.

Lemma rows_of_sample (ids : ChromIds) (segments : CopyNumArray) :
  same_set (chroms segments) (keys ids) ->
  exists rows,
    mapM (row2out segments ids) (data segments) = Ok rows
    /\ sample_rows ids segments rows.
Proof.
  intros Hs. apply row2out_all. intros row Hrow.
  apply Hs. unfold chroms. apply in_map. exact Hrow.
Qed.

Lemma last_map_cons (s : CopyNumArray) (rest : list CopyNumArray)
    (h : list string) :
  last (map header_for (s :: rest)) h
  = last (map header_for rest) (header_for s).
Proof.
  destruct rest as [|c rest]; [reflexivity|].
  cbn [map]. generalize (header_for c) (map header_for rest).
  intros x l. change (last (header_for s :: x :: l) h) with (last (x :: l) h).
  revert x. induction l as [|y l IH]; intros x; [reflexivity|].
  change (last (x :: y :: l) h) with (last (y :: l) h).
  change (last (x :: y :: l) (header_for s))
    with (last (y :: l) (header_for s)).
  apply IH.
Qed.

Lemma export_seg_loop_ok (rest : list CopyNumArray) :
  forall (outrows : list SegRow) (ids : ChromIds) (h : list string),
    Forall (fun s => same_set (chroms s) (keys ids)) rest ->
    exists rowss,
      export_seg_loop rest outrows (Some ids) (Some h)
      = Ok (last (map header_for rest) h, (outrows ++ List.concat rowss)%list)
      /\ Forall2 (sample_rows ids) rest rowss.
Proof.
  induction rest as [|s rest IH]; intros outrows ids h Hall.
  - exists []. cbn [export_seg_loop List.concat map last]. rewrite app_nil_r.
    split; [reflexivity|constructor].
  - inversion Hall as [|s' rest' Hs Hrest]; subst.
    rewrite export_seg_loop_step.
    rewrite (proj2 (proj1 (sample_check _ ids s)) Hs). cbn [bind].
    destruct (rows_of_sample ids s Hs) as [rows [Hm Hr]].
    rewrite Hm. cbn [bind].
    destruct (IH (outrows ++ rows)%list ids (header_for s) Hrest)
      as [rowss [Hl Hf]].
    exists (rows :: rowss). rewrite Hl. cbn [List.concat].
    rewrite (last_map_cons s rest h), app_assoc.
    split; [reflexivity|constructor; assumption].
Qed.

Lemma export_seg_loop_fail (rest : list CopyNumArray) :
  forall (outrows : list SegRow) (ids : ChromIds) (h : list string),
    Exists (fun s => ~ same_set (chroms s) (keys ids)) rest ->
    export_seg_loop rest outrows (Some ids) (Some h)
    = Raise (ValidationError "Segment chromosome names differ").
Proof.
  induction rest as [|s rest IH]; intros outrows ids h Hex.
  - inversion Hex.
  - rewrite export_seg_loop_step.
    destruct (sample_agrees_dec ids s) as [Hk|Hbad0].
    2:{ rewrite (proj2 (proj2 (sample_check _ ids s)) Hbad0). reflexivity. }
    rewrite (proj2 (proj1 (sample_check _ ids s)) Hk). cbn [bind].
    destruct (rows_of_sample ids s Hk) as [rows [Hm _]].
    rewrite Hm. cbn [bind]. apply IH.
    inversion Hex as [s' rest' Hbad|s' rest' Hlater]; subst;
      [contradiction|exact Hlater].
Qed.

Lemma samples_agree_or_not (ids : ChromIds) (rest : list CopyNumArray) :
  Forall (fun s => same_set (chroms s) (keys ids)) rest
  \/ Exists (fun s => ~ same_set (chroms s) (keys ids)) rest.
Proof.
  induction rest as [|s rest [IH|IH]].
  - left. constructor.
  - destruct (sample_agrees_dec ids s) as [Hs|Hn].
    + left. constructor; assumption.
    + right. apply Exists_cons_hd. exact Hn.
  - right. apply Exists_cons_tl. exact IH.
Qed.

Lemma export_seg_first (first : CopyNumArray) (rest : list CopyNumArray) :
  exists rows,
    sample_rows (create_chrom_ids first) first rows
    /\ export_seg (first :: rest)
       = export_seg_loop rest rows (Some (create_chrom_ids first))
                         (Some (header_for first)).
Proof.
  pose proof (create_chrom_ids_keys first) as Hs.
  destruct (rows_of_sample (create_chrom_ids first) first
                           (same_set_sym _ _ Hs)) as [rows [Hm Hr]].
  exists rows. split; [exact Hr|].
  unfold export_seg. cbn [export_seg_loop bind]. rewrite Hm. reflexivity.
Qed.

Lemma last_header (rest : list CopyNumArray) :
  forall first,
    last (map header_for rest) (header_for first)
    = header_for (last (first :: rest) no_sample).
Proof.
  induction rest as [|s rest IH]; intros first; [reflexivity|].
  rewrite last_map_cons, IH. reflexivity.
Qed.

(** C5. A SEG export over several samples fails if and only if some sample
    after the first has a set of chromosome names different from that of the
    first sample, and then with the error "Segment chromosome names
    differ".  Only the sets are compared: [cna_a] and [cna_b] meet the same
    chromosomes in a different order and pass. *)
Theorem export_seg_fails_iff_sets_differ :
  forall (first : CopyNumArray) (rest : list CopyNumArray),
    ((exists e, export_seg (first :: rest) = Raise e)
     <-> exists s, In s rest /\ ~ same_set (chroms s) (chroms first))
    /\ ((exists s, In s rest /\ ~ same_set (chroms s) (chroms first)) ->
        export_seg (first :: rest)
        = Raise (ValidationError "Segment chromosome names differ"))
    /\ (chroms cna_a <> chroms cna_b
        /\ same_set (chroms cna_b) (chroms cna_a)
        /\ exists out, export_seg [cna_a; cna_b] = Ok out).
Proof.
  intros first rest.
  pose proof (create_chrom_ids_keys first) as Hs.
  destruct (export_seg_first first rest) as [rows0 [_ Hexp]].
  assert (Hconv : forall s,
             same_set (chroms s) (keys (create_chrom_ids first))
             <-> same_set (chroms s) (chroms first)).
  { intros s. split; intros H.
    - apply (same_set_trans _ _ _ H Hs).
    - apply (same_set_trans _ _ _ H (same_set_sym _ _ Hs)). }
  assert (Hfail : (exists s, In s rest
                             /\ ~ same_set (chroms s) (chroms first)) ->
                  export_seg (first :: rest)
                  = Raise (ValidationError "Segment chromosome names differ")).
  { intros [s [Hin Hbad]]. rewrite Hexp.
    apply export_seg_loop_fail.
    apply Exists_exists. exists s. split; [exact Hin|].
    rewrite Hconv. exact Hbad. }
  split; [split|split].
  - intros [e He].
    destruct (samples_agree_or_not (create_chrom_ids first) rest)
      as [Hall|Hex].
    + destruct (export_seg_loop_ok rest rows0 _ (header_for first) Hall)
        as [rowss [Hok _]].
      rewrite Hexp, Hok in He. discriminate.
    + apply Exists_exists in Hex as [s [Hin Hbad]].
      exists s. split; [exact Hin|]. rewrite <- Hconv. exact Hbad.
  - intros H. eexists. apply Hfail, H.
  - exact Hfail.
  - split; [discriminate|]. split.
    + intros c. cbn. tauto.
    + eexists. vm_compute. reflexivity.
Qed.

Lemma export_seg_fails_iff_sets_differ_witness :
  export_seg [cna_a; cna_c]
  = Raise (ValidationError "Segment chromosome names differ").
Proof.
  apply (proj1 (proj2 (export_seg_fails_iff_sets_differ cna_a [cna_c]))).
  exists cna_c. split; [left; reflexivity|].
  intros H. destruct (proj2 (H "chr2")) as [E|[]].
  - right. left. reflexivity.
  - discriminate E.
Defined.

Lemma Forall2_In_left {A B} (R : A -> B -> Prop) (l : list A) (l' : list B)
    (x : A) :
  Forall2 R l l' -> In x l -> exists y, In y l' /\ R x y.
Proof.
  induction 1 as [|a b l l' Hab _ IH]; intros Hin; [destruct Hin|].
  destruct Hin as [<-|Hin].
  - exists b. split; [left; reflexivity|exact Hab].
  - destruct (IH Hin) as [y [Hy Hr]]. exists y. split; [right|]; assumption.
Qed.

Lemma seg_row_width (ids : ChromIds) (segments : CopyNumArray)
    (row : Segment) (r : SegRow) :
  seg_row_of ids segments row r ->
  List.length r = List.length (header_for segments).
Proof.
  intros [cid [_ ->]]. unfold header_for.
  destruct (has_probes segments); reflexivity.
Qed.

Lemma header_width_differs (s t : CopyNumArray) :
  has_probes s <> has_probes t ->
  List.length (header_for s) <> List.length (header_for t).
Proof.
  unfold header_for. destruct (has_probes s), (has_probes t);
    cbn; intros H; congruence.
Qed.

Lemma sample_rows_width (ids : ChromIds) (segments : CopyNumArray)
    (rows : list SegRow) :
  sample_rows ids segments rows ->
  Forall (fun r => List.length r
                   = if has_probes segments then 6%nat else 5%nat) rows.
Proof.
  unfold sample_rows. induction 1 as [|row r l l' Hr _ IH]; constructor.
  - destruct Hr as [cid [_ ->]]. destruct (has_probes segments); reflexivity.
  - exact IH.
Qed.

Lemma row_of_sample_in_rows (ids : ChromIds) (samples : list CopyNumArray)
    (rowss : list (list SegRow)) (s : CopyNumArray) :
  Forall2 (sample_rows ids) samples rowss ->
  In s samples -> data s <> [] ->
  exists r,
    In r (List.concat rowss)
    /\ List.length r = if has_probes s then 6%nat else 5%nat.
Proof.
  intros Hall Hin Hdata.
  destruct (Forall2_In_left _ _ _ s Hall Hin) as [rs [Hrs Hsr]].
  pose proof (sample_rows_width _ _ _ Hsr) as Hw.
  unfold sample_rows in Hsr.
  destruct Hsr as [|row r rows' rs' Hrow _]; [congruence|].
  exists r. split.
  - apply in_concat. exists (r :: rs'). split; [exact Hrs|left; reflexivity].
  - inversion Hw; assumption.
Qed.

(** C10. When [export_seg] succeeds on a non-empty sequence of samples, the
    header it returns is the one of the last sample: the six columns
    [ID, Chromosome, Start, End, NumProbes, Mean] when that sample has a
    [probes] column and the five columns without [NumProbes] when it has
    none.  The rows are those of each sample in turn, and a row has six
    cells, the fifth the probe count, exactly when its own sample has the
    column, and five otherwise.  So a sample with rows that differs from the
    last one in having the column contributes rows whose width is not that
    of the header, and samples with and without the column leave rows of
    width 6 and 5 under the one header. *)
Theorem export_seg_header_of_last_sample :
  forall (samples : list CopyNumArray) (header : list string)
         (rows : list SegRow),
    samples <> [] ->
    export_seg samples = Ok (header, rows) ->
    header = (if has_probes (last samples no_sample)
              then ["ID"; "Chromosome"; "Start"; "End"; "NumProbes"; "Mean"]
              else ["ID"; "Chromosome"; "Start"; "End"; "Mean"])
    /\ (List.length header = 6%nat
        <-> has_probes (last samples no_sample) = true)
    /\ (In "NumProbes" header
        <-> has_probes (last samples no_sample) = true)
    /\ (exists rowss,
           rows = List.concat rowss
           /\ Forall2 (sample_rows (create_chrom_ids (hd no_sample samples)))
                      samples rowss
           /\ Forall2
                (fun s rs =>
                   Forall (fun r => List.length r
                                    = if has_probes s then 6%nat else 5%nat)
                          rs)
                samples rowss)
    /\ (forall s,
           In s samples -> data s <> [] ->
           has_probes s <> has_probes (last samples no_sample) ->
           exists r, In r rows /\ List.length r <> List.length header)
    /\ (forall s t,
           In s samples -> In t samples -> data s <> [] -> data t <> [] ->
           has_probes s = true -> has_probes t = false ->
           exists r6 r5,
             In r6 rows /\ In r5 rows
             /\ List.length r6 = 6%nat /\ List.length r5 = 5%nat).
Proof.
  intros samples header rows Hne Hok.
  destruct samples as [|first rest]; [congruence|]. clear Hne.
  destruct (export_seg_first first rest) as [rows0 [Hr0 Hexp]].
  rewrite Hexp in Hok.
  destruct (samples_agree_or_not (create_chrom_ids first) rest)
    as [Hall|Hex].
  2:{ rewrite (export_seg_loop_fail rest rows0 _ (header_for first) Hex)
        in Hok. discriminate. }
  destruct (export_seg_loop_ok rest rows0 _ (header_for first) Hall)
    as [rowss [Hl Hf]].
  rewrite Hl, last_header in Hok. injection Hok as <- <-.
  assert (Hall2 : Forall2 (sample_rows (create_chrom_ids first))
                          (first :: rest) (rows0 :: rowss))
    by (constructor; assumption).
  change (rows0 ++ List.concat rowss)%list
    with (List.concat (rows0 :: rowss)).
  unfold header_for, seg_header_probes, seg_header_plain. cbn [last].
  set (p := has_probes match rest with
                       | [] => first
                       | _ :: _ => last rest no_sample
                       end).
  split; [reflexivity|]. split; [|split; [|split; [|split]]].
  - destruct p; cbn [List.length]; split; intros H;
      try reflexivity; discriminate H.
  - destruct p; split; intros H; try reflexivity.
    + cbn. right. right. right. right. left. reflexivity.
    + cbn in H. repeat destruct H as [H|H]; try discriminate H. destruct H.
    + discriminate H.
  - exists (rows0 :: rowss). split; [reflexivity|]. split; [exact Hall2|].
    cbn [hd] in Hall2. clear - Hall2.
    induction Hall2 as [|s rs l l' Hs _ IH]; constructor;
      [exact (sample_rows_width _ _ _ Hs)|exact IH].
  - intros s Hin Hdata Hdiff.
    destruct (row_of_sample_in_rows _ _ _ s Hall2 Hin Hdata)
      as [r [Hr Hw]].
    exists r. split; [exact Hr|]. rewrite Hw.
    destruct (has_probes s), p; cbn [List.length];
      congruence.
  - intros s t Hs Ht Hds Hdt Ps Pt.
    destruct (row_of_sample_in_rows _ _ _ s Hall2 Hs Hds) as [r6 [Hr6 Hw6]].
    destruct (row_of_sample_in_rows _ _ _ t Hall2 Ht Hdt) as [r5 [Hr5 Hw5]].
    rewrite Ps in Hw6. rewrite Pt in Hw5.
    exists r6, r5. repeat split; assumption.
Qed.

Lemma export_seg_header_of_last_sample_witness :
  exists r,
    In r [[CStr "B"; CInt 1; CInt 10; CInt 60; CNum 0%Q];
          [CStr "B"; CInt 2; CInt 0; CInt 100; CNum (1 # 4)%Q];
          [CStr "A"; CInt 2; CInt 0; CInt 100; CInt 5; CNum 0%Q];
          [CStr "A"; CInt 1; CInt 0; CInt 50; CInt 3; CNum (1 # 2)%Q]]
    /\ List.length r
       <> List.length
            ["ID"; "Chromosome"; "Start"; "End"; "NumProbes"; "Mean"].
Proof.
  apply (proj1 (proj2 (proj2 (proj2 (proj2
           (export_seg_header_of_last_sample [cna_b; cna_a]
              ["ID"; "Chromosome"; "Start"; "End"; "NumProbes"; "Mean"]
              [[CStr "B"; CInt 1; CInt 10; CInt 60; CNum 0%Q];
               [CStr "B"; CInt 2; CInt 0; CInt 100; CNum (1 # 4)%Q];
               [CStr "A"; CInt 2; CInt 0; CInt 100; CInt 5; CNum 0%Q];
               [CStr "A"; CInt 1; CInt 0; CInt 50; CInt 3; CNum (1 # 2)%Q]]
              ltac:(discriminate) eq_refl))))) cna_b).
  - left. reflexivity.
  - discriminate.
  - discriminate.
Defined.

(** ** Floats *)

Lemma two_pow_pos (k : Z) : (0 < 2 ^ k)%Q.
Proof. apply Qpower_0_lt. reflexivity. Qed.

Lemma two_pow_plus (a b : Z) : (2 ^ (a + b) == 2 ^ a * 2 ^ b)%Q.
Proof. apply Qpower_plus. discriminate. Qed.

Lemma two_pow_le (a b : Z) : a <= b -> (2 ^ a <= 2 ^ b)%Q.
Proof. intros H. apply Qpower_le_compat_l; [exact H|discriminate]. Qed.

Lemma two_pow_inject (k : Z) : 0 <= k -> (2 ^ k == inject_Z (2 ^ k))%Q.
Proof. intros H. symmetry. apply (Zpower_Qpower 2 k H). Qed.

(** [ilog2] is the floor of the binary logarithm. *)
Lemma ilog2_spec (q : Q) :
  (0 < q)%Q ->
  (2 ^ Float64.ilog2 q <= q)%Q /\ (q < 2 ^ (Float64.ilog2 q + 1))%Q.
Proof.
  intros Hq. destruct q as [n d].
  assert (Hn : 0 < n) by (unfold Qlt in Hq; cbn in Hq; lia).
  unfold Float64.ilog2. cbn [Qnum Qden].
  set (a := Z.log2 n). set (b := Z.log2 (Z.pos d)).
  destruct (Z.log2_spec n Hn) as [Ha1 Ha2]. fold a in Ha1, Ha2.
  destruct (Z.log2_spec (Z.pos d) eq_refl) as [Hb1 Hb2]. fold b in Hb1, Hb2.
  assert (Ha0 : 0 <= a) by apply Z.log2_nonneg.
  assert (Hb0 : 0 <= b) by apply Z.log2_nonneg.
  rewrite Zle_Qle in Ha1, Hb1. rewrite Zlt_Qlt in Ha2, Hb2.
  rewrite <- two_pow_inject in Ha1, Ha2, Hb1, Hb2 by lia.
  replace (Z.succ a) with (a + 1) in Ha2 by lia.
  replace (Z.succ b) with (b + 1) in Hb2 by lia.
  pose proof (two_pow_pos a) as Pa. pose proof (two_pow_pos b) as Pb.
  pose proof (two_pow_pos (a - b)) as Pk.
  pose proof (two_pow_pos (a - b - 1)) as Pk1.
  assert (Eq : (n # d == inject_Z n / inject_Z (Z.pos d))%Q)
    by apply Qmake_Qdiv.
  assert (Pd : (0 < inject_Z (Z.pos d))%Q) by reflexivity.
  assert (Ek : (2 ^ a == 2 ^ (a - b) * 2 ^ b)%Q).
  { rewrite <- two_pow_plus. replace (a - b + b) with a by lia. reflexivity. }
  assert (Ea1 : (2 ^ (a + 1) == 2 * 2 ^ a)%Q).
  { rewrite two_pow_plus. change (2 ^ 1)%Q with 2%Q. ring. }
  assert (Eb1 : (2 ^ (b + 1) == 2 * 2 ^ b)%Q).
  { rewrite two_pow_plus. change (2 ^ 1)%Q with 2%Q. ring. }
  assert (Ek1 : (2 ^ (a - b) == 2 * 2 ^ (a - b - 1))%Q).
  { replace (a - b) with (a - b - 1 + 1) at 1 by lia.
    rewrite two_pow_plus. change (2 ^ 1)%Q with 2%Q. ring. }
  assert (Ek2 : (2 ^ (a - b + 1) == 2 * 2 ^ (a - b))%Q).
  { rewrite two_pow_plus. change (2 ^ 1)%Q with 2%Q. ring. }
  assert (Hlo : (2 ^ (a - b - 1) < n # d)%Q).
  { rewrite Eq. apply Qlt_shift_div_l; [exact Pd|]. nra. }
  assert (Hhi : (n # d < 2 ^ (a - b + 1))%Q).
  { rewrite Eq. apply Qlt_shift_div_r; [exact Pd|]. nra. }
  destruct (Qle_bool (2 ^ (a - b)) (n # d)) eqn:E.
  - apply Qle_bool_iff in E. split; [exact E|exact Hhi].
  - assert (L : ~ (2 ^ (a - b) <= n # d)%Q).
    { intros C. apply Qle_bool_iff in C. congruence. }
    apply Qnot_le_lt in L.
    replace (a - b - 1 + 1) with (a - b) by lia.
    split; [apply Qlt_le_weak; exact Hlo|exact L].
Qed.

Lemma ilog2_lt (q : Q) (k : Z) :
  (0 < q)%Q -> (q < 2 ^ k)%Q -> Float64.ilog2 q < k.
Proof.
  intros Hq Hk. destruct (ilog2_spec q Hq) as [Hlo _].
  destruct (Z_lt_ge_dec (Float64.ilog2 q) k) as [L|G]; [exact L|exfalso].
  pose proof (two_pow_le k (Float64.ilog2 q) ltac:(lia)). lra.
Qed.

Lemma ilog2_ge (q : Q) (k : Z) :
  (0 < q)%Q -> (2 ^ k <= q)%Q -> k <= Float64.ilog2 q.
Proof.
  intros Hq Hk. destruct (ilog2_spec q Hq) as [_ Hhi].
  destruct (Z_le_gt_dec k (Float64.ilog2 q)) as [L|G]; [exact L|exfalso].
  pose proof (two_pow_le (Float64.ilog2 q + 1) k ltac:(lia)). lra.
Qed.

Lemma ilog2_monotone (p q : Q) :
  (0 < p)%Q -> (p <= q)%Q -> Float64.ilog2 p <= Float64.ilog2 q.
Proof.
  intros Hp Hpq. apply ilog2_ge; [lra|].
  destruct (ilog2_spec p Hp) as [Hlo _]. lra.
Qed.

Lemma round_scaled_ge (n e : Z) (q : Q) :
  (inject_Z n * 2 ^ e <= q)%Q -> n <= Py.round_half_even (q / 2 ^ e).
Proof.
  intros H. rewrite <- (round_inject_Z Python3 n).
  apply (round_monotone Python3).
  apply Qle_shift_div_l; [apply two_pow_pos|exact H].
Qed.

Lemma round_scaled_le (n e : Z) (q : Q) :
  (q <= inject_Z n * 2 ^ e)%Q -> Py.round_half_even (q / 2 ^ e) <= n.
Proof.
  intros H.
  apply Z.le_trans with (Py.round Python3 (inject_Z n));
    [|rewrite round_inject_Z; lia].
  apply (round_monotone Python3).
  apply Qle_shift_div_r; [apply two_pow_pos|exact H].
Qed.

Lemma round_pos_nonneg (q : Q) : (0 < q)%Q -> (0 <= Float64.round_pos q)%Q.
Proof.
  intros Hq. unfold Float64.round_pos.
  pose proof (two_pow_pos (Float64.ulp_exponent q)) as P.
  apply Qmult_le_0_compat; [|lra].
  change 0%Q with (inject_Z 0). rewrite <- Zle_Qle.
  apply round_scaled_ge. rewrite Qmult_0_l. lra.
Qed.

(** Rounding to the nearest double keeps the order. *)
Lemma round_pos_monotone (p q : Q) :
  (0 < p)%Q -> (p <= q)%Q ->
  (Float64.round_pos p <= Float64.round_pos q)%Q.
Proof.
  intros Hp Hpq. assert (Hq : (0 < q)%Q) by lra.
  pose proof (ilog2_monotone p q Hp Hpq) as Hl.
  unfold Float64.round_pos.
  assert (Hle : Float64.ulp_exponent p <= Float64.ulp_exponent q)
    by (unfold Float64.ulp_exponent; lia).
  destruct (Z.eq_dec (Float64.ulp_exponent p) (Float64.ulp_exponent q))
    as [E|N].
  - rewrite E.
    pose proof (two_pow_pos (Float64.ulp_exponent q)) as P.
    apply Qmult_le_compat_r; [|lra].
    rewrite <- Zle_Qle. apply (round_monotone Python3).
    apply Qmult_le_compat_r; [exact Hpq|].
    apply Qlt_le_weak, Qinv_lt_0_compat, P.
  - set (ep := Float64.ulp_exponent p) in *.
    set (eq := Float64.ulp_exponent q) in *.
    set (Lq := Float64.ilog2 q) in *.
    assert (Heq : eq = Lq - 52)
      by (unfold eq, ep, Float64.ulp_exponent in *; lia).
    assert (Hlt : Float64.ilog2 p < Lq)
      by (unfold eq, ep, Float64.ulp_exponent in *; lia).
    destruct (ilog2_spec p Hp) as [_ Hphi].
    destruct (ilog2_spec q Hq) as [Hqlo _]. fold Lq in Hqlo.
    pose proof (two_pow_le (Float64.ilog2 p + 1) Lq ltac:(lia)) as Hmid.
    pose proof (two_pow_pos ep) as Pp. pose proof (two_pow_pos eq) as Pq.
    apply Qle_trans with (2 ^ Lq)%Q.
    + assert (D : (2 ^ Lq == inject_Z (2 ^ (Lq - ep)) * 2 ^ ep)%Q).
      { rewrite <- two_pow_inject by lia. rewrite <- two_pow_plus.
        replace (Lq - ep + ep) with Lq by lia. reflexivity. }
      rewrite D. apply Qmult_le_compat_r; [|lra].
      rewrite <- Zle_Qle. apply round_scaled_le. rewrite <- D. lra.
    + assert (D : (2 ^ Lq == inject_Z (2 ^ 52) * 2 ^ eq)%Q).
      { rewrite <- two_pow_inject by lia. rewrite <- two_pow_plus.
        replace (52 + eq) with Lq by lia. reflexivity. }
      rewrite D at 1. apply Qmult_le_compat_r; [|lra].
      rewrite <- Zle_Qle. apply round_scaled_ge. rewrite <- D. exact Hqlo.
Qed.

Lemma overflows_false (r : Q) :
  Float64.overflows r = false <-> (r < 2 ^ 1024)%Q.
Proof.
  unfold Float64.overflows. split.
  - intros E. apply Qnot_le_lt. intros C. apply Qle_bool_iff in C. congruence.
  - intros L. destruct (Qle_bool (2 ^ 1024) r) eqn:E; [|reflexivity].
    apply Qle_bool_iff in E. lra.
Qed.

(** The conversion sees the value of a rational, not its fraction, and
    never answers not a number. *)
Lemma of_Q_comp (p q : Q) : (p == q)%Q -> Float64.of_Q p = Float64.of_Q q.
Proof.
  intros E. unfold Float64.of_Q. rewrite (Qred_complete p q E). reflexivity.
Qed.

Lemma of_Q_not_nan (q : Q) : Float64.of_Q q <> NaN.
Proof.
  unfold Float64.of_Q.
  destruct (Qred q ?= 0)%Q; [discriminate| |];
    match goal with
    | |- context [if ?b then _ else _] => destruct b
    end; discriminate.
Qed.

Lemma le_of_neg_inf (y : double) : y <> NaN -> Float64.le (Inf true) y.
Proof. destruct y as [|[]|]; cbn; intros H; try exact I; congruence. Qed.

Lemma le_to_pos_inf (x : double) : x <> NaN -> Float64.le x (Inf false).
Proof. destruct x as [|[]|]; cbn; intros H; try exact I; congruence. Qed.

(** The conversion keeps the order. *)
Lemma of_Q_monotone (p q : Q) :
  (p <= q)%Q -> Float64.le (Float64.of_Q p) (Float64.of_Q q).
Proof.
  intros Hpq. unfold Float64.of_Q.
  pose proof (Qred_correct p) as Ep. pose proof (Qred_correct q) as Eq.
  rewrite <- Ep, <- Eq in Hpq.
  set (p' := Qred p) in *. set (q' := Qred q) in *.
  destruct (Qcompare_spec p' 0) as [Hp|Hp|Hp];
    destruct (Qcompare_spec q' 0) as [Hq|Hq|Hq]; try (exfalso; lra).
  - unfold Float64.le. lra.
  - pose proof (round_pos_nonneg q' Hq) as Nq.
    destruct (Float64.overflows (Float64.round_pos q')); unfold Float64.le; [exact I|].
    rewrite Qred_correct. exact Nq.
  - assert (Hp' : (0 < - p')%Q) by lra.
    pose proof (round_pos_nonneg (- p') Hp') as Np.
    destruct (Float64.overflows (Float64.round_pos (- p'))); unfold Float64.le; [exact I|].
    rewrite Qred_correct. lra.
  - assert (Hp' : (0 < - p')%Q) by lra.
    assert (Hq' : (0 < - q')%Q) by lra.
    pose proof (round_pos_monotone (- q') (- p') Hq' ltac:(lra)) as M.
    destruct (Float64.overflows (Float64.round_pos (- p'))) eqn:Op.
    + apply le_of_neg_inf.
      destruct (Float64.overflows (Float64.round_pos (- q'))); discriminate.
    + apply overflows_false in Op.
      assert (Oq : Float64.overflows (Float64.round_pos (- q')) = false)
        by (apply overflows_false; lra).
      rewrite Oq. unfold Float64.le. rewrite !Qred_correct. lra.
  - assert (Hp' : (0 < - p')%Q) by lra.
    pose proof (round_pos_nonneg (- p') Hp') as Np.
    pose proof (round_pos_nonneg q' Hq) as Nq.
    destruct (Float64.overflows (Float64.round_pos (- p')));
      destruct (Float64.overflows (Float64.round_pos q')); unfold Float64.le;
      try exact I.
    rewrite !Qred_correct. lra.
  - pose proof (round_pos_monotone p' q' Hp Hpq) as M.
    destruct (Float64.overflows (Float64.round_pos q')) eqn:Oq.
    + apply le_to_pos_inf.
      destruct (Float64.overflows (Float64.round_pos p')); discriminate.
    + apply overflows_false in Oq.
      assert (Op : Float64.overflows (Float64.round_pos p') = false)
        by (apply overflows_false; lra).
      rewrite Op. unfold Float64.le. rewrite !Qred_correct. exact M.
Qed.

(** A rational with at most 53 significant bits, in the range of the
    exponents, is a double: it is rounded to itself. *)
Lemma round_pos_exact (q : Q) (m e : Z) :
  0 < m < 2 ^ 53 -> Float64.emin <= e ->
  (q == inject_Z m * 2 ^ e)%Q ->
  (Float64.round_pos q == q)%Q.
Proof.
  intros Hm He Hq.
  pose proof (two_pow_pos e) as Pe.
  assert (Hm1 : (0 < inject_Z m)%Q)
    by (change 0%Q with (inject_Z 0); rewrite <- Zlt_Qlt; lia).
  assert (Hm2 : (inject_Z m < 2 ^ 53)%Q).
  { rewrite (two_pow_inject 53) by lia. rewrite <- Zlt_Qlt. lia. }
  assert (Hpos : (0 < q)%Q) by (rewrite Hq; nra).
  assert (Hlt : (q < 2 ^ (53 + e))%Q).
  { rewrite Hq, two_pow_plus. pose proof (two_pow_pos 53). nra. }
  pose proof (ilog2_lt q (53 + e) Hpos Hlt) as Hl.
  unfold Float64.round_pos. set (e' := Float64.ulp_exponent q).
  assert (He' : e' <= e) by (unfold e', Float64.ulp_exponent; lia).
  pose proof (two_pow_pos e') as Pe'.
  assert (D : (q / 2 ^ e' == inject_Z (m * 2 ^ (e - e')))%Q).
  { rewrite inject_Z_mult, <- two_pow_inject by lia.
    rewrite Hq. replace e with (e - e' + e') at 1 by lia.
    rewrite two_pow_plus. field. lra. }
  change Py.round_half_even with (Py.round Python3).
  rewrite (round_comp Python3 _ _ D), round_inject_Z, <- D.
  field. lra.
Qed.

Lemma of_Q_exact (q : Q) (m e : Z) :
  Z.abs m < 2 ^ 53 -> Float64.emin <= e <= 971 ->
  (q == inject_Z m * 2 ^ e)%Q ->
  Float64.of_Q q = Fin (Qred q).
Proof.
  intros Hm He Hq. unfold Float64.of_Q.
  pose proof (Qred_correct q) as Er. set (q' := Qred q) in *.
  pose proof (two_pow_pos e) as Pe.
  assert (B : (2 ^ 53 * 2 ^ e <= 2 ^ 1024)%Q).
  { rewrite <- two_pow_plus. apply two_pow_le. lia. }
  assert (P53 : (2 ^ 53 == inject_Z (2 ^ 53))%Q) by (apply two_pow_inject; lia).
  destruct (Qcompare_spec q' 0) as [H0|Hneg|Hpos].
  - f_equal. symmetry. unfold q'.
    apply (Qred_complete q 0). rewrite <- Er. exact H0.
  - assert (Hm' : 0 < - m < 2 ^ 53).
    { split; [|lia].
      destruct (Z_lt_ge_dec m 0) as [L|G]; [lia|exfalso].
      assert ((0 <= inject_Z m)%Q)
        by (change 0%Q with (inject_Z 0); rewrite <- Zle_Qle; lia).
      rewrite Er, Hq in Hneg. nra. }
    assert (Hq' : (- q' == inject_Z (- m) * 2 ^ e)%Q)
      by (rewrite Er, Hq, inject_Z_opp; ring).
    pose proof (round_pos_exact (- q') (- m) e Hm' (proj1 He) Hq') as Ex.
    assert (Lm : (inject_Z (- m) < 2 ^ 53)%Q)
      by (rewrite P53, <- Zlt_Qlt; lia).
    assert (O : Float64.overflows (Float64.round_pos (- q')) = false).
    { apply overflows_false. rewrite Ex, Hq'. nra. }
    rewrite O. f_equal. apply Qred_complete. rewrite Ex, Er. ring.
  - assert (Hm' : 0 < m < 2 ^ 53).
    { split; [|lia].
      destruct (Z_le_gt_dec m 0) as [L|G]; [exfalso|lia].
      assert ((inject_Z m <= 0)%Q)
        by (change 0%Q with (inject_Z 0); rewrite <- Zle_Qle; lia).
      rewrite Er, Hq in Hpos. nra. }
    assert (Hq' : (q' == inject_Z m * 2 ^ e)%Q) by (rewrite Er; exact Hq).
    pose proof (round_pos_exact q' m e Hm' (proj1 He) Hq') as Ex.
    assert (Lm : (inject_Z m < 2 ^ 53)%Q)
      by (rewrite P53, <- Zlt_Qlt; lia).
    assert (O : Float64.overflows (Float64.round_pos q') = false).
    { apply overflows_false. rewrite Ex, Hq'. nra. }
    rewrite O. f_equal. apply Qred_complete. rewrite Ex. exact Er.
Qed.

(** On these samples (among them the operands of the counterexample of C3,
    subnormals and results past the largest double) the three operations
    answer what the Standard Library's specification of binary64 answers. *)
Example float64_agrees_with_SpecFloat :
  all_pairs (agree Float64.mul (SpecFloat.SFmul 53 1024)) samples64 = true
  /\ all_pairs (agree Float64.div (SpecFloat.SFdiv 53 1024)) samples64 = true
  /\ all_pairs (agree Float64.add (SpecFloat.SFadd 53 1024)) samples64 = true.
Proof. vm_compute. repeat split; reflexivity. Qed.


(** ** The operations on floats *)

Lemma is_zero_iff (q : Q) : Float64.is_zero q = true <-> (q == 0)%Q.
Proof.
  unfold Float64.is_zero, Qeq. cbn [Qnum Qden]. rewrite Z.eqb_eq. lia.
Qed.

Lemma negative_iff (q : Q) : Float64.negative q = true <-> (q < 0)%Q.
Proof.
  unfold Float64.negative, Qlt. cbn [Qnum Qden]. rewrite Z.ltb_lt. lia.
Qed.

Lemma positive_signs (c : Q) :
  (0 < c)%Q -> Float64.is_zero c = false /\ Float64.negative c = false.
Proof.
  intros H. split; apply Bool.not_true_iff_false; intros E.
  - apply is_zero_iff in E. lra.
  - apply negative_iff in E. lra.
Qed.

(** Multiplying or dividing by a positive constant keeps the order. *)
Lemma mul_monotone_r (c : Q) (x y : double) :
  (0 < c)%Q -> Float64.le x y ->
  Float64.le (Float64.mul x (Fin c)) (Float64.mul y (Fin c)).
Proof.
  intros Hc Hxy. destruct (positive_signs c Hc) as [Z N].
  destruct x as [|[]|a], y as [|[]|b]; unfold Float64.mul; rewrite ?Z, ?N;
    cbn [xorb]; try (destruct Hxy; fail); try exact I;
    try (apply le_of_neg_inf, of_Q_not_nan);
    try (apply le_to_pos_inf, of_Q_not_nan).
  apply of_Q_monotone. unfold Float64.le in Hxy. nra.
Qed.

Lemma div_monotone_r (c : Q) (x y : double) :
  (0 < c)%Q -> Float64.le x y ->
  Float64.le (Float64.div x (Fin c)) (Float64.div y (Fin c)).
Proof.
  intros Hc Hxy. destruct (positive_signs c Hc) as [Z N].
  destruct x as [|[]|a], y as [|[]|b]; unfold Float64.div; rewrite ?Z, ?N;
    cbn [xorb]; try (destruct Hxy; fail); try exact I;
    try (apply le_of_neg_inf, of_Q_not_nan);
    try (apply le_to_pos_inf, of_Q_not_nan).
  apply of_Q_monotone. unfold Float64.le in Hxy.
  apply Qmult_le_compat_r; [exact Hxy|].
  apply Qlt_le_weak, Qinv_lt_0_compat, Hc.
Qed.

Lemma not_negative (q : Q) : Float64.negative q = false <-> (0 <= q)%Q.
Proof.
  split.
  - intros E. destruct (Qlt_le_dec q 0) as [L|G]; [|exact G].
    apply negative_iff in L. congruence.
  - intros H. apply Bool.not_true_iff_false. intros E.
    apply negative_iff in E. lra.
Qed.

Lemma mul_inf_fin (a : Q) :
  Float64.mul (Inf false) (Fin a) <> NaN ->
  Float64.mul (Inf false) (Fin a) = Inf (Float64.negative a).
Proof.
  unfold Float64.mul. destruct (Float64.is_zero a); [congruence|].
  intros _. reflexivity.
Qed.

Lemma mul_fin_inf (c : Q) (s : bool) :
  (0 <= c)%Q -> Float64.mul (Fin c) (Inf s) <> NaN ->
  Float64.mul (Fin c) (Inf s) = Inf s.
Proof.
  intros Hc. unfold Float64.mul.
  destruct (Float64.is_zero c); [congruence|]. intros _.
  rewrite (proj2 (not_negative c) Hc). destruct s; reflexivity.
Qed.

(** Multiplying by a constant that is not negative keeps the order,
    where both products are numbers (zero times an infinity is not). *)
Lemma mul_monotone_l (c x y : double) :
  Float64.le (Fin 0) c -> Float64.le x y ->
  Float64.mul c x <> NaN -> Float64.mul c y <> NaN ->
  Float64.le (Float64.mul c x) (Float64.mul c y).
Proof.
  intros Hc Hxy Nx Ny.
  destruct c as [|[]|c]; try (destruct Hc; fail).
  - (* plus infinity *)
    destruct x as [|[]|a], y as [|[]|b]; try (destruct Hxy; fail);
      try exact I; rewrite ?(mul_inf_fin _ Nx), ?(mul_inf_fin _ Ny).
    + change (Float64.mul (Inf false) (Inf true)) with (Inf true).
      exact I.
    + change (Float64.mul (Inf false) (Inf false)) with (Inf false).
      destruct (Float64.negative a); exact I.
    + destruct (Float64.negative a) eqn:Na;
        [destruct (Float64.negative b); exact I|].
      destruct (Float64.negative b) eqn:Nb; [|exact I].
      apply negative_iff in Nb. apply not_negative in Na.
      unfold Float64.le in Hxy. lra.
  - (* a finite constant *)
    unfold Float64.le in Hc.
    destruct x as [|[]|a], y as [|[]|b]; try (destruct Hxy; fail);
      rewrite ?(mul_fin_inf c _ Hc Nx), ?(mul_fin_inf c _ Hc Ny);
      try exact I;
      try (apply le_of_neg_inf, of_Q_not_nan);
      try (apply le_to_pos_inf, of_Q_not_nan).
    apply of_Q_monotone. unfold Float64.le in Hxy. nra.
Qed.

Lemma of_Z_nonneg (n : Z) : 0 <= n -> Float64.le (Fin 0) (Float64.of_Z n).
Proof.
  intros Hn.
  change (Fin 0) with (Float64.of_Q (inject_Z 0)).
  apply of_Q_monotone. rewrite <- Zle_Qle. exact Hn.
Qed.

Lemma of_Z_100 : Float64.of_Z 100 = Fin 100.
Proof. reflexivity. Qed.

Lemma int_round_ok (py : PyVersion) (x : double) (c : Z) :
  Float64.int_round py x = Ok c -> exists q, x = Fin q /\ c = Py.round py q.
Proof.
  destruct x as [| |q]; cbn; intros H; try discriminate.
  injection H as <-. exists q. split; reflexivity.
Qed.

(** ** THetA *)

Section CountFacts.

Variable py : PyVersion.
Variable pow2 : double -> double.

(** The three roundings are exact when [2 ** log2] is a power of two and
    the products fit in 53 bits. *)
Lemma logratio2count_exact (n k : Z) (l : double) :
  0 <= n -> 100000 * n < 2 ^ 53 -> -1074 <= k <= 971 ->
  Float64.eq (pow2 l) (Fin (2 ^ k)) ->
  logratio2count py pow2 100 100 (1000 * n) l
  = Ok (Py.round py (inject_Z (1000 * n) * 2 ^ k)).
Proof.
  intros Hn Hb Hk Hp. unfold logratio2count. rewrite of_Z_100.
  destruct (pow2 l) as [| |a]; try (destruct Hp; fail).
  unfold Float64.eq in Hp.
  assert (E1 : Float64.mul (Fin a) (Fin 100) = Fin (Qred (a * 100))).
  { unfold Float64.mul. apply (of_Q_exact _ 100 k); [cbn; lia|
      unfold Float64.emin; lia|]. rewrite Hp. change (inject_Z 100) with 100%Q.
    ring. }
  rewrite E1.
  assert (E2 : Float64.of_Z (1000 * n) = Fin (Qred (inject_Z (1000 * n)))).
  { unfold Float64.of_Z. apply (of_Q_exact _ (1000 * n) 0);
      [lia|unfold Float64.emin; lia|]. change (2 ^ 0)%Q with 1%Q. ring. }
  rewrite E2.
  assert (E3 : Float64.mul (Fin (Qred (inject_Z (1000 * n))))
                           (Fin (Qred (a * 100)))
               = Fin (Qred (Qred (inject_Z (1000 * n)) * Qred (a * 100)))).
  { unfold Float64.mul. apply (of_Q_exact _ (100000 * n) k);
      [lia|unfold Float64.emin; lia|].
    rewrite !Qred_correct, Hp.
    replace (100000 * n) with (1000 * n * 100) by lia.
    rewrite (inject_Z_mult (1000 * n) 100).
    change (inject_Z 100) with 100%Q. ring. }
  rewrite E3.
  assert (V : (Qred (Qred (inject_Z (1000 * n)) * Qred (a * 100)) / 100
               == inject_Z (1000 * n) * 2 ^ k)%Q).
  { rewrite !Qred_correct, Hp. field. }
  assert (E4 : Float64.div
                 (Fin (Qred (Qred (inject_Z (1000 * n)) * Qred (a * 100))))
                 (Fin 100)
               = Fin (Qred (Qred (Qred (inject_Z (1000 * n))
                                  * Qred (a * 100)) / 100))).
  { unfold Float64.div. change (Float64.is_zero 100) with false. cbv iota.
    apply (of_Q_exact _ (1000 * n) k); [lia|unfold Float64.emin; lia|].
    exact V. }
  rewrite E4. cbn [Float64.int_round]. f_equal.
  apply round_comp. rewrite Qred_correct. exact V.
Qed.

(** The count does not decrease with [log2] where the power does not. *)
Lemma logratio2count_monotone (n : Z) (l1 l2 : double) (c1 c2 : Z) :
  0 <= n ->
  (forall x y, Float64.le x y -> Float64.le (pow2 x) (pow2 y)) ->
  Float64.le l1 l2 ->
  logratio2count py pow2 100 100 (1000 * n) l1 = Ok c1 ->
  logratio2count py pow2 100 100 (1000 * n) l2 = Ok c2 ->
  c1 <= c2.
Proof.
  intros Hn Hmono Hl. unfold logratio2count. rewrite of_Z_100.
  intros H1 H2.
  apply int_round_ok in H1, H2.
  destruct H1 as [q1 [E1 ->]]. destruct H2 as [q2 [E2 ->]].
  pose proof (Hmono l1 l2 Hl) as Hp.
  pose proof (mul_monotone_r 100 _ _ ltac:(reflexivity) Hp) as Hd.
  assert (N1 : Float64.mul (Float64.of_Z (1000 * n))
                           (Float64.mul (pow2 l1) (Fin 100)) <> NaN).
  { intros C. rewrite C in E1. discriminate. }
  assert (N2 : Float64.mul (Float64.of_Z (1000 * n))
                           (Float64.mul (pow2 l2) (Fin 100)) <> NaN).
  { intros C. rewrite C in E2. discriminate. }
  pose proof (mul_monotone_l _ _ _ (of_Z_nonneg (1000 * n) ltac:(lia))
                Hd N1 N2) as Hc.
  pose proof (div_monotone_r 100 _ _ ltac:(reflexivity) Hc) as Hr.
  rewrite E1, E2 in Hr. apply round_monotone. exact Hr.
Qed.

End CountFacts.

Lemma pow2_step_monotone (x y : double) :
  Float64.le x y -> Float64.le (pow2_step x) (pow2_step y).
Proof.
  assert (Z : forall q, Float64.le (Fin 0) (Float64.of_Q (2 ^ Qfloor q))).
  { intros q. change (Fin 0) with (Float64.of_Q 0).
    apply of_Q_monotone, Qlt_le_weak, two_pow_pos. }
  destruct x as [|[]|a], y as [|[]|b]; intros H; try (destruct H; fail);
    unfold pow2_step; try exact I; try apply Z.
  - unfold Float64.le. lra.
  - apply le_to_pos_inf, of_Q_not_nan.
  - apply of_Q_monotone, two_pow_le, Qfloor_resp_le. exact H.
Qed.

(** C3 fails on the code.  With one probe and [log2 = -0.9615638183438919]
    the power is [0.5135]; the three operations of [logratio2count] round
    in turn to 51.349999999999994, 51349.99999999999 and 513.4999999999999,
    and the count is 513, while [round(1000 * probes * 2 ** log2)] rounds
    once, to 513.5, and answers 514, under either interpreter.  And at
    [log2 = 0] the count is not [1000 * probes] once that product has more
    than 53 bits: for 72057594037929 probes it is 72057594037928992. *)
Lemma logratio2count_rounding_counterexample :
  logratio2count Python3 pow2_measured 100 100 (1000 * 1)
    (Fin (-4330498453986503 # 4503599627370496)) = Ok 513
  /\ Float64.int_round Python3
       (Float64.mul (Float64.of_Z (1000 * 1))
          (pow2_measured (Fin (-4330498453986503 # 4503599627370496))))
     = Ok 514
  /\ logratio2count Python2 pow2_measured 100 100 (1000 * 1)
       (Fin (-4330498453986503 # 4503599627370496)) = Ok 513
  /\ Float64.int_round Python2
       (Float64.mul (Float64.of_Z (1000 * 1))
          (pow2_measured (Fin (-4330498453986503 # 4503599627370496))))
     = Ok 514
  /\ logratio2count Python3 pow2_measured 100 100 (1000 * 72057594037929)
       (Fin 0) = Ok 72057594037928992.
Proof. vm_compute. repeat split; reflexivity. Qed.

Lemma bind_ok {A B} (r : Result A) (k : A -> Result B) (b : B) :
  bind r k = Ok b -> exists a, r = Ok a /\ k a = Ok b.
Proof.
  destruct r as [a|e]; cbn; intros H; [|discriminate].
  exists a. split; [reflexivity|exact H].
Qed.

Lemma calculate_theta_fields_ok (py : PyVersion) (pow2 : double -> double)
    (mean : list Q -> double) (seg : Segment) (ref_log2 : list Q)
    (chrom_id : Z) (row : ThetaRow) :
  calculate_theta_fields py pow2 mean seg ref_log2 chrom_id = Ok row ->
  exists tumor_count ref_count,
    logratio2count py pow2 100 100 (1000 * probes seg) (Fin (log2 seg))
    = Ok tumor_count
    /\ logratio2count py pow2 100 100 (1000 * probes seg) (mean ref_log2)
       = Ok ref_count
    /\ row = ("start_" ++ Py.fmt_d chrom_id ++ "_" ++ Py.fmt_d (start seg)
              ++ ":end_" ++ Py.fmt_d chrom_id ++ "_" ++ Py.fmt_d (end_ seg),
              chrom_id, start seg, end_ seg, tumor_count, ref_count).
Proof.
  unfold calculate_theta_fields. intros H.
  apply bind_ok in H. destruct H as [t [Ht H]].
  apply bind_ok in H. destruct H as [r [Hr H]].
  injection H as <-. exists t, r. repeat split; assumption.
Qed.

(** C3, amended.  With the scaling variables of [calculate_theta_fields]
    (expected depth 100, read length 100, segment size [1000 * probes])
    [logratio2count] returns
    [round((1000 * probes) * (2 ** log2 * 100) / 100)] with each of the
    three operations rounded to a float.  Where no operation rounds, that
    is where [2 ** log2] is a power of two and [100000 * probes] has at most
    53 bits, this is [round(1000 * probes * 2 ** log2)]; in particular at
    [log2 = 0] it is [1000 * probes].  For a probe count that is not
    negative the count does not decrease when [log2] grows, wherever the
    power of the platform does not.  Both counts of a THetA row are computed
    this way. *)
Theorem logratio2count_rounds_each_operation :
  forall (py : PyVersion) (pow2 : double -> double) (n : Z),
    let count := logratio2count py pow2 100 100 (1000 * n) in
    (forall l,
        count l
        = Float64.int_round py
            (Float64.div
               (Float64.mul (Float64.of_Z (1000 * n))
                            (Float64.mul (pow2 l) (Float64.of_Z 100)))
               (Float64.of_Z 100)))
    /\ (forall l k,
           0 <= n -> 100000 * n < 2 ^ 53 -> -1074 <= k <= 971 ->
           Float64.eq (pow2 l) (Fin (2 ^ k)) ->
           count l = Ok (Py.round py (inject_Z (1000 * n) * 2 ^ k))
           /\ count l
              = Float64.int_round py
                  (Float64.mul (Float64.of_Z (1000 * n)) (pow2 l)))
    /\ (0 <= n -> 100000 * n < 2 ^ 53 ->
        Float64.eq (pow2 (Fin 0)) (Fin 1) ->
        count (Fin 0) = Ok (1000 * n))
    /\ (0 <= n ->
        (forall x y, Float64.le x y -> Float64.le (pow2 x) (pow2 y)) ->
        forall l1 l2 c1 c2,
          Float64.le l1 l2 -> count l1 = Ok c1 -> count l2 = Ok c2 ->
          c1 <= c2)
    /\ (forall mean seg ref_log2 chrom_id row,
           probes seg = n ->
           calculate_theta_fields py pow2 mean seg ref_log2 chrom_id
           = Ok row ->
           count (Fin (log2 seg)) = Ok (theta_tumor_count row)
           /\ count (mean ref_log2) = Ok (theta_normal_count row)).
Proof.
  intros py pow2 n count. unfold count.
  split; [reflexivity|]. split; [|split; [|split]].
  - intros l k Hn Hb Hk Hp.
    rewrite (logratio2count_exact py pow2 n k l Hn Hb Hk Hp).
    split; [reflexivity|].
    destruct (pow2 l) as [| |a]; try (destruct Hp; fail).
    unfold Float64.eq in Hp.
    assert (E : Float64.of_Z (1000 * n) = Fin (Qred (inject_Z (1000 * n)))).
    { unfold Float64.of_Z. apply (of_Q_exact _ (1000 * n) 0);
        [lia|unfold Float64.emin; lia|]. change (2 ^ 0)%Q with 1%Q. ring. }
    rewrite E.
    assert (V : (Qred (inject_Z (1000 * n)) * a
                 == inject_Z (1000 * n) * 2 ^ k)%Q)
      by (rewrite Qred_correct, Hp; reflexivity).
    unfold Float64.mul.
    rewrite (of_Q_exact _ (1000 * n) k ltac:(lia)
               ltac:(unfold Float64.emin; lia) V).
    cbn [Float64.int_round]. f_equal. symmetry.
    apply round_comp. rewrite Qred_correct. exact V.
  - intros Hn Hb Hp.
    rewrite (logratio2count_exact py pow2 n 0 (Fin 0) Hn Hb ltac:(lia) Hp).
    f_equal. rewrite <- (round_inject_Z py (1000 * n)) at 2.
    apply round_comp. change (2 ^ 0)%Q with 1%Q. ring.
  - intros Hn Hmono l1 l2 c1 c2.
    apply (logratio2count_monotone py pow2 n l1 l2 c1 c2 Hn Hmono).
  - intros mean seg ref_log2 chrom_id row <- H.
    apply calculate_theta_fields_ok in H.
    destruct H as [t [r [Ht [Hr ->]]]]. split; assumption.
Qed.

Lemma logratio2count_rounds_each_operation_witness :
  logratio2count Python3 pow2_step 100 100 (1000 * 10) (Fin 0)
  = Ok (1000 * 10)
  /\ 10000 <= 20000.
Proof.
  split.
  - apply (proj1 (proj2 (proj2
             (logratio2count_rounds_each_operation Python3 pow2_step 10)))).
    + lia.
    + reflexivity.
    + reflexivity.
  - apply (proj1 (proj2 (proj2 (proj2
             (logratio2count_rounds_each_operation Python3 pow2_step 10))))
             ltac:(lia) pow2_step_monotone (Fin 0) (Fin 1)).
    + discriminate.
    + reflexivity.
    + reflexivity.
Defined.

(** ** The worked examples of the specification *)

Example example1_bed :
  forall py : PyVersion,
    segments2bed py (const_resolver [2%Q]) [seg_chr1] "tumor" 2 false false
    = []
    /\ segments2bed py (const_resolver [2%Q]) [seg_chr1] "tumor" 2 false true
       = [("chr1", 0, 100, "tumor", 2)].
Proof. intros []; split; reflexivity. Qed.

Example example2_vcf :
  forall py : PyVersion,
    segments2vcf py (const_resolver [1%Q]) [seg_chr1] 2 false
    = [("chr1", 1, "DEL", "IMPRECISE;SVTYPE=DEL;END=100;SVLEN=-100",
        "GT:GQ", "0/1:5")].
Proof. intros []; reflexivity. Qed.

Example example3_theta :
  forall py : PyVersion,
    calculate_theta_fields py pow2_step mean_in_order
      (mkSegment "chr1" 0 100 "" 1 10) [0%Q] 1
    = Ok ("start_1_0:end_1_100", 1, 0, 100, 20000, 10000).
Proof. intros []; reflexivity. Qed.

Example fmt_g_samples :
  map Py.fmt_g [0; 5; 999999; 1000000; 1234567]
  = ["0"; "5"; "999999"; "1e+06"; "1.23457e+06"].
Proof. reflexivity. Qed.

(* ------------------------------------------------------------------ *)
(** * Further properties of the code *)

(** ** The chromosome ids *)

Lemma create_chrom_ids_loop_nodup (names : list string) :
  forall (mapping : ChromIds) (curr_idx : Z),
    NoDup (keys mapping) ->
    NoDup (keys (create_chrom_ids_loop names mapping curr_idx)).
Proof.
  induction names as [|name rest IH]; intros mapping curr_idx Hnd;
    [exact Hnd|].
  cbn [create_chrom_ids_loop].
  destruct (dict_contains mapping name) eqn:Hc; cbn [negb];
    [apply IH, Hnd|].
  apply IH. rewrite keys_app. cbn [keys map fst].
  apply NoDup_app; [exact Hnd|repeat constructor; intros []|].
  intros x Hx [<-|[]]. apply dict_contains_keys in Hx. congruence.
Qed.

Lemma seq_snoc (n : nat) :
  (map Z.of_nat (seq 1 n) ++ [Z.of_nat n + 1])%list
  = map Z.of_nat (seq 1 (S n)).
Proof.
  rewrite seq_S, map_app. cbn [map]. do 2 f_equal. lia.
Qed.

Lemma create_chrom_ids_loop_values (names : list string) :
  forall (mapping : ChromIds) (curr_idx : Z),
    map snd mapping = map Z.of_nat (seq 1 (List.length mapping)) ->
    curr_idx = Z.of_nat (List.length mapping) + 1 ->
    let ids := create_chrom_ids_loop names mapping curr_idx in
    map snd ids = map Z.of_nat (seq 1 (List.length ids)).
Proof.
  induction names as [|name rest IH]; intros mapping curr_idx Hv Hi;
    [exact Hv|].
  cbn [create_chrom_ids_loop].
  destruct (dict_contains mapping name); cbn [negb];
    [apply IH; assumption|].
  apply IH.
  - rewrite map_app, length_app, Hv, Hi. cbn [map snd List.length].
    rewrite Nat.add_1_r. apply seq_snoc.
  - rewrite length_app. cbn [List.length]. lia.
Qed.

(** X1. The mapping of [create_chrom_ids] has each chromosome name of the array
    once as a key, and its values are 1, 2, ..., k in the order of
    insertion: increasing and without a gap. *)
Theorem create_chrom_ids_consecutive :
  forall segments : CopyNumArray,
    let ids := create_chrom_ids segments in
    NoDup (keys ids)
    /\ same_set (keys ids) (chroms segments)
    /\ map snd ids = map Z.of_nat (seq 1 (List.length ids)).
Proof.
  intros segments ids. split; [|split].
  - apply create_chrom_ids_loop_nodup. constructor.
  - apply create_chrom_ids_keys.
  - apply create_chrom_ids_loop_values; reflexivity.
Qed.

Lemma dict_get_In {V} (d : list (string * V)) (key : string) (v : V) :
  dict_get d key = Some v -> In (key, v) d.
Proof.
  induction d as [|[k w] d IH]; [discriminate|].
  cbn [dict_get]. destruct (String.eqb_spec k key) as [->|N].
  - intros H. injection H as ->. left. reflexivity.
  - intros H. right. apply IH, H.
Qed.

Lemma NoDup_map_of_nat (l : list nat) :
  NoDup l -> NoDup (map Z.of_nat l).
Proof.
  induction 1 as [|n l Hn _ IH]; cbn [map]; constructor; [|exact IH].
  intros Hin. apply in_map_iff in Hin as [m [E Hm]].
  apply Nat2Z.inj in E. subst m. exact (Hn Hm).
Qed.

Lemma consecutive_values_injective (d : ChromIds) :
  map snd d = map Z.of_nat (seq 1 (List.length d)) ->
  forall k1 k2 v, In (k1, v) d -> In (k2, v) d -> k1 = k2.
Proof.
  intros Hv k1 k2 v H1 H2.
  assert (Hnd : NoDup (map snd d)).
  { rewrite Hv. apply NoDup_map_of_nat, seq_NoDup. }
  clear Hv. induction d as [|[k w] d IH]; [destruct H1|].
  cbn [map snd] in Hnd. inversion Hnd as [|x l Hnot Hnd']; subst.
  destruct H1 as [E1|H1], H2 as [E2|H2].
  - congruence.
  - injection E1 as -> ->. exfalso. apply Hnot.
    apply (in_map snd) in H2. exact H2.
  - injection E2 as -> ->. exfalso. apply Hnot.
    apply (in_map snd) in H1. exact H1.
  - apply IH; assumption.
Qed.

Lemma consecutive_values_range (d : ChromIds) :
  map snd d = map Z.of_nat (seq 1 (List.length d)) ->
  forall k v, In (k, v) d -> 1 <= v <= Z.of_nat (List.length d).
Proof.
  intros Hv k v Hin. apply (in_map snd) in Hin. rewrite Hv in Hin.
  cbn [snd] in Hin.
  apply in_map_iff in Hin as [n [<- Hn]]. apply in_seq in Hn. lia.
Qed.

(** X2. Looking up a chromosome of the array in its own mapping never raises:
    it answers an id between 1 and the number of keys, and two different
    chromosomes never share an id. *)
Theorem create_chrom_ids_lookup :
  forall (segments : CopyNumArray) (row : Segment),
    In row (data segments) ->
    let ids := create_chrom_ids segments in
    exists id,
      dict_getitem ids (chromosome row) = Ok id
      /\ 1 <= id <= Z.of_nat (List.length ids)
      /\ forall row',
           In row' (data segments) ->
           dict_getitem ids (chromosome row') = Ok id ->
           chromosome row' = chromosome row.
Proof.
  intros segments row Hin ids.
  pose proof (create_chrom_ids_loop_values (map chromosome (data segments))
                [] 1 eq_refl eq_refl) as Hv.
  fold (create_chrom_ids segments) in Hv. cbv zeta in Hv. fold ids in Hv.
  destruct (dict_get_in_keys ids (chromosome row)) as [id Hg].
  { apply create_chrom_ids_keys. unfold chroms. apply in_map, Hin. }
  exists id. unfold dict_getitem. rewrite Hg. split; [reflexivity|]. split.
  - apply (consecutive_values_range ids Hv (chromosome row)).
    apply dict_get_In, Hg.
  - intros row' _ H'.
    destruct (dict_get ids (chromosome row')) as [id'|] eqn:Hg';
      [|discriminate].
    injection H' as ->.
    apply (consecutive_values_injective ids Hv _ _ id);
      apply dict_get_In; assumption.
Qed.

Lemma create_chrom_ids_lookup_witness :
  exists id,
    dict_getitem (create_chrom_ids cna_b) "chr1" = Ok id
    /\ 1 <= id <= 2
    /\ forall row',
         In row' (data cna_b) ->
         dict_getitem (create_chrom_ids cna_b) (chromosome row') = Ok id ->
         chromosome row' = "chr1".
Proof.
  apply (create_chrom_ids_lookup cna_b (mkSegment "chr1" 0 100 "" (1 # 4) 0)).
  simpl. right. left. reflexivity.
Defined.

Lemma create_chrom_ids_loop_app (l1 l2 : list string) :
  forall (mapping : ChromIds) (curr_idx : Z),
    exists ext idx,
      create_chrom_ids_loop l1 mapping curr_idx = (mapping ++ ext)%list
      /\ create_chrom_ids_loop (l1 ++ l2) mapping curr_idx
         = create_chrom_ids_loop l2 (mapping ++ ext)%list idx.
Proof.
  induction l1 as [|name rest IH]; intros mapping curr_idx.
  - exists [], curr_idx. rewrite app_nil_r. split; reflexivity.
  - cbn [create_chrom_ids_loop app].
    destruct (dict_contains mapping name); cbn [negb].
    + apply IH.
    + destruct (IH (mapping ++ [(name, curr_idx)])%list (curr_idx + 1))
        as [ext [idx [H1 H2]]].
      exists ((name, curr_idx) :: ext), idx.
      rewrite <- app_assoc in H1, H2. split; assumption.
Qed.

Lemma create_chrom_ids_loop_extends (names : list string) :
  forall (mapping : ChromIds) (curr_idx : Z),
    exists ext,
      create_chrom_ids_loop names mapping curr_idx = (mapping ++ ext)%list.
Proof.
  intros mapping curr_idx.
  destruct (create_chrom_ids_loop_app names [] mapping curr_idx)
    as [ext [_ [H _]]].
  exists ext. exact H.
Qed.

(** X3. Ids are given in the order of first appearance and never revised: the
    mapping of an array is a prefix of the mapping of the array with more
    rows appended, so a chromosome keeps the id it got when first met. *)
Theorem create_chrom_ids_prefix_stable :
  forall (sid sid' : string) (hp hp' : bool) (rows more : list Segment),
    exists ext,
      create_chrom_ids (mkCNA sid' hp' (rows ++ more))
      = (create_chrom_ids (mkCNA sid hp rows) ++ ext)%list
      /\ forall c id,
          dict_get (create_chrom_ids (mkCNA sid hp rows)) c = Some id ->
          dict_get (create_chrom_ids (mkCNA sid' hp' (rows ++ more))) c
          = Some id.
Proof.
  intros sid sid' hp hp' rows more. unfold create_chrom_ids. cbn [data].
  rewrite map_app.
  destruct (create_chrom_ids_loop_app (map chromosome rows)
              (map chromosome more) [] 1) as [ext [idx [H1 H2]]].
  cbn [app] in H1, H2. rewrite H2, H1.
  destruct (create_chrom_ids_loop_extends (map chromosome more) ext idx)
    as [ext' ->].
  exists ext'. split; [reflexivity|].
  intros c id. generalize ext as d. intros d.
  induction d as [|[k v] d IH]; [discriminate|].
  cbn [dict_get app]. destruct (k =? c)%string; [auto|exact IH].
Qed.

Lemma create_chrom_ids_prefix_stable_witness :
  dict_get (create_chrom_ids (mkCNA "B" false (data cna_b ++ data cna_a)))
           "chr2"
  = Some 1.
Proof.
  destruct (create_chrom_ids_prefix_stable "B" "B" false false (data cna_b)
              (data cna_a)) as [ext [_ H]].
  apply H. reflexivity.
Defined.

(** ** SEG: errors and size of the output *)

(** X4. [export_seg] raises only two errors: the unbound [outheader] when
    there is no sample at all, and the chromosome-names error for some later
    sample.  The lookup [chrom_ids[row['chromosome']]] never raises
    KeyError. *)
Theorem export_seg_errors :
  forall (samples : list CopyNumArray) (e : PyError),
    export_seg samples = Raise e ->
    (samples = [] /\ e = UnboundLocalError "outheader")
    \/ (samples <> []
        /\ e = ValidationError "Segment chromosome names differ").
Proof.
  intros [|first rest] e H.
  - left. split; [reflexivity|]. cbn in H. congruence.
  - right. split; [discriminate|].
    destruct (export_seg_first first rest) as [rows0 [_ Hexp]].
    rewrite Hexp in H.
    destruct (samples_agree_or_not (create_chrom_ids first) rest)
      as [Hall|Hex].
    + destruct (export_seg_loop_ok rest rows0 _ (header_for first) Hall)
        as [rowss [Hok _]].
      rewrite Hok in H. discriminate.
    + rewrite (export_seg_loop_fail rest rows0 _ (header_for first) Hex)
        in H. congruence.
Qed.

Lemma export_seg_errors_witness :
  ([] = @nil CopyNumArray /\ UnboundLocalError "outheader"
                             = UnboundLocalError "outheader")
  \/ (@nil CopyNumArray <> []
      /\ UnboundLocalError "outheader"
         = ValidationError "Segment chromosome names differ").
Proof.
  apply (export_seg_errors [] (UnboundLocalError "outheader")).
  reflexivity.
Defined.

Lemma length_concat_rows (samples : list CopyNumArray)
    (ids : ChromIds) (rowss : list (list SegRow)) :
  Forall2 (sample_rows ids) samples rowss ->
  List.length (List.concat rowss)
  = list_sum (map (fun s => List.length (data s)) samples).
Proof.
  induction 1 as [|s rs samples rowss Hs _ IH]; [reflexivity|].
  unfold sample_rows in Hs. apply Forall2_length in Hs.
  cbn [List.concat map]. rewrite length_app, IH.
  change (list_sum (?a :: ?l)) with (a + list_sum l)%nat.
  rewrite Hs. reflexivity.
Qed.

(** X5. A single sample is always exported, under its own header; and whenever
    [export_seg] succeeds it returns exactly one row per segment of every
    sample. *)
Theorem export_seg_row_count :
  forall (samples : list CopyNumArray),
    (forall s, exists rows,
        export_seg [s] = Ok (header_for s, rows)
        /\ List.length rows = List.length (data s))
    /\ forall header rows,
        export_seg samples = Ok (header, rows) ->
        List.length rows
        = list_sum (map (fun s => List.length (data s)) samples).
Proof.
  intros samples. split.
  - intros s. destruct (export_seg_first s []) as [rows0 [Hr Hexp]].
    exists rows0. rewrite Hexp. cbn [export_seg_loop].
    split; [reflexivity|].
    unfold sample_rows in Hr. apply Forall2_length in Hr. lia.
  - intros header rows Hok. destruct samples as [|first rest].
    + cbn in Hok. discriminate.
    + destruct (export_seg_first first rest) as [rows0 [Hr0 Hexp]].
      rewrite Hexp in Hok.
      destruct (samples_agree_or_not (create_chrom_ids first) rest)
        as [Hall|Hex].
      2:{ rewrite (export_seg_loop_fail rest rows0 _ (header_for first) Hex)
            in Hok. discriminate. }
      destruct (export_seg_loop_ok rest rows0 _ (header_for first) Hall)
        as [rowss [Hl Hf]].
      rewrite Hl in Hok. injection Hok as _ <-.
      change (rows0 ++ List.concat rowss)%list
        with (List.concat (rows0 :: rowss)).
      apply (length_concat_rows (first :: rest) (create_chrom_ids first)).
      constructor; assumption.
Qed.

Lemma export_seg_row_count_witness :
  List.length
    [[CStr "A"; CInt 1; CInt 0; CInt 100; CInt 5; CNum 0%Q];
     [CStr "A"; CInt 2; CInt 0; CInt 50; CInt 3; CNum (1 # 2)%Q];
     [CStr "B"; CInt 2; CInt 10; CInt 60; CNum 0%Q];
     [CStr "B"; CInt 1; CInt 0; CInt 100; CNum (1 # 4)%Q]]
  = list_sum (map (fun s => List.length (data s)) [cna_a; cna_b]).
Proof.
  apply (proj2 (export_seg_row_count [cna_a; cna_b])
               ["ID"; "Chromosome"; "Start"; "End"; "Mean"]).
  reflexivity.
Defined.

(** ** THetA: chromosome ids and counts *)

Lemma export_theta_loop_cons (py : PyVersion) (pow2 : double -> double)
    (mean : list Q -> double) (seg : Segment) (refs : list Q)
    (rest : list (Segment * list Q)) (prev : option string) (cid : Z)
    (rows : list ThetaRow) :
  export_theta_loop py pow2 mean ((seg, refs) :: rest) prev cid = Ok rows ->
  exists r rows',
    rows = r :: rows'
    /\ theta_chrom_id r
       = (if match prev with
             | Some c => negb (chromosome seg =? c)%string
             | None => true
             end then cid + 1 else cid)
    /\ theta_start r = start seg
    /\ theta_end r = end_ seg
    /\ export_theta_loop py pow2 mean rest (Some (chromosome seg))
         (if match prev with
             | Some c => negb (chromosome seg =? c)%string
             | None => true
             end then cid + 1 else cid)
       = Ok rows'.
Proof.
  cbn [export_theta_loop]. intros H.
  apply bind_ok in H. destruct H as [r [Hr H]].
  apply bind_ok in H. destruct H as [rows' [Hrows H]].
  injection H as <-.
  apply calculate_theta_fields_ok in Hr.
  destruct Hr as [t [n [_ [_ ->]]]].
  eexists. exists rows'. repeat split. exact Hrows.
Qed.

Lemma export_theta_ok (py : PyVersion) (pow2 : double -> double)
    (mean : list Q -> double) (groups : list (Segment * list Q))
    (header : list string) (rows : list ThetaRow) :
  export_theta py pow2 mean groups = Ok (header, rows) ->
  header = ["#ID"; "chrm"; "start"; "end"; "tumorCount"; "normalCount"]
  /\ export_theta_loop py pow2 mean groups None 0 = Ok rows.
Proof.
  unfold export_theta. intros H.
  apply bind_ok in H. destruct H as [rows' [Hl H]].
  injection H as <- <-. split; [reflexivity|exact Hl].
Qed.

Lemma export_theta_loop_shape (py : PyVersion) (pow2 : double -> double)
    (mean : list Q -> double) :
  forall (groups : list (Segment * list Q)) (prev : option string)
         (cid : Z) (rows : list ThetaRow),
    export_theta_loop py pow2 mean groups prev cid = Ok rows ->
    List.length rows = List.length groups
    /\ map theta_start rows = map (fun g => start (fst g)) groups
    /\ map theta_end rows = map (fun g => end_ (fst g)) groups.
Proof.
  induction groups as [|[seg refs] rest IH]; intros prev cid rows Hok.
  - injection Hok as <-. repeat split.
  - apply export_theta_loop_cons in Hok.
    destruct Hok as [r [rows' [-> [_ [Hs [He Hrest]]]]]].
    destruct (IH _ _ _ Hrest) as [Hl [Hs' He']].
    cbn [List.length map fst]. rewrite Hl, Hs, He, Hs', He'. repeat split.
Qed.

Lemma export_theta_loop_adjacent (py : PyVersion) (pow2 : double -> double)
    (mean : list Q -> double) :
  forall (groups : list (Segment * list Q)) (prev : option string)
         (cid : Z) (rows : list ThetaRow) (i : nat) g1 g2 r1 r2,
    export_theta_loop py pow2 mean groups prev cid = Ok rows ->
    nth_error groups i = Some g1 ->
    nth_error groups (S i) = Some g2 ->
    nth_error rows i = Some r1 ->
    nth_error rows (S i) = Some r2 ->
    theta_chrom_id r2
    = theta_chrom_id r1
      + (if (chromosome (fst g1) =? chromosome (fst g2))%string
         then 0 else 1).
Proof.
  induction groups as [|[seg refs] rest IH];
    intros prev cid rows i g1 g2 r1 r2 Hok H1 H2 Hr1 Hr2;
    [destruct i; discriminate|].
  apply export_theta_loop_cons in Hok.
  destruct Hok as [r [rows' [-> [Hc [_ [_ Hrest]]]]]].
  destruct i as [|i].
  - destruct rest as [|[seg2 refs2] rest]; [discriminate|].
    apply export_theta_loop_cons in Hrest.
    destruct Hrest as [r' [rows'' [-> [Hc' _]]]].
    cbn [nth_error] in H1, H2, Hr1, Hr2.
    injection H1 as <-. injection H2 as <-.
    injection Hr1 as <-. injection Hr2 as <-. cbn [fst].
    rewrite Hc', <- Hc.
    rewrite (String.eqb_sym (chromosome seg2) (chromosome seg)).
    destruct (chromosome seg =? chromosome seg2)%string; cbn [negb]; lia.
  - cbn [nth_error] in H1, H2, Hr1, Hr2.
    apply (IH _ _ _ i g1 g2 r1 r2 Hrest H1 H2 Hr1 Hr2).
Qed.

(** X6. When [export_theta] returns, it has written one row per segment, in
    order; the first row has chromosome id 1, and from one row to the next
    the id stays when the chromosome name is the same and grows by one when
    it differs. *)
Theorem export_theta_chrom_ids :
  forall (py : PyVersion) (pow2 : double -> double)
         (mean : list Q -> double) (groups : list (Segment * list Q))
         (header : list string) (rows : list ThetaRow),
    export_theta py pow2 mean groups = Ok (header, rows) ->
    header = ["#ID"; "chrm"; "start"; "end"; "tumorCount"; "normalCount"]
    /\ List.length rows = List.length groups
    /\ map theta_start rows = map (fun g => start (fst g)) groups
    /\ map theta_end rows = map (fun g => end_ (fst g)) groups
    /\ (groups <> [] -> option_map theta_chrom_id (hd_error rows) = Some 1)
    /\ forall i g1 g2 r1 r2,
        nth_error groups i = Some g1 ->
        nth_error groups (S i) = Some g2 ->
        nth_error rows i = Some r1 ->
        nth_error rows (S i) = Some r2 ->
        theta_chrom_id r2
        = theta_chrom_id r1
          + (if (chromosome (fst g1) =? chromosome (fst g2))%string
             then 0 else 1).
Proof.
  intros py pow2 mean groups header rows Hok.
  apply export_theta_ok in Hok. destruct Hok as [-> Hl].
  destruct (export_theta_loop_shape py pow2 mean groups None 0 rows Hl)
    as [Hn [Hs He]].
  split; [reflexivity|]. split; [exact Hn|]. split; [exact Hs|].
  split; [exact He|]. split.
  - destruct groups as [|[seg refs] rest]; [congruence|]. intros _.
    apply export_theta_loop_cons in Hl.
    destruct Hl as [r [rows' [-> [Hc _]]]]. cbn [hd_error option_map].
    rewrite Hc. reflexivity.
  - intros i g1 g2 r1 r2.
    apply (export_theta_loop_adjacent py pow2 mean groups None 0 rows i
             g1 g2 r1 r2 Hl).
Qed.

Lemma export_theta_chrom_ids_witness :
  theta_chrom_id ("start_2_0:end_2_50", 2, 0, 50, 2000, 8000)
  = theta_chrom_id ("start_1_100:end_1_200", 1, 100, 200, 6000, 6000)
    + (if ("chr1" =? "chr2")%string then 0 else 1).
Proof.
  apply (proj2 (proj2 (proj2 (proj2 (proj2
           (export_theta_chrom_ids Python3 pow2_step mean_in_order
              theta_sample
              ["#ID"; "chrm"; "start"; "end"; "tumorCount"; "normalCount"]
              [("start_1_0:end_1_100", 1, 0, 100, 5000, 5000);
               ("start_1_100:end_1_200", 1, 100, 200, 6000, 6000);
               ("start_2_0:end_2_50", 2, 0, 50, 2000, 8000)]
              eq_refl)))))
           1%nat
           (mkSegment "chr1" 100 200 "" 1 3, [0%Q; 2%Q])
           (mkSegment "chr2" 0 50 "" (-1) 4, [1%Q]));
    reflexivity.
Defined.

Lemma dict_get_app_last {V} (d ext : list (string * V)) (key : string)
    (v : V) :
  ~ In key (keys d) ->
  dict_get (d ++ (key, v) :: ext) key = Some v.
Proof.
  induction d as [|[k w] d IH]; intros Hnot.
  - cbn [app dict_get]. rewrite String.eqb_refl. reflexivity.
  - cbn [app dict_get]. destruct (String.eqb_spec k key) as [->|N].
    + exfalso. apply Hnot. left. reflexivity.
    + apply IH. intros Hin. apply Hnot. right. exact Hin.
Qed.

Lemma theta_ids_agree_loop (py : PyVersion) (pow2 : double -> double)
    (mean : list Q -> double) :
  forall (groups : list (Segment * list Q)) (m : ChromIds)
         (prev : option string) (cid : Z) (seen : list string)
         (rows : list ThetaRow),
    (forall c, In c seen <-> In c (keys m)) ->
    NoDup (keys m) ->
    match prev with
    | None => m = []
    | Some c => exists m', m = (m' ++ [(c, cid)])%list
    end ->
    grouped_from seen prev (map (fun g => chromosome (fst g)) groups) ->
    export_theta_loop py pow2 mean groups prev cid = Ok rows ->
    Forall2
      (fun g r =>
         dict_get (create_chrom_ids_loop
                     (map (fun g => chromosome (fst g)) groups) m (cid + 1))
                  (chromosome (fst g))
         = Some (theta_chrom_id r))
      groups rows.
Proof.
  induction groups as [|[seg refs] rest IH];
    intros m prev cid seen rows Hseen Hnd Hprev Hg Hok.
  { injection Hok as <-. constructor. }
  apply export_theta_loop_cons in Hok.
  destruct Hok as [r [rows' [-> [Hc [_ [_ Hloop]]]]]].
  cbn [map fst grouped_from] in Hg. destruct Hg as [Hhead Hrest].
  cbn [map fst create_chrom_ids_loop].
  set (c := chromosome seg) in *.
  assert (Hcase : (prev = Some c /\ exists m', m = (m' ++ [(c, cid)])%list)
                  \/ (prev <> Some c /\ ~ In c (keys m))).
  { destruct prev as [p|].
    - destruct (String.eqb_spec p c) as [->|N].
      + left. split; [reflexivity|exact Hprev].
      + right. split; [congruence|].
        destruct Hhead as [E|Hn]; [congruence|].
        intros Hin. apply Hn, Hseen, Hin.
    - right. split; [discriminate|]. subst m. intros []. }
  destruct Hcase as [[-> [m' Hm]]|[Hne Hnot]].
  - (* the same chromosome as the previous row *)
    rewrite String.eqb_refl in Hc, Hloop. cbn [negb] in Hc, Hloop.
    assert (Hin : dict_contains m c = true).
    { apply dict_contains_keys. subst m. rewrite keys_app, in_app_iff.
      right. left. reflexivity. }
    rewrite Hin. cbn [negb].
    assert (Hnot' : ~ In c (keys m')).
    { subst m. rewrite keys_app in Hnd. cbn [keys map fst] in Hnd.
      apply NoDup_remove_2 in Hnd. rewrite app_nil_r in Hnd. exact Hnd. }
    constructor.
    + destruct (create_chrom_ids_loop_extends
                  (map (fun g => chromosome (fst g)) rest) m (cid + 1))
        as [ext ->].
      subst m. rewrite <- app_assoc. cbn [app].
      change (chromosome (fst (seg, refs))) with c.
      rewrite (dict_get_app_last m' ext c cid Hnot'), Hc. reflexivity.
    + apply (IH m (Some c) cid (c :: seen) rows'); try assumption.
      intros x. cbn [In]. rewrite Hseen. split; [|tauto].
      intros [<-|H]; [|exact H]. apply dict_contains_keys, Hin.
  - (* a chromosome not met before *)
    assert (Hchanged : match prev with
                       | Some p => negb (c =? p)%string
                       | None => true
                       end = true).
    { destruct prev as [p|]; [|reflexivity].
      apply negb_true_iff, String.eqb_neq. congruence. }
    rewrite Hchanged in Hc, Hloop.
    assert (Hout : dict_contains m c = false).
    { apply Bool.not_true_iff_false. intros H.
      apply dict_contains_keys in H. exact (Hnot H). }
    rewrite Hout. cbn [negb].
    constructor.
    + destruct (create_chrom_ids_loop_extends
                  (map (fun g => chromosome (fst g)) rest)
                  (m ++ [(c, cid + 1)])%list (cid + 1 + 1)) as [ext ->].
      rewrite <- app_assoc. cbn [app].
      change (chromosome (fst (seg, refs))) with c.
      rewrite (dict_get_app_last m ext c (cid + 1) Hnot), Hc. reflexivity.
    + apply (IH (m ++ [(c, cid + 1)])%list (Some c) (cid + 1) (c :: seen)
                rows').
      * intros x. rewrite keys_app, in_app_iff. cbn [In keys map fst].
        rewrite Hseen. tauto.
      * rewrite keys_app. cbn [keys map fst].
        apply NoDup_app; [exact Hnd|repeat constructor; intros []|].
        intros x Hx [<-|[]]. exact (Hnot Hx).
      * exists m. reflexivity.
      * exact Hrest.
      * exact Hloop.
Qed.

(** X7. When every chromosome occupies one run of consecutive tumor segments
    and [export_theta] returns, the chromosome id it gives a segment is the
    id [create_chrom_ids] gives its chromosome: the two numberings differ
    only for an array in which a chromosome comes back after another one. *)
Theorem export_theta_ids_agree_with_mapper :
  forall (py : PyVersion) (pow2 : double -> double)
         (mean : list Q -> double) (groups : list (Segment * list Q))
         (sid : string) (hp : bool) (header : list string)
         (rows : list ThetaRow),
    grouped (map (fun g => chromosome (fst g)) groups) ->
    export_theta py pow2 mean groups = Ok (header, rows) ->
    Forall2
      (fun g r =>
         dict_get (create_chrom_ids (mkCNA sid hp (map fst groups)))
                  (chromosome (fst g))
         = Some (theta_chrom_id r))
      groups rows.
Proof.
  intros py pow2 mean groups sid hp header rows Hg Hok.
  apply export_theta_ok in Hok. destruct Hok as [_ Hl].
  unfold create_chrom_ids. cbn [data]. rewrite map_map.
  apply (theta_ids_agree_loop py pow2 mean groups [] None 0 [] rows).
  - intros c. cbn. tauto.
  - constructor.
  - reflexivity.
  - exact Hg.
  - exact Hl.
Qed.

Lemma export_theta_ids_agree_with_mapper_witness :
  Forall2
    (fun g r =>
       dict_get (create_chrom_ids (mkCNA "T" true (map fst theta_sample)))
                (chromosome (fst g))
       = Some (theta_chrom_id r))
    theta_sample
    [("start_1_0:end_1_100", 1, 0, 100, 5000, 5000);
     ("start_1_100:end_1_200", 1, 100, 200, 6000, 6000);
     ("start_2_0:end_2_50", 2, 0, 50, 2000, 8000)].
Proof.
  apply (export_theta_ids_agree_with_mapper Python3 pow2_step mean_in_order
           theta_sample "T" true
           ["#ID"; "chrm"; "start"; "end"; "tumorCount"; "normalCount"]).
  - unfold grouped. simpl. split; [right; intros []|].
    split; [left; reflexivity|].
    split; [right; intros [H|[H|[]]]; discriminate H|exact I].
  - reflexivity.
Defined.

Lemma mul_nonneg (x y : double) :
  Float64.le (Fin 0) x -> Float64.le (Fin 0) y ->
  Float64.mul x y = NaN \/ Float64.le (Fin 0) (Float64.mul x y).
Proof.
  intros Hx Hy.
  destruct x as [|[]|a], y as [|[]|b];
    try (destruct Hx; fail); try (destruct Hy; fail);
    unfold Float64.mul; cbn [xorb].
  - right. exact I.
  - unfold Float64.le in Hy. destruct (Float64.is_zero b); [left; reflexivity|].
    rewrite (proj2 (not_negative b) Hy). right. exact I.
  - unfold Float64.le in Hx. destruct (Float64.is_zero a); [left; reflexivity|].
    rewrite (proj2 (not_negative a) Hx). right. exact I.
  - right. unfold Float64.le in Hx, Hy.
    change (Fin 0) with (Float64.of_Q 0). apply of_Q_monotone. nra.
Qed.

Lemma div_nonneg (c : Q) (x : double) :
  (0 < c)%Q -> Float64.le (Fin 0) x ->
  Float64.le (Fin 0) (Float64.div x (Fin c)).
Proof.
  intros Hc Hx.
  assert (E : Float64.div (Fin 0) (Fin c) = Fin 0).
  { unfold Float64.div. rewrite (proj1 (positive_signs c Hc)).
    apply (of_Q_comp (0 / c) 0). field. lra. }
  rewrite <- E at 1. apply div_monotone_r; assumption.
Qed.

Lemma mul_nan_r (x : double) : Float64.mul x NaN = NaN.
Proof. destruct x; reflexivity. Qed.

Lemma logratio2count_nonneg (py : PyVersion) (pow2 : double -> double)
    (n : Z) (l : double) (c : Z) :
  0 <= n ->
  pow2 l = NaN \/ Float64.le (Fin 0) (pow2 l) ->
  logratio2count py pow2 100 100 (1000 * n) l = Ok c ->
  0 <= c.
Proof.
  intros Hn Hp. unfold logratio2count. rewrite of_Z_100. intros H.
  apply int_round_ok in H. destruct H as [q [E ->]].
  destruct Hp as [Hp|Hp].
  { rewrite Hp in E. cbn [Float64.mul] in E. rewrite mul_nan_r in E.
    discriminate. }
  assert (Hd : Float64.le (Fin 0) (Float64.mul (pow2 l) (Fin 100))).
  { change (Fin 0) with (Float64.mul (Fin 0) (Fin 100)).
    apply mul_monotone_r; [reflexivity|exact Hp]. }
  destruct (mul_nonneg _ _ (of_Z_nonneg (1000 * n) ltac:(lia)) Hd)
    as [Hm|Hm].
  { rewrite Hm in E. discriminate. }
  pose proof (div_nonneg 100 _ ltac:(reflexivity) Hm) as Hr.
  rewrite E in Hr. unfold Float64.le in Hr.
  rewrite <- (round_inject_Z py 0). apply round_monotone. exact Hr.
Qed.

Lemma logratio2count_no_probes (py : PyVersion) (pow2 : double -> double)
    (l : double) (c : Z) :
  logratio2count py pow2 100 100 (1000 * 0) l = Ok c -> c = 0.
Proof.
  unfold logratio2count. rewrite of_Z_100.
  change (Float64.of_Z (1000 * 0)) with (Fin 0). intros H.
  apply int_round_ok in H. destruct H as [q [E ->]].
  destruct (Float64.mul (pow2 l) (Fin 100)) as [|s|a].
  - discriminate.
  - discriminate.
  - unfold Float64.mul in E.
    rewrite (of_Q_comp (0 * a) 0) in E by ring.
    change (Float64.of_Q 0) with (Fin 0) in E.
    change (Float64.div (Fin 0) (Fin 100)) with (Fin 0) in E.
    injection E as <-. apply (round_inject_Z py 0).
Qed.

Lemma pow2_step_nonneg (x : double) :
  pow2_step x = NaN \/ Float64.le (Fin 0) (pow2_step x).
Proof.
  destruct x as [|[]|q]; [left; reflexivity|right..].
  - unfold pow2_step, Float64.le. lra.
  - exact I.
  - unfold pow2_step. change (Fin 0) with (Float64.of_Q 0).
    apply of_Q_monotone, Qlt_le_weak, two_pow_pos.
Qed.

(** X8. When [calculate_theta_fields] returns a row for a segment whose
    probe count is not negative, on a platform whose power is never
    negative, neither read count is negative; a segment without probes
    counts no read; and where the power keeps the order of the exponents, a
    tumor log2 at or above the mean of the reference rows gives a tumor
    count at or above the normal count. *)
Theorem theta_counts_nonnegative :
  forall (py : PyVersion) (pow2 : double -> double)
         (mean : list Q -> double) (seg : Segment) (ref_log2 : list Q)
         (chrom_id : Z) (row : ThetaRow),
    0 <= probes seg ->
    (forall x, pow2 x = NaN \/ Float64.le (Fin 0) (pow2 x)) ->
    calculate_theta_fields py pow2 mean seg ref_log2 chrom_id = Ok row ->
    0 <= theta_tumor_count row
    /\ 0 <= theta_normal_count row
    /\ (probes seg = 0 ->
        theta_tumor_count row = 0 /\ theta_normal_count row = 0)
    /\ ((forall x y, Float64.le x y -> Float64.le (pow2 x) (pow2 y)) ->
        Float64.le (mean ref_log2) (Fin (log2 seg)) ->
        theta_normal_count row <= theta_tumor_count row).
Proof.
  intros py pow2 mean seg ref_log2 chrom_id row Hp Hpos Hok.
  apply calculate_theta_fields_ok in Hok.
  destruct Hok as [t [r [Ht [Hr ->]]]].
  cbn [theta_tumor_count theta_normal_count].
  split; [exact (logratio2count_nonneg py pow2 _ _ _ Hp (Hpos _) Ht)|].
  split; [exact (logratio2count_nonneg py pow2 _ _ _ Hp (Hpos _) Hr)|].
  split.
  - intros E. rewrite E in Ht, Hr. split;
      eapply logratio2count_no_probes; eassumption.
  - intros Hmono Hl.
    exact (logratio2count_monotone py pow2 _ _ _ _ _ Hp Hmono Hl Hr Ht).
Qed.

Lemma theta_counts_nonnegative_witness :
  0 <= theta_tumor_count ("start_1_0:end_1_100", 1, 0, 100, 5000, 5000).
Proof.
  apply (theta_counts_nonnegative Python3 pow2_step mean_in_order seg_chr1
           [0%Q] 1 ("start_1_0:end_1_100", 1, 0, 100, 5000, 5000)).
  - simpl. lia.
  - exact pow2_step_nonneg.
  - reflexivity.
Defined.

(** X22. A segment with no reference row fails the export: the mean of no
    value is not a number, so is every float computed from it, and [int]
    refuses it with a [ValueError] (unless the tumor count of the segment
    has already failed). *)
Theorem export_theta_empty_reference_group :
  forall (py : PyVersion) (pow2 : double -> double)
         (mean : list Q -> double),
    mean [] = NaN -> pow2 NaN = NaN ->
    (forall seg chrom_id c,
        logratio2count py pow2 100 100 (1000 * probes seg) (Fin (log2 seg))
        = Ok c ->
        calculate_theta_fields py pow2 mean seg [] chrom_id
        = Raise (ValueError "cannot convert float NaN to integer"))
    /\ (forall groups seg,
           In (seg, []) groups ->
           exists e, export_theta py pow2 mean groups = Raise e).
Proof.
  intros py pow2 mean Hmean Hpow.
  assert (Hnan : forall n,
             logratio2count py pow2 100 100 n NaN
             = Raise (ValueError "cannot convert float NaN to integer")).
  { intros n. unfold logratio2count. rewrite Hpow.
    cbn [Float64.mul]. rewrite mul_nan_r. reflexivity. }
  assert (Hrow : forall seg chrom_id,
             exists e,
               calculate_theta_fields py pow2 mean seg [] chrom_id
               = Raise e).
  { intros seg chrom_id. unfold calculate_theta_fields.
    destruct (logratio2count py pow2 100 100 (1000 * probes seg)
                (Fin (log2 seg))) as [t|e]; cbn [bind].
    - rewrite Hmean, Hnan. cbn [bind]. eexists. reflexivity.
    - exists e. reflexivity. }
  split.
  - intros seg chrom_id c Ht. unfold calculate_theta_fields.
    rewrite Ht. cbn [bind]. rewrite Hmean, Hnan. reflexivity.
  - intros groups seg Hin. unfold export_theta.
    assert (Hloop : forall gs prev cid,
               In (seg, []) gs ->
               exists e, export_theta_loop py pow2 mean gs prev cid
                         = Raise e).
    { induction gs as [|[s refs] rest IH]; intros prev cid Hin';
        [destruct Hin'|]. destruct Hin' as [E|Hin'].
      - injection E as -> ->. cbn [export_theta_loop].
        destruct (Hrow seg (if match prev with
                               | Some c => negb (chromosome seg =? c)%string
                               | None => true
                               end then cid + 1 else cid)) as [e ->].
        exists e. reflexivity.
      - cbn [export_theta_loop].
        destruct (calculate_theta_fields py pow2 mean s refs _) as [r|e];
          cbn [bind]; [|exists e; reflexivity].
        destruct (IH (Some (chromosome s))
                     (if match prev with
                         | Some c => negb (chromosome s =? c)%string
                         | None => true
                         end then cid + 1 else cid) Hin') as [e ->].
        exists e. reflexivity. }
    destruct (Hloop groups None 0 Hin) as [e ->]. exists e. reflexivity.
Qed.

Lemma export_theta_empty_reference_group_witness :
  calculate_theta_fields Python3 pow2_step mean_in_order seg_chr1 [] 1
  = Raise (ValueError "cannot convert float NaN to integer").
Proof.
  apply (proj1 (export_theta_empty_reference_group Python3 pow2_step
                  mean_in_order eq_refl eq_refl) seg_chr1 1 5000).
  reflexivity.
Defined.

(** ** Merging: malformed rows, sizes and failures to open *)

Section MergeMore.

Variable F : Type.
Variable int_of_str : string -> option Z.
Variable float_of_str : string -> option F.

Lemma mapM_first_error {A B} (f : A -> Result B) (good : list A) (bad : A)
    (rest : list A) (e : PyError) :
  (forall x, In x good -> exists y, f x = Ok y) ->
  f bad = Raise e ->
  mapM f (good ++ bad :: rest) = Raise e.
Proof.
  induction good as [|x good IH]; intros Hgood Hbad.
  - cbn [app mapM]. rewrite Hbad. reflexivity.
  - destruct (Hgood x (or_introl eq_refl)) as [y Hy].
    cbn [app mapM]. rewrite Hy. cbn [bind].
    rewrite IH; [reflexivity| |exact Hbad].
    intros x' Hx'. apply Hgood. right. exact Hx'.
Qed.

(** X9. A malformed row aborts the merge with its own error, whatever the
    labels of the rows are: the rows are converted in stream order and the
    error of the first row that does not convert is the one raised; the
    labels are compared only when every row converted. *)
Theorem merge_rows_first_parse_error :
  forall (good : list RawRow) (bad : RawRow) (rest : list RawRow)
         (e : PyError),
    (forall r, In r good ->
               exists pc,
                 row_to_probe_coverage F int_of_str float_of_str r = Ok pc) ->
    row_to_probe_coverage F int_of_str float_of_str bad = Raise e ->
    merge_rows F int_of_str float_of_str (good ++ bad :: rest) = Raise e.
Proof.
  intros good bad rest e Hgood Hbad. unfold merge_rows.
  rewrite (mapM_first_error _ good bad rest e Hgood Hbad). reflexivity.
Qed.

(** X10. A row with fewer than five fields cannot be unpacked; fields after the
    fifth are ignored. *)
Theorem row_to_probe_coverage_fields :
  forall row : RawRow,
    ((List.length row < 5)%nat ->
     row_to_probe_coverage F int_of_str float_of_str row
     = Raise (ValueError "wrong number of values to unpack"))
    /\ (List.length row = 5%nat ->
        forall extra,
          row_to_probe_coverage F int_of_str float_of_str (row ++ extra)%list
          = row_to_probe_coverage F int_of_str float_of_str row).
Proof.
  intros row. split.
  - intros Hlen. unfold row_to_probe_coverage.
    destruct row as [|f1 [|f2 [|f3 [|f4 [|f5 rest]]]]];
      cbn [firstn]; try reflexivity.
    cbn [List.length] in Hlen. lia.
  - intros Hlen extra.
    destruct row as [|f1 [|f2 [|f3 [|f4 [|f5 [|f6 rest]]]]]];
      try discriminate Hlen.
    reflexivity.
Qed.

Lemma mapM_length {A B} (f : A -> Result B) (xs : list A) (ys : list B) :
  mapM f xs = Ok ys -> List.length ys = List.length xs.
Proof.
  revert ys. induction xs as [|x xs IH]; intros ys H.
  - cbn in H. injection H as <-. reflexivity.
  - cbn [mapM] in H. destruct (f x) as [y|e]; cbn [bind] in H;
      [|discriminate].
    destruct (mapM f xs) as [ys'|e]; cbn [bind] in H; [|discriminate].
    injection H as <-. cbn [List.length]. rewrite (IH ys' eq_refl).
    reflexivity.
Qed.

Lemma merge_rows_coverages (rows : list RawRow) (merged : MergedRow F) :
  merge_rows F int_of_str float_of_str rows = Ok merged ->
  List.length (snd merged) = List.length rows.
Proof.
  unfold merge_rows.
  destruct (mapM (row_to_probe_coverage F int_of_str float_of_str) rows)
    as [pairs|e] eqn:Hm; cbn [bind]; [|discriminate].
  destruct pairs as [|pc pairs]; [discriminate|].
  rewrite split_maps.
  destruct (check_unique (map fst (pc :: pairs)) "probe Name");
    cbn [bind]; [|discriminate].
  intros H. injection H as <-. cbn [snd].
  change (snd pc :: map snd pairs) with (map snd (pc :: pairs)).
  rewrite length_map. apply (mapM_length _ _ _ Hm).
Qed.

Lemma zip_heads_lengths (datastreams : list (list RawRow)) :
  forall heads tails,
    zip_heads datastreams = Some (heads, tails) ->
    List.length heads = List.length datastreams
    /\ List.length tails = List.length datastreams.
Proof.
  induction datastreams as [|d others IH]; intros heads tails H.
  - cbn in H. injection H as <- <-. split; reflexivity.
  - cbn [zip_heads] in H. destruct d as [|r rs]; [discriminate|].
    destruct (zip_heads others) as [[hs ts]|]; [|discriminate].
    injection H as <- <-. destruct (IH hs ts eq_refl) as [H1 H2].
    cbn [List.length]. rewrite H1, H2. split; reflexivity.
Qed.

Lemma zip_next_lengths (datastreams : list (list RawRow)) heads tails :
  zip_next datastreams = Some (heads, tails) ->
  List.length heads = List.length datastreams
  /\ List.length tails = List.length datastreams.
Proof.
  unfold zip_next. destruct datastreams; [discriminate|].
  apply zip_heads_lengths.
Qed.

Lemma open_all_streams (fs : FileSystem) (filenames : list string) :
  forall next handles datastreams live0 handles' datastreams' live',
    open_all fs filenames next handles datastreams live0
    = (Ok (handles', datastreams'), live') ->
    exists opened,
      map fs filenames = map Some opened
      /\ datastreams' = (datastreams ++ opened)%list.
Proof.
  induction filenames as [|fname rest IH];
    intros next handles datastreams live0 handles' datastreams' live' H.
  - cbn [open_all] in H. injection H as _ <- _.
    exists []. rewrite app_nil_r. split; reflexivity.
  - cbn [open_all] in H. destruct (fs fname) as [data|] eqn:Hf;
      [|discriminate].
    apply IH in H as [opened [Hmap ->]].
    exists (data :: opened). cbn [map]. rewrite Hf, Hmap, <- app_assoc.
    split; reflexivity.
Qed.

End MergeMore.

Section GeneratorMore.

Variable F : Type.
Variable int_of_str : string -> option Z.
Variable float_of_str : string -> option F.
Variable fs : FileSystem.

Lemma map_Some_inj {A} (l1 l2 : list A) :
  map Some l1 = map Some l2 -> l1 = l2.
Proof.
  revert l2. induction l1 as [|a l1 IH]; intros [|b l2] H;
    try discriminate; [reflexivity|].
  cbn [map] in H. injection H as -> H. rewrite (IH l2 H). reflexivity.
Qed.

Lemma resume_width (handles : list Handle)
    (datastreams : list (list RawRow)) (lv : list Handle)
    (out : Outcome F) (m' : Machine) :
  resume F int_of_str float_of_str handles datastreams lv = (out, m') ->
  streams_width (List.length datastreams) m'
  /\ match out with
     | Yielded _ row => List.length (snd row) = List.length datastreams
     | _ => True
     end.
Proof.
  unfold resume.
  destruct (zip_next datastreams) as [[rows rest]|] eqn:Hz.
  - destruct (zip_next_lengths _ _ _ Hz) as [Hh Ht].
    destruct (merge_rows F int_of_str float_of_str rows) as [merged|e] eqn:Hm;
      intros H; injection H as <- <-.
    + split; [exact Ht|].
      rewrite (merge_rows_coverages F int_of_str float_of_str _ _ Hm).
      exact Hh.
    + split; exact I.
  - intros H. injection H as <- <-. split; exact I.
Qed.

Lemma gen_next_width (width : nat) (m : Machine) (out : Outcome F)
    (m' : Machine) :
  streams_width width m ->
  gen_next F int_of_str float_of_str fs m = (out, m') ->
  streams_width width m'
  /\ match out with
     | Yielded _ row => List.length (snd row) = width
     | _ => True
     end.
Proof.
  unfold streams_width at 1, gen_next. destruct m as [g lv]. cbn [gen live].
  destruct g as [filenames|handles datastreams|]; intros Hw H.
  - destruct (open_all fs filenames 0%nat [] [] lv)
      as [[[handles datastreams]|e] live'] eqn:Ho.
    + apply open_all_streams in Ho as [opened [Hmap ->]]. cbn [app] in H.
      assert (Hlen : List.length opened = width).
      { rewrite <- Hw, <- (length_map fs filenames), Hmap.
        symmetry. apply length_map. }
      rewrite <- Hlen. apply (resume_width _ _ _ _ _ H).
    + injection H as <- <-. split; exact I.
  - rewrite <- Hw. apply (resume_width _ _ _ _ _ H).
  - injection H as <- <-. split; exact I.
Qed.

(** X11. Every row the generator yields holds, after the probe, exactly one
    coverage value per input file. *)
Theorem merge_samples_one_coverage_per_file :
  forall (fuel : nat) (filenames : list string) rows last m,
    drain F int_of_str float_of_str fs fuel (merge_samples filenames)
    = (rows, last, m) ->
    Forall (fun row : MergedRow F =>
              List.length (snd row) = List.length filenames)
           rows.
Proof.
  intros fuel filenames.
  assert (G : forall fuel m0 rows last m,
             streams_width (List.length filenames) m0 ->
             drain F int_of_str float_of_str fs fuel m0 = (rows, last, m) ->
             Forall (fun row : MergedRow F =>
                       List.length (snd row) = List.length filenames) rows).
  { clear fuel. induction fuel as [|fuel IH]; intros m0 rows last m Hw H;
      cbn [drain] in H.
    - injection H as <- _ _. constructor.
    - destruct (gen_next F int_of_str float_of_str fs m0) as [out m1] eqn:Hn.
      destruct (gen_next_width _ _ _ _ Hw Hn) as [Hw1 Hrow].
      destruct out as [row| |e].
      + destruct (drain F int_of_str float_of_str fs fuel m1)
          as [[rows1 last1] m2] eqn:Hd.
        injection H as <- _ _. constructor; [exact Hrow|].
        apply (IH m1 rows1 last1 m2 Hw1 Hd).
      + injection H as <- _ _. constructor.
      + injection H as <- _ _. constructor. }
  intros rows last m H.
  apply (G fuel (merge_samples filenames) rows last m);
    [reflexivity|exact H].
Qed.

Lemma min_length_zero (datastreams : list (list RawRow)) :
  min_length 0 datastreams = 0%nat.
Proof.
  induction datastreams as [|d l IH]; [reflexivity|].
  cbn [min_length fold_right]. fold (min_length 0 l). rewrite IH. lia.
Qed.

Lemma zip_heads_none (datastreams : list (list RawRow)) (base : nat) :
  zip_heads datastreams = None -> min_length base datastreams = 0%nat.
Proof.
  induction datastreams as [|d l IH]; [discriminate|].
  cbn [zip_heads min_length fold_right]. fold (min_length base l).
  destruct d as [|r rs]; [reflexivity|].
  destruct (zip_heads l) as [[hs ts]|]; [discriminate|].
  intros _. rewrite (IH eq_refl). lia.
Qed.

Lemma zip_heads_some (datastreams : list (list RawRow)) (base : nat) :
  forall heads tails,
    zip_heads datastreams = Some (heads, tails) ->
    min_length (S base) datastreams = S (min_length base tails).
Proof.
  induction datastreams as [|d l IH]; intros heads tails H.
  - cbn in H. injection H as _ <-. reflexivity.
  - cbn [zip_heads] in H. destruct d as [|r rs]; [discriminate|].
    destruct (zip_heads l) as [[hs ts]|]; [|discriminate].
    injection H as _ <-.
    cbn [min_length fold_right List.length].
    fold (min_length (S base) l). fold (min_length base ts).
    rewrite (IH hs ts eq_refl). lia.
Qed.

Lemma shortest_min_length (d : list RawRow) (others : list (list RawRow)) :
  shortest (d :: others) = min_length (List.length d) others.
Proof. reflexivity. Qed.

Lemma zip_next_shortest (datastreams : list (list RawRow)) :
  match zip_next datastreams with
  | None => shortest datastreams = 0%nat
  | Some (_, tails) => shortest datastreams = S (shortest tails)
  end.
Proof.
  destruct datastreams as [|d others]; [reflexivity|].
  unfold zip_next. cbn [zip_heads]. rewrite shortest_min_length.
  destruct d as [|r rs]; [apply min_length_zero|].
  destruct (zip_heads others) as [[hs ts]|] eqn:Hz.
  - rewrite shortest_min_length. cbn [List.length].
    apply (zip_heads_some _ _ _ _ Hz).
  - apply (zip_heads_none _ _ Hz).
Qed.

Lemma drain_suspended_count (fuel : nat) :
  forall handles datastreams lv rows m',
    drain F int_of_str float_of_str fs fuel
          (mkMachine (Suspended handles datastreams) lv)
    = (rows, Some (StopIteration F), m') ->
    List.length rows = shortest datastreams.
Proof.
  induction fuel as [|fuel IH]; intros handles datastreams lv rows m' H;
    cbn [drain] in H; [discriminate|].
  unfold gen_next in H. cbn [gen live] in H. unfold resume in H.
  pose proof (zip_next_shortest datastreams) as Hs.
  destruct (zip_next datastreams) as [[heads tails]|].
  - destruct (merge_rows F int_of_str float_of_str heads) as [merged|e];
      [|discriminate].
    destruct (drain F int_of_str float_of_str fs fuel
                    (mkMachine (Suspended handles tails) lv))
      as [[rows1 last1] m2] eqn:Hd.
    injection H as <- -> ->. cbn [List.length].
    rewrite (IH _ _ _ _ _ Hd), Hs. reflexivity.
  - injection H as <- _. rewrite Hs. reflexivity.
Qed.

(** X12. When the files open and the consumer runs the generator to its end,
    the number of merged rows is the length of the shortest file: longer
    files are cut without an error. *)
Theorem merge_samples_stops_at_shortest :
  forall (fuel : nat) (filenames : list string)
         (streams : list (list RawRow)) rows m,
    map fs filenames = map Some streams ->
    drain F int_of_str float_of_str fs fuel (merge_samples filenames)
    = (rows, Some (StopIteration F), m) ->
    List.length rows = shortest streams.
Proof.
  intros fuel filenames streams rows m Hfs H.
  destruct fuel as [|fuel]; [discriminate|].
  cbn [drain] in H. unfold gen_next, merge_samples in H.
  cbn [gen live] in H.
  destruct (open_all fs filenames 0%nat [] [] [])
    as [[[handles datastreams]|e] live'] eqn:Ho; [|discriminate].
  destruct (open_all_streams _ _ _ _ _ _ _ _ _ Ho) as [opened [Hmap ->]].
  rewrite Hfs in Hmap. apply map_Some_inj in Hmap. subst opened.
  cbn [app] in H. unfold resume in H.
  pose proof (zip_next_shortest streams) as Hs.
  destruct (zip_next streams) as [[heads tails]|].
  - destruct (merge_rows F int_of_str float_of_str heads) as [merged|e];
      [|discriminate].
    destruct (drain F int_of_str float_of_str fs fuel
                    (mkMachine (Suspended handles tails) live'))
      as [[rows1 last1] m2] eqn:Hd.
    injection H as <- -> ->. cbn [List.length].
    rewrite (drain_suspended_count _ _ _ _ _ _ Hd), Hs. reflexivity.
  - injection H as <- _. rewrite Hs. reflexivity.
Qed.

Lemma open_all_fails (good : list string) (bad : string)
    (rest : list string) :
  Forall (fun fname => fs fname <> None) good ->
  fs bad = None ->
  forall next handles datastreams lv,
    open_all fs (good ++ bad :: rest) next handles datastreams lv
    = (Raise (IOError bad), (lv ++ seq next (List.length good))%list).
Proof.
  intros Hgood Hbad. induction Hgood as [|fname good Hf _ IH];
    intros next handles datastreams lv.
  - cbn [app open_all List.length seq]. rewrite Hbad, app_nil_r.
    reflexivity.
  - cbn [app open_all List.length seq].
    destruct (fs fname) as [data|]; [|congruence].
    rewrite IH, <- app_assoc. reflexivity.
Qed.

(** X13. When a file cannot be opened, the first [next] raises the error of the
    first such file and yields no row, whatever the files after it are; the
    handles of the files opened before it stay open. *)
Theorem merge_samples_open_failure :
  forall (good : list string) (bad : string) (rest : list string),
    Forall (fun fname => fs fname <> None) good ->
    fs bad = None ->
    gen_next F int_of_str float_of_str fs
             (merge_samples (good ++ bad :: rest))
    = (Raised F (IOError bad),
       mkMachine Finished (seq 0 (List.length good))).
Proof.
  intros good bad rest Hgood Hbad. unfold gen_next, merge_samples.
  cbn [gen live]. rewrite (open_all_fails good bad rest Hgood Hbad).
  reflexivity.
Qed.

End GeneratorMore.

Lemma merge_samples_one_coverage_per_file_witness :
  Forall (fun row : MergedRow Q => List.length (snd row) = 2%nat)
         [({| label := "chr1:100-200:TP53"; chrom := "chr1"; pstart := 100;
              pend := 200; pgene := "TP53" |}, [1%Q; 3%Q])].
Proof.
  apply (merge_samples_one_coverage_per_file Q PyInt.int_of_str
           float_of_int_literal two_files 5 ["a.cnr"; "b.cnr"] _
           (Some (Raised Q (ValidationError "probe Name")))
           (mkMachine Finished [0%nat; 1%nat])).
  vm_compute. reflexivity.
Defined.

Lemma merge_samples_stops_at_shortest_witness :
  List.length
    [({| label := "chr1:100-200:TP53"; chrom := "chr1"; pstart := 100;
         pend := 200; pgene := "TP53" |}, [1%Q; 1%Q]);
     ({| label := "chr1:200-300:TP53"; chrom := "chr1"; pstart := 200;
         pend := 300; pgene := "TP53" |}, [2%Q; 2%Q])]
  = shortest [sample_a; sample_a].
Proof.
  apply (merge_samples_stops_at_shortest Q PyInt.int_of_str
           float_of_int_literal two_files 5 ["a.cnr"; "a.cnr"]
           [sample_a; sample_a] _ (mkMachine Finished [])).
  - reflexivity.
  - vm_compute. reflexivity.
Defined.

Lemma merge_samples_open_failure_witness :
  gen_next Q PyInt.int_of_str float_of_int_literal two_files
           (merge_samples (["a.cnr"; "b.cnr"] ++ "c.cnr" :: ["a.cnr"]))
  = (Raised Q (IOError "c.cnr"),
     mkMachine Finished (seq 0 (List.length ["a.cnr"; "b.cnr"]))).
Proof.
  apply (merge_samples_open_failure Q PyInt.int_of_str float_of_int_literal
           two_files ["a.cnr"; "b.cnr"] "c.cnr" ["a.cnr"]).
  - repeat constructor; discriminate.
  - reflexivity.
Defined.

Lemma merge_rows_first_parse_error_witness :
  merge_rows Q PyInt.int_of_str float_of_int_literal
             ([["chr1"; "1"; "2"; "g"; "5"]]
              ++ ["chr2"; "x"; "2"; "g"; "5"] :: [["chr1"; "1"; "2"]])%list
  = Raise (ValueError "invalid literal for int()").
Proof.
  apply (merge_rows_first_parse_error Q PyInt.int_of_str
           float_of_int_literal [["chr1"; "1"; "2"; "g"; "5"]]
           ["chr2"; "x"; "2"; "g"; "5"] [["chr1"; "1"; "2"]]).
  - intros r [<-|[]]. eexists. vm_compute. reflexivity.
  - vm_compute. reflexivity.
Defined.

Lemma row_to_probe_coverage_fields_witness :
  row_to_probe_coverage Q PyInt.int_of_str float_of_int_literal
                        ["chr1"; "1"; "2"; "g"]
  = Raise (ValueError "wrong number of values to unpack")
  /\ row_to_probe_coverage Q PyInt.int_of_str float_of_int_literal
       (["chr1"; "1"; "2"; "g"; "5"] ++ ["0.9"; "x"])%list
     = row_to_probe_coverage Q PyInt.int_of_str float_of_int_literal
         ["chr1"; "1"; "2"; "g"; "5"].
Proof.
  split.
  - apply (proj1 (row_to_probe_coverage_fields Q PyInt.int_of_str
                    float_of_int_literal ["chr1"; "1"; "2"; "g"])).
    simpl. lia.
  - apply (proj2 (row_to_probe_coverage_fields Q PyInt.int_of_str
                    float_of_int_literal ["chr1"; "1"; "2"; "g"; "5"])).
    reflexivity.
Defined.

(** ** The clustering tables *)

Lemma cdt_rows_shape {F : Type} (width : nat) (rows : list (MergedRow F)) :
  Forall (fun row : MergedRow F => List.length (snd row) = width) rows ->
  forall i,
    List.length (cdt_rows F i rows) = List.length rows
    /\ Forall (fun r => List.length r = (4 + width)%nat) (cdt_rows F i rows).
Proof.
  induction 1 as [|[probe values] rows Hrow _ IH]; intros i.
  - split; [reflexivity|constructor].
  - destruct (IH (S i)) as [Hl Hf]. cbn [cdt_rows List.length].
    rewrite Hl. split; [reflexivity|]. constructor; [|exact Hf].
    cbn [app List.length]. rewrite length_map. cbn [snd] in Hrow.
    rewrite Hrow. reflexivity.
Qed.

Lemma cdt_rows_nth {F : Type} (rows : list (MergedRow F)) :
  forall (base i : nat) (row : MergedRow F),
    nth_error rows i = Some row ->
    nth_error (cdt_rows F base rows) i
    = Some ([CStr ("GENE" ++ str_nat (base + i) ++ "X");
             CStr ("IMAGE:" ++ str_nat (base + i));
             CStr (label (fst row)); CInt 1] ++ map CNum (snd row))%list.
Proof.
  induction rows as [|[probe values] rows IH]; intros base i row H;
    [destruct i; discriminate|].
  destruct i as [|i].
  - cbn [nth_error] in H. injection H as <-.
    cbn [cdt_rows nth_error fst snd]. rewrite Nat.add_0_r. reflexivity.
  - cbn [nth_error] in H. cbn [cdt_rows nth_error].
    rewrite (IH (S base) i row H).
    replace (S base + i)%nat with (base + S i)%nat by lia. reflexivity.
Qed.

(** X14. When every merged row holds one value per sample id, the tables of
    [fmt_cdt] and [fmt_jtv] are rectangular: each output row has the width
    of the header (four, resp. two, leading columns and one per sample).
    CDT has the AID row and then one row per merged row, JTV one row per
    merged row; the [i]-th merged row (from 0) becomes the CDT row
    [GENE{i}X, IMAGE:{i}, label, 1, values...]. *)
Theorem cluster_tables_rectangular :
  forall (F : Type) (sample_ids : list string) (rows : list (MergedRow F)),
    Forall (fun row : MergedRow F =>
              List.length (snd row) = List.length sample_ids) rows ->
    (exists h rs,
        fmt_cdt F sample_ids rows = Table h rs
        /\ List.length h = (4 + List.length sample_ids)%nat
        /\ List.length rs = S (List.length rows)
        /\ Forall (fun r => List.length r = List.length h) rs
        /\ forall i row,
            nth_error rows i = Some row ->
            nth_error rs (S i)
            = Some ([CStr ("GENE" ++ str_nat i ++ "X");
                     CStr ("IMAGE:" ++ str_nat i);
                     CStr (label (fst row)); CInt 1]
                    ++ map CNum (snd row))%list)
    /\ (exists h rs,
           fmt_jtv F sample_ids rows = Table h rs
           /\ List.length h = (2 + List.length sample_ids)%nat
           /\ List.length rs = List.length rows
           /\ Forall (fun r => List.length r = List.length h) rs).
Proof.
  intros F sample_ids rows Hrows. split.
  - eexists. eexists. split; [reflexivity|].
    destruct (cdt_rows_shape (List.length sample_ids) rows Hrows 0%nat)
      as [Hl Hf].
    assert (Hh : List.length
                   (map (@CStr F) ["GID"; "CLID"; "NAME"; "GWEIGHT"]
                    ++ map CStr sample_ids)%list
                 = (4 + List.length sample_ids)%nat).
    { rewrite length_app, !length_map. reflexivity. }
    split; [exact Hh|]. split; [cbn [List.length]; rewrite Hl; reflexivity|].
    split.
    + rewrite Hh. constructor; [|exact Hf].
      rewrite length_app, !length_map, length_seq. reflexivity.
    + intros i row Hi. cbn [nth_error].
      apply (cdt_rows_nth rows 0 i row Hi).
  - eexists. eexists. split; [reflexivity|].
    assert (Hh : List.length
                   (map (@CStr F) ["CloneID"; "Name"]
                    ++ map CStr sample_ids)%list
                 = (2 + List.length sample_ids)%nat).
    { rewrite length_app, !length_map. reflexivity. }
    split; [exact Hh|]. split; [apply length_map|].
    rewrite Hh. apply Forall_map.
    apply (Forall_impl _ (P := fun row : MergedRow F =>
                                 List.length (snd row)
                                 = List.length sample_ids)); [|exact Hrows].
    intros row Hrow. cbn [app List.length]. rewrite length_map, Hrow.
    reflexivity.
Qed.

Lemma cluster_tables_rectangular_witness :
  exists h rs,
    fmt_jtv Q ["A"; "B"]
            [({| label := "chr1:100-200:TP53"; chrom := "chr1";
                 pstart := 100; pend := 200; pgene := "TP53" |},
              [1%Q; 3%Q])]
    = Table h rs
    /\ List.length h = (2 + List.length ["A"; "B"])%nat
    /\ List.length rs = 1%nat
    /\ Forall (fun r => List.length r = List.length h) rs.
Proof.
  apply (proj2 (cluster_tables_rectangular Q ["A"; "B"]
                  [({| label := "chr1:100-200:TP53"; chrom := "chr1";
                       pstart := 100; pend := 200; pgene := "TP53" |},
                    [1%Q; 3%Q])]
                  ltac:(repeat constructor))).
Defined.

(** ** BED and VCF: which segments are reported *)

Lemma filter_map_comm {A B} (f : A -> B) (p : B -> bool) (l : list A) :
  filter p (map f l) = map f (filter (fun x => p (f x)) l).
Proof.
  induction l as [|x l IH]; [reflexivity|].
  cbn [map filter]. destruct (p (f x)); cbn [map]; rewrite IH; reflexivity.
Qed.

Lemma filter_all_true {A} (l : list A) : filter (fun _ => true) l = l.
Proof.
  induction l as [|x l IH]; [reflexivity|]. cbn [filter]. rewrite IH.
  reflexivity.
Qed.

(** X15. With [show_neutral] the BED encoder writes one row per pair of
    [zip(segments, absolutes)], so as many rows as the shorter of the two;
    without it the output is that list with the rows of [ncopies = ploidy]
    removed, in the same order, and holds no such row. *)
Theorem segments2bed_neutral_filter :
  forall (py : PyVersion)
         (absolute_pure : list Segment -> Z -> bool -> list Q)
         (segments : list Segment) (label : string) (ploidy : Z)
         (is_reference_male : bool),
    let shown :=
      segments2bed py absolute_pure segments label ploidy is_reference_male
                   true in
    let hidden :=
      segments2bed py absolute_pure segments label ploidy is_reference_male
                   false in
    List.length shown
    = Nat.min (List.length segments)
              (List.length (absolute_pure segments ploidy is_reference_male))
    /\ hidden = filter (fun r => negb (bed_ncopies r =? ploidy)) shown
    /\ Forall (fun r => bed_ncopies r <> ploidy) hidden.
Proof.
  intros py absolute_pure segments label ploidy male shown hidden.
  unfold shown, hidden, segments2bed.
  rewrite !segments2bed_loop_filter. cbn [orb].
  rewrite filter_all_true, length_map, length_combine.
  split; [reflexivity|].
  assert (E : forall z : list (Segment * Q),
             map (fun pair : Segment * Q =>
                    (chromosome (fst pair), start (fst pair),
                     end_ (fst pair), label, Py.round py (snd pair)))
                 (filter (fun pair : Segment * Q =>
                            negb (Py.round py (snd pair) =? ploidy)) z)
             = filter (fun r => negb (bed_ncopies r =? ploidy))
                      (map (fun pair : Segment * Q =>
                              (chromosome (fst pair), start (fst pair),
                               end_ (fst pair), label,
                               Py.round py (snd pair))) z)).
  { intros z. rewrite filter_map_comm. reflexivity. }
  rewrite E. split; [reflexivity|].
  apply Forall_forall. intros r Hr. apply filter_In in Hr as [_ Hr].
  apply negb_true_iff, Z.eqb_neq in Hr. exact Hr.
Qed.

Lemma vcf_bed_same_segments (py : PyVersion) (label : string) (p : Z)
    (zipped : list (Segment * Q)) :
  let vcf := segments2vcf_loop py zipped p in
  let bed := segments2bed_loop py zipped label p false in
  map record_chrom vcf = map bed_chrom bed
  /\ map record_pos vcf = map (fun r => Z.max 1 (bed_start r)) bed
  /\ map record_svtype vcf
     = map (fun r => if bed_ncopies r >? p then "DUP" else "DEL") bed.
Proof.
  induction zipped as [|[row v] rest IH]; [repeat split|].
  cbv zeta in *. destruct IH as [Hc [Hp Hs]].
  cbn [segments2vcf_loop segments2bed_loop orb].
  destruct (Z.lt_trichotomy (Py.round py v) p) as [L|[E|G]].
  - rewrite (vcf_record_del py row v p L).
    destruct (Z.eqb_spec (Py.round py v) p) as [E|_]; [lia|].
    cbn [negb map record_chrom bed_chrom record_pos bed_start
         record_svtype bed_ncopies snd].
    rewrite Hc, Hp, Hs, py_max_Zmax.
    destruct (Z.gtb_spec (Py.round py v) p) as [G|_]; [lia|].
    repeat split.
  - rewrite (vcf_record_neutral py row v p E).
    rewrite (proj2 (Z.eqb_eq _ _) E). cbn [negb].
    repeat split; assumption.
  - rewrite (vcf_record_dup py row v p) by lia.
    destruct (Z.eqb_spec (Py.round py v) p) as [E|_]; [lia|].
    cbn [negb map record_chrom bed_chrom record_pos bed_start
         record_svtype bed_ncopies snd].
    rewrite Hc, Hp, Hs, py_max_Zmax.
    destruct (Z.gtb_spec (Py.round py v) p) as [_|N]; [|lia].
    repeat split.
Qed.

(** X16. The VCF encoder reports exactly the segments the BED encoder reports
    without [show_neutral], in the same order: the chromosomes agree, POS
    is the BED start floored at 1, and the record is a DUP where the BED
    copy number is above the ploidy and a DEL where it is below. *)
Theorem segments2vcf_matches_segments2bed :
  forall (py : PyVersion)
         (absolute_pure : list Segment -> Z -> bool -> list Q)
         (segments : list Segment) (label : string) (ploidy : Z)
         (is_reference_male : bool),
    let vcf := segments2vcf py absolute_pure segments ploidy
                            is_reference_male in
    let bed := segments2bed py absolute_pure segments label ploidy
                            is_reference_male false in
    List.length vcf = List.length bed
    /\ map record_chrom vcf = map bed_chrom bed
    /\ map record_pos vcf = map (fun r => Z.max 1 (bed_start r)) bed
    /\ map record_svtype vcf
       = map (fun r => if bed_ncopies r >? ploidy then "DUP" else "DEL") bed.
Proof.
  intros py absolute_pure segments label ploidy male vcf bed.
  destruct (vcf_bed_same_segments py label ploidy
              (combine segments (absolute_pure segments ploidy male)))
    as [Hc [Hp Hs]].
  split; [|split; [exact Hc|split; [exact Hp|exact Hs]]].
  rewrite <- (length_map record_chrom vcf), <- (length_map bed_chrom bed).
  unfold vcf, bed, segments2vcf, segments2bed. rewrite Hc. reflexivity.
Qed.

(** X17. Every row [export_vcf] builds has the constant columns ID [.], REF
    [N], QUAL [.] and FILTER [.]; its ALT is [<DUP>] with FORMAT
    [GT:GQ:CN:CNQ] or [<DEL>] with FORMAT [GT:GQ]; and there is one row per
    record of [segments2vcf]. *)
Theorem export_vcf_rows_fixed_columns :
  forall (py : PyVersion)
         (absolute_pure : list Segment -> Z -> bool -> list Q)
         (segments : CopyNumArray) (ploidy : Z) (is_reference_male : bool),
    let rows := export_vcf_rows py absolute_pure segments ploidy
                                is_reference_male in
    List.length rows
    = List.length (segments2vcf py absolute_pure (data segments) ploidy
                                is_reference_male)
    /\ Forall vcf_row_fixed rows.
Proof.
  intros py absolute_pure segments ploidy male rows.
  unfold rows, export_vcf_rows. split; [apply length_map|].
  apply Forall_map. unfold segments2vcf.
  generalize (combine (data segments)
                      (absolute_pure (data segments) ploidy male)).
  induction l as [|[row v] rest IH]; [constructor|].
  cbn [segments2vcf_loop].
  destruct (Z.lt_trichotomy (Py.round py v) ploidy) as [L|[E|G]].
  - rewrite (vcf_record_del py row v ploidy L). constructor; [|exact IH].
    cbn. repeat split. right. split; reflexivity.
  - rewrite (vcf_record_neutral py row v ploidy E). exact IH.
  - rewrite (vcf_record_dup py row v ploidy) by lia.
    constructor; [|exact IH].
    cbn. repeat split. left. split; reflexivity.
Qed.

(** ** BED, the caller *)

Lemma export_bed_loop_flat_map (py : PyVersion)
    (absolute_pure : list Segment -> Z -> bool -> list Q) (args : BedArgs)
    (samples : list CopyNumArray) :
  forall bed_rows,
    export_bed_loop py absolute_pure samples args bed_rows
    = (bed_rows ++ flat_map (bed_rows_of py absolute_pure args) samples)%list.
Proof.
  induction samples as [|segs rest IH]; intros bed_rows.
  - cbn [export_bed_loop flat_map]. rewrite app_nil_r. reflexivity.
  - cbn [export_bed_loop flat_map]. rewrite IH, <- app_assoc. reflexivity.
Qed.

Lemma segments2bed_labels (py : PyVersion) (label : string) (p : Z)
    (show : bool) (zipped : list (Segment * Q)) :
  Forall (fun r => bed_label r = label)
         (segments2bed_loop py zipped label p show).
Proof.
  induction zipped as [|[row v] rest IH]; [constructor|].
  cbn [segments2bed_loop].
  destruct (show || negb (Py.round py v =? p)); [constructor|];
    [reflexivity|exact IH|exact IH].
Qed.

(** X18. [export_bed] has no header and stacks the rows of the samples in file
    order, so exporting two lists of files one after the other gives the
    concatenation of their rows; every row is labelled with the sample id
    given in [args] when there is a non-empty one, else with the id of the
    array the row comes from. *)
Theorem export_bed_rows :
  forall (py : PyVersion)
         (absolute_pure : list Segment -> Z -> bool -> list Q)
         (args : BedArgs) (samples more : list CopyNumArray),
    fst (export_bed py absolute_pure samples args) = None
    /\ snd (export_bed py absolute_pure samples args)
       = flat_map (bed_rows_of py absolute_pure args) samples
    /\ snd (export_bed py absolute_pure (samples ++ more) args)
       = (snd (export_bed py absolute_pure samples args)
          ++ snd (export_bed py absolute_pure more args))%list
    /\ forall r,
        In r (snd (export_bed py absolute_pure samples args)) ->
        exists segs,
          In segs samples
          /\ bed_label r = match arg_sample_id args with
                           | Some s => if (s =? "")%string
                                       then sample_id segs else s
                           | None => sample_id segs
                           end.
Proof.
  intros py absolute_pure args samples more.
  assert (E : forall l, snd (export_bed py absolute_pure l args)
                        = flat_map (bed_rows_of py absolute_pure args) l).
  { intros l. unfold export_bed. cbn [snd].
    rewrite export_bed_loop_flat_map. reflexivity. }
  split; [reflexivity|]. split; [apply E|]. split.
  - rewrite !E. apply flat_map_app.
  - intros r Hr. rewrite E in Hr.
    apply in_flat_map in Hr as [segs [Hs Hr]]. exists segs.
    split; [exact Hs|].
    unfold bed_rows_of, segments2bed in Hr.
    pose proof (segments2bed_labels py
                  (or_else (arg_sample_id args) (sample_id segs))
                  (arg_ploidy args) (arg_show_neutral args)
                  (combine (data segs)
                           (absolute_pure (data segs) (arg_ploidy args)
                                          (arg_male_reference args)))) as Hl.
    rewrite Forall_forall in Hl. apply (Hl r Hr).
Qed.

Lemma export_bed_rows_witness :
  exists segs,
    In segs [cna_a]
    /\ bed_label ("chr2", 0, 50, "A", 3)
       = match arg_sample_id (mkBedArgs (Some "") 2 false false) with
         | Some s => if (s =? "")%string then sample_id segs else s
         | None => sample_id segs
         end.
Proof.
  apply (proj2 (proj2 (proj2
           (export_bed_rows Python3 (const_resolver [2%Q; 3%Q])
              (mkBedArgs (Some "") 2 false false) [cna_a] [])))).
  vm_compute. left. reflexivity.
Defined.

(** ** The generator: order of the rows and fate of the handles *)

Section GeneratorOrder.

Variable F : Type.
Variable int_of_str : string -> option Z.
Variable float_of_str : string -> option F.
Variable fs : FileSystem.

Lemma zip_heads_rows (datastreams : list (list RawRow)) :
  forall heads tails,
    zip_heads datastreams = Some (heads, tails) ->
    Forall2 (fun s x => nth_error s 0 = Some x) datastreams heads
    /\ Forall2 (fun s t => forall i, nth_error s (S i) = nth_error t i)
               datastreams tails.
Proof.
  induction datastreams as [|d l IH]; intros heads tails H.
  - cbn in H. injection H as <- <-. split; constructor.
  - cbn [zip_heads] in H. destruct d as [|r rs]; [discriminate|].
    destruct (zip_heads l) as [[hs ts]|]; [|discriminate].
    injection H as <- <-. destruct (IH hs ts eq_refl) as [Hh Ht].
    split; constructor; try assumption; reflexivity.
Qed.

Lemma zip_next_rows (datastreams : list (list RawRow)) heads tails :
  zip_next datastreams = Some (heads, tails) ->
  Forall2 (fun s x => nth_error s 0 = Some x) datastreams heads
  /\ Forall2 (fun s t => forall i, nth_error s (S i) = nth_error t i)
             datastreams tails.
Proof.
  unfold zip_next. destruct datastreams; [discriminate|].
  apply zip_heads_rows.
Qed.

Lemma Forall2_shift (datastreams tails : list (list RawRow))
    (tuple : list RawRow) (i : nat) :
  Forall2 (fun s t => forall i, nth_error s (S i) = nth_error t i)
          datastreams tails ->
  Forall2 (fun s x => nth_error s i = Some x) tails tuple ->
  Forall2 (fun s x => nth_error s (S i) = Some x) datastreams tuple.
Proof.
  intros Hst. revert tuple.
  induction Hst as [|s t ss ts Hs _ IH]; intros tuple Ht.
  - inversion Ht. constructor.
  - inversion Ht as [|t' x ts' xs Hx Hxs]; subst.
    constructor; [rewrite Hs; exact Hx|apply IH, Hxs].
Qed.

Lemma drain_suspended_order (fuel : nat) :
  forall handles datastreams lv rows last m' i row,
    drain F int_of_str float_of_str fs fuel
          (mkMachine (Suspended handles datastreams) lv)
    = (rows, last, m') ->
    nth_error rows i = Some row ->
    exists tuple,
      Forall2 (fun s x => nth_error s i = Some x) datastreams tuple
      /\ merge_rows F int_of_str float_of_str tuple = Ok row.
Proof.
  induction fuel as [|fuel IH];
    intros handles datastreams lv rows last m' i row H Hi;
    cbn [drain] in H.
  - injection H as <- _ _. destruct i; discriminate.
  - unfold gen_next in H. cbn [gen live] in H. unfold resume in H.
    destruct (zip_next datastreams) as [[heads tails]|] eqn:Hz.
    + destruct (zip_next_rows _ _ _ Hz) as [Hh Ht].
      destruct (merge_rows F int_of_str float_of_str heads)
        as [merged|e] eqn:Hm.
      * destruct (drain F int_of_str float_of_str fs fuel
                        (mkMachine (Suspended handles tails) lv))
          as [[rows1 last1] m2] eqn:Hd.
        injection H as <- _ _. destruct i as [|i].
        -- cbn [nth_error] in Hi. injection Hi as <-.
           exists heads. split; assumption.
        -- cbn [nth_error] in Hi.
           destruct (IH _ _ _ _ _ _ i row Hd Hi) as [tuple [Hf Hr]].
           exists tuple. split; [|exact Hr].
           apply (Forall2_shift _ tails); assumption.
      * injection H as <- _ _. destruct i; discriminate.
    + injection H as <- _ _. destruct i; discriminate.
Qed.

Lemma open_all_seq (filenames : list string) :
  forall next handles datastreams live0 handles' datastreams' live',
    open_all fs filenames next handles datastreams live0
    = (Ok (handles', datastreams'), live') ->
    handles' = (handles ++ seq next (List.length filenames))%list
    /\ live' = (live0 ++ seq next (List.length filenames))%list.
Proof.
  induction filenames as [|fname rest IH];
    intros next handles datastreams live0 handles' datastreams' live' H.
  - cbn [open_all] in H. injection H as <- _ <-.
    cbn [List.length seq]. rewrite !app_nil_r. split; reflexivity.
  - cbn [open_all] in H. destruct (fs fname) as [data|]; [|discriminate].
    apply IH in H as [-> ->]. cbn [List.length seq].
    rewrite <- !app_assoc. split; reflexivity.
Qed.

Lemma open_all_succeeds (filenames : list string) :
  forall (streams : list (list RawRow)),
    map fs filenames = map Some streams ->
    forall next handles datastreams live0,
    exists handles' datastreams' live',
      open_all fs filenames next handles datastreams live0
      = (Ok (handles', datastreams'), live').
Proof.
  induction filenames as [|fname rest IH];
    intros streams Hfs next handles datastreams live0.
  - cbn [open_all]. eexists. eexists. eexists. reflexivity.
  - destruct streams as [|d streams]; [discriminate|].
    cbn [map] in Hfs. injection Hfs as Hf Hfs.
    cbn [open_all]. rewrite Hf. apply (IH streams Hfs).
Qed.

Lemma merge_samples_started (fuel : nat) (filenames : list string)
    (streams : list (list RawRow)) :
  map fs filenames = map Some streams ->
  drain F int_of_str float_of_str fs (S fuel) (merge_samples filenames)
  = drain F int_of_str float_of_str fs (S fuel)
          (mkMachine (Suspended (seq 0 (List.length filenames)) streams)
                     (seq 0 (List.length filenames))).
Proof.
  intros Hfs. cbn [drain]. unfold gen_next, merge_samples. cbn [gen live].
  destruct (open_all fs filenames 0%nat [] [] [])
    as [[[handles datastreams]|e] live'] eqn:Ho.
  - destruct (open_all_streams _ _ _ _ _ _ _ _ _ Ho) as [opened [Hmap ->]].
    rewrite Hfs in Hmap. apply map_Some_inj in Hmap. subst opened.
    destruct (open_all_seq _ _ _ _ _ _ _ _ Ho) as [-> ->]. reflexivity.
  - destruct (open_all_succeeds filenames streams Hfs 0%nat [] [] [])
      as [hs [ds [lv H]]]. congruence.
Qed.

(** X19. The generator yields the merged rows in file order: its [i]-th row
    (from 0) is [merge_rows] of the [i]-th row of every file, taken in the
    order of [filenames]. *)
Theorem merge_samples_rows_in_order :
  forall (fuel : nat) (filenames : list string)
         (streams : list (list RawRow)) rows last m i row,
    map fs filenames = map Some streams ->
    drain F int_of_str float_of_str fs fuel (merge_samples filenames)
    = (rows, last, m) ->
    nth_error rows i = Some row ->
    exists tuple,
      Forall2 (fun s x => nth_error s i = Some x) streams tuple
      /\ merge_rows F int_of_str float_of_str tuple = Ok row.
Proof.
  intros fuel filenames streams rows last m i row Hfs H Hi.
  destruct fuel as [|fuel].
  - cbn in H. injection H as <- _ _. destruct i; discriminate.
  - rewrite (merge_samples_started fuel filenames streams Hfs) in H.
    apply (drain_suspended_order _ _ _ _ _ _ _ i row H Hi).
Qed.

Lemma drain_suspended_live (fuel : nat) :
  forall handles datastreams rows last m',
    drain F int_of_str float_of_str fs fuel
          (mkMachine (Suspended handles datastreams) handles)
    = (rows, last, m') ->
    last <> Some (StopIteration F) ->
    live m' = handles.
Proof.
  induction fuel as [|fuel IH]; intros handles datastreams rows last m' H Hn;
    cbn [drain] in H.
  - injection H as _ _ <-. reflexivity.
  - unfold gen_next in H. cbn [gen live] in H. unfold resume in H.
    destruct (zip_next datastreams) as [[heads tails]|].
    + destruct (merge_rows F int_of_str float_of_str heads) as [merged|e].
      * destruct (drain F int_of_str float_of_str fs fuel
                        (mkMachine (Suspended handles tails) handles))
          as [[rows1 last1] m2] eqn:Hd.
        injection H as _ <- <-. apply (IH _ _ _ _ _ Hd Hn).
      * injection H as _ _ <-. reflexivity.
    + injection H as _ <- _. congruence.
Qed.

(** X20. Once the files are open, they are closed only by running the generator
    to its end: when the merge stops on an exception, or the consumer takes
    some rows and then closes or drops the generator, every handle is still
    open. *)
Theorem merge_samples_closes_only_on_exhaustion :
  forall (fuel : nat) (filenames : list string)
         (streams : list (list RawRow)) rows last m,
    map fs filenames = map Some streams ->
    drain F int_of_str float_of_str fs (S fuel) (merge_samples filenames)
    = (rows, last, m) ->
    (last = Some (StopIteration F) -> live m = [])
    /\ (last <> Some (StopIteration F) ->
        live (gen_close m) = seq 0 (List.length filenames)).
Proof.
  intros fuel filenames streams rows last m Hfs H. split.
  - intros ->.
    apply (drain_to_end_closes F int_of_str float_of_str fs (S fuel)
             (merge_samples filenames) rows m); [reflexivity|exact H].
  - intros Hn. rewrite (merge_samples_started fuel filenames streams Hfs)
      in H.
    cbn [gen_close live]. apply (drain_suspended_live _ _ _ _ _ _ H Hn).
Qed.

End GeneratorOrder.

Lemma merge_samples_rows_in_order_witness :
  exists tuple,
    Forall2 (fun s x => nth_error s 0 = Some x) [sample_a; sample_b] tuple
    /\ merge_rows Q PyInt.int_of_str float_of_int_literal tuple
       = Ok ({| label := "chr1:100-200:TP53"; chrom := "chr1";
                pstart := 100; pend := 200; pgene := "TP53" |},
             [1%Q; 3%Q]).
Proof.
  apply (merge_samples_rows_in_order Q PyInt.int_of_str
           float_of_int_literal two_files 5 ["a.cnr"; "b.cnr"]
           [sample_a; sample_b]
           [({| label := "chr1:100-200:TP53"; chrom := "chr1";
                pstart := 100; pend := 200; pgene := "TP53" |},
             [1%Q; 3%Q])]
           (Some (Raised Q (ValidationError "probe Name")))
           (mkMachine Finished [0%nat; 1%nat]) 0).
  - reflexivity.
  - vm_compute. reflexivity.
  - reflexivity.
Defined.

Lemma merge_samples_closes_only_on_exhaustion_witness :
  live (gen_close (mkMachine Finished [0%nat; 1%nat]))
  = seq 0 (List.length ["a.cnr"; "b.cnr"]).
Proof.
  apply (proj2 (merge_samples_closes_only_on_exhaustion Q PyInt.int_of_str
                  float_of_int_literal two_files 4 ["a.cnr"; "b.cnr"]
                  [sample_a; sample_b]
                  [({| label := "chr1:100-200:TP53"; chrom := "chr1";
                       pstart := 100; pend := 200; pgene := "TP53" |},
                    [1%Q; 3%Q])]
                  (Some (Raised Q (ValidationError "probe Name")))
                  (mkMachine Finished [0%nat; 1%nat])
                  eq_refl ltac:(vm_compute; reflexivity))).
  discriminate.
Defined.

(** ** The probe count in the DUP genotype *)

Lemma g_is_d_from_sound (fuel : nat) :
  forall n : Z,
    g_is_d_from fuel n = true ->
    forall k, n <= k < n + Z.of_nat fuel -> Py.fmt_g k = Py.fmt_d k.
Proof.
  induction fuel as [|fuel IH]; intros n H k Hk; [lia|].
  cbn [g_is_d_from] in H. apply andb_true_iff in H as [Hn Hrest].
  destruct (Z.eq_dec k n) as [->|Hne].
  - apply String.eqb_eq, Hn.
  - apply (IH (n + 1) Hrest). lia.
Qed.

Lemma fmt_g_decimal_below_million (k : Z) :
  0 <= k < 1000000 -> Py.fmt_g k = Py.fmt_d k.
Proof.
  intros Hk.
  apply (g_is_d_from_sound (Z.to_nat 1000000) 0); [|lia].
  vm_compute. reflexivity.
Qed.

(** X21. The genotype of a DUP record prints the probe count with [%g]: for a
    count from 0 to 999999 that is the plain decimal number, as in a DEL
    record; from one million on the count is written in exponent notation
    with six significant digits ([1e+06] for 1000000). *)
Theorem dup_genotype_probe_count :
  forall (py : PyVersion) (row : Segment) (v : Q) (p : Z),
    Py.round py v > p ->
    0 <= probes row < 1000000 ->
    option_map record_genotype (vcf_record py row v p)
    = Some ("0/1:0:" ++ Py.fmt_d (Py.round py v) ++ ":"
            ++ Py.fmt_d (probes row))
    /\ option_map record_genotype
         (vcf_record py (mkSegment (chromosome row) (start row) (end_ row)
                                   (gene row) (log2 row) 1000000) v p)
       = Some ("0/1:0:" ++ Py.fmt_d (Py.round py v) ++ ":1e+06").
Proof.
  intros py row v p Hdup Hprobes. split.
  - rewrite (vcf_record_dup py row v p Hdup). cbn [option_map record_genotype].
    rewrite (fmt_g_decimal_below_million (probes row) Hprobes). reflexivity.
  - rewrite (vcf_record_dup py _ v p Hdup). reflexivity.
Qed.

Lemma dup_genotype_probe_count_witness :
  option_map record_genotype (vcf_record Python3 seg_chr1 3 2)
  = Some ("0/1:0:" ++ Py.fmt_d (Py.round Python3 3) ++ ":"
          ++ Py.fmt_d (probes seg_chr1)).
Proof.
  apply (dup_genotype_probe_count Python3 seg_chr1 3 2).
  - vm_compute. reflexivity.
  - simpl. lia.
Defined.
